(** * Endpoint monitor: configuration store, prober and polling cycle

    A shallow embedding of [main.py]: the [EndpointConfig] entity, the
    [ConfigLoader] (live configuration manager), the [check_health] probe,
    [clean_domains] and the [monitor_endpoints] loop, with the properties
    of the specification stated over them.

    Conventions of the embedding:
    - Python dictionaries are [gmap]s and Python sets are [gset]s; none of
      the properties below depends on the insertion order of a dictionary.
    - Python exceptions are values of [exn]; a computation that may raise
      has type [res A].
    - Integers are [Z]. Times (seconds) are rationals [Q]: the code only
      compares them, and comparison of finite floats is exact. The quotient
      of two integers is the double that Python's true division gives, as
      the rational it is.
    - A string is a sequence of characters with code points below 256.
    - The file system, the YAML parser, the HTTP transport and the metrics
      registry are collaborators: the file system is a snapshot [FS] with
      already parsed file contents, the transport is an oracle giving one
      [outcome] per endpoint, the metrics registry is the record [Sink]. *)

From Stdlib Require Import ZArith QArith Ascii String List Lia DecimalString.
From stdpp Require Import gmap strings list fin_maps fin_sets.

Local Open Scope Z_scope.
Local Open Scope string_scope.

(** ** Exceptions *)

Inductive exn : Type :=
  | FileNotFoundError
  | YAMLError
  | PermissionError
  | IsADirectoryError
  | TypeError
  | ValueError
  | ZeroDivisionError
  | TimeoutError
  | ClientError.

Inductive res (A : Type) : Type :=
  | Ok (a : A)
  | Raise (e : exn).
Arguments Ok {A} a.
Arguments Raise {A} e.

#[global] Instance res_ret : MRet res := fun A a => Ok a.

#[global] Instance res_bind : MBind res := fun A B k r =>
  match r with
  | Ok a => k a
  | Raise e => Raise e
  end.

(** ** Strings *)

Module Str.

Definition is_upper_target (c : ascii) : bool :=
  let n := nat_of_ascii c in ((97 <=? n) && (n <=? 122))%nat.

(** [str.upper()], on ASCII letters. *)
Fixpoint upper (s : string) : string :=
  match s with
  | EmptyString => EmptyString
  | String c r =>
      String (if is_upper_target c then ascii_of_nat (nat_of_ascii c - 32) else c)
             (upper r)
  end.

Fixpoint mem (c : ascii) (cs : list ascii) : bool :=
  match cs with
  | [] => false
  | d :: ds => Ascii.eqb c d || mem c ds
  end.

(** Whether some character of [cs] occurs in [s]. *)
Fixpoint contains (cs : list ascii) (s : string) : bool :=
  match s with
  | EmptyString => false
  | String c r => mem c cs || contains cs r
  end.

(** The part of [s] before the first character that is in [cs]
    (all of [s] when there is none). *)
Fixpoint before (cs : list ascii) (s : string) : string :=
  match s with
  | EmptyString => EmptyString
  | String c r => if mem c cs then EmptyString else String c (before cs r)
  end.

(** The part of [s] after the first character that is in [cs]
    ([None] when there is none). *)
Fixpoint after (cs : list ascii) (s : string) : option string :=
  match s with
  | EmptyString => None
  | String c r => if mem c cs then Some r else after cs r
  end.

(** The part of [s] after the last occurrence of [c] (all of [s] when
    there is none): [s.rpartition(c)[2]]. *)
Fixpoint after_last (c : ascii) (s : string) : string :=
  match s with
  | EmptyString => EmptyString
  | String d r =>
      if contains [c] r then after_last c r
      else if Ascii.eqb d c then r else String d (after_last c r)
  end.

(** [s.endswith(suf)]. *)
Definition endswith (s suf : string) : bool :=
  let n := String.length s in
  let m := String.length suf in
  ((m <=? n)%nat && String.eqb (substring (n - m) m s) suf).

(** [s[n:]] *)
Fixpoint drop (n : nat) (s : string) : string :=
  match n, s with
  | S m, String _ r => drop m r
  | _, _ => s
  end.

(** [s] without its leading characters of code 32 or less: what
    [s.lstrip] does with the C0 control characters and the space. *)
Fixpoint lstrip_c0 (s : string) : string :=
  match s with
  | EmptyString => EmptyString
  | String c r => if (nat_of_ascii c <=? 32)%nat then lstrip_c0 r else s
  end.

(** [s] without the characters that are in [cs]. *)
Fixpoint remove (cs : list ascii) (s : string) : string :=
  match s with
  | EmptyString => EmptyString
  | String c r => if mem c cs then remove cs r else String c (remove cs r)
  end.

(** [s.startswith(pre)]. *)
Definition startswith (s pre : string) : bool := String.prefix pre s.

(** [s.split(c)]: the parts of [s] between the occurrences of [c]. *)
Fixpoint split (c : ascii) (s : string) : list string :=
  match s with
  | EmptyString => [EmptyString]
  | String d r =>
      if Ascii.eqb d c then EmptyString :: split c r
      else match split c r with
           | p :: ps => String d p :: ps
           | [] => [String d EmptyString]
           end
  end.

(** Every character of [s] passes the test [p]. *)
Fixpoint all (p : ascii -> bool) (s : string) : bool :=
  match s with
  | EmptyString => true
  | String c r => p c && all p r
  end.

(** The longest prefix of [s] whose characters pass the test [p]. *)
Fixpoint take_while (p : ascii -> bool) (s : string) : string :=
  match s with
  | EmptyString => EmptyString
  | String c r => if p c then String c (take_while p r) else EmptyString
  end.

End Str.

(** ** IP addresses

    The part of the library module [ipaddress] that [urlsplit] calls on a
    bracketed host: [ip_address] of a string. An [AddressValueError] is
    [None]; the integer of the address is computed as the library does,
    although [urlsplit] only asks whether there is one. *)

Module ipaddress.

Definition decimal_digit (c : ascii) : bool :=
  let n := nat_of_ascii c in ((48 <=? n) && (n <=? 57))%nat.

(** Membership in [_HEX_DIGITS]. *)
Definition hex_digit (c : ascii) : bool :=
  let n := nat_of_ascii c in
  (((48 <=? n) && (n <=? 57)) || ((65 <=? n) && (n <=? 70))
   || ((97 <=? n) && (n <=? 102)))%nat.

Definition digit_value (c : ascii) : Z :=
  let n := Z.of_nat (nat_of_ascii c) in
  if (n <=? 57)%Z then n - 48 else if (n <=? 70)%Z then n - 55 else n - 87.

(** [int(s, base)] of a string of digits of the base. *)
Definition int (s : string) (base : Z) : Z :=
  fold_left (fun acc c => base * acc + digit_value c) (list_ascii_of_string s) 0.

Definition _parse_octet (octet_str : string) : option Z :=
  if String.eqb octet_str "" then None
  else if negb (Str.all decimal_digit octet_str) then None
  else if (3 <? String.length octet_str)%nat then None
  else if negb (String.eqb octet_str "0") && Str.startswith octet_str "0" then None
  else
    let octet_int := int octet_str 10 in
    if (255 <? octet_int)%Z then None else Some octet_int.

(** [int.from_bytes(octets, 'big')] *)
Definition from_bytes (octets : list Z) : Z :=
  fold_left (fun acc o => 256 * acc + o) octets 0.

(** [IPv4Address(address)._ip] *)
Definition IPv4Address (address : string) : option Z :=
  if Str.contains ["/"%char] address then None
  else if String.eqb address "" then None
  else
    let octets := Str.split "." address in
    if negb (length octets =? 4)%nat then None
    else octets_int ← mapM _parse_octet octets; Some (from_bytes octets_int).

Definition hex_char (d : Z) : ascii :=
  ascii_of_nat (Z.to_nat (if (d <? 10)%Z then 48 + d else 87 + d)).

Fixpoint strip_zeros (digits : list Z) : list Z :=
  match digits with
  | d :: r => if (d =? 0)%Z then strip_zeros r else digits
  | [] => []
  end.

(** ['%x' % v], for [v] below [16^4]. *)
Definition format_x (v : Z) : string :=
  let digits := [v / 4096 mod 16; v / 256 mod 16; v / 16 mod 16] in
  string_of_list_ascii (map hex_char (strip_zeros digits ++ [v mod 16])%list).

Definition _parse_hextet (hextet_str : string) : option Z :=
  if negb (Str.all hex_digit hextet_str) then None
  else if (4 <? String.length hextet_str)%nat then None
  else if String.eqb hextet_str "" then None
  else Some (int hextet_str 16).

Definition _split_scope_id (ip_str : string) : option (string * option string) :=
  match Str.after ["%"%char] ip_str with
  | None => Some (ip_str, None)
  | Some scope_id =>
      if String.eqb scope_id "" || Str.contains ["%"%char] scope_id then None
      else Some (Str.before ["%"%char] ip_str, Some scope_id)
  end.

Definition shift_hextets (ip_int : Z) (hextets : list Z) : Z :=
  fold_left (fun acc h => Z.lor (Z.shiftl acc 16) h) hextets ip_int.

(** [_BaseV6._ip_int_from_string] *)
Definition _ip_int_from_string (ip_str : string) : option Z :=
  if String.eqb ip_str "" then None else
  let parts := Str.split ":" ip_str in
  if (length parts <? 3)%nat then None else
  parts ← (if Str.contains ["."%char] (List.last parts "")
           then
             ipv4_int ← IPv4Address (List.last parts "");
             Some (removelast parts
                   ++ [format_x (Z.land (Z.shiftr ipv4_int 16) 65535);
                       format_x (Z.land ipv4_int 65535)])%list
           else Some parts);
  if (9 <? length parts)%nat then None else
  let empty i := String.eqb (nth i parts "") "" in
  match filter (fun i => empty i = true) (seq 1 (length parts - 2)) with
  | _ :: _ :: _ => None
  | [skip_index] =>
      let parts_hi := skip_index in
      let parts_lo := (length parts - skip_index - 1)%nat in
      if empty 0%nat && negb (parts_hi - 1 =? 0)%nat then None else
      let parts_hi := if empty 0%nat then (parts_hi - 1)%nat else parts_hi in
      if empty (length parts - 1)%nat && negb (parts_lo - 1 =? 0)%nat then None else
      let parts_lo := if empty (length parts - 1)%nat then (parts_lo - 1)%nat else parts_lo in
      let parts_skipped := 8 - Z.of_nat (parts_hi + parts_lo) in
      if (parts_skipped <? 1)%Z then None else
      hi ← mapM _parse_hextet (take parts_hi parts);
      lo ← mapM _parse_hextet (drop (length parts - parts_lo) parts);
      Some (shift_hextets (Z.shiftl (shift_hextets 0 hi) (16 * parts_skipped)) lo)
  | [] =>
      if negb (length parts =? 8)%nat then None
      else if empty 0%nat then None
      else if empty (length parts - 1)%nat then None
      else hi ← mapM _parse_hextet parts; Some (shift_hextets 0 hi)
  end.

(** [IPv6Address(address)]: the integer and the scope id. *)
Definition IPv6Address (address : string) : option (Z * option string) :=
  if Str.contains ["/"%char] address then None else
  '(addr_str, scope_id) ← _split_scope_id address;
  ip ← _ip_int_from_string addr_str;
  Some (ip, scope_id).

Inductive Address : Type :=
  | V4 (ip : Z)
  | V6 (ip : Z) (scope_id : option string).

Definition ip_address (address : string) : res Address :=
  match IPv4Address address with
  | Some ip => Ok (V4 ip)
  | None =>
      match IPv6Address address with
      | Some (ip, scope_id) => Ok (V6 ip scope_id)
      | None => Raise ValueError
      end
  end.

End ipaddress.

(** ** URLs

    [urllib.parse.urlparse] is library code; the part [get_domain] reads,
    the [netloc], is computed as [urlsplit] does: leading control characters
    and blanks are stripped and every tab, line feed and carriage return is
    removed; an initial scheme (a letter followed by scheme characters, up
    to the first colon) is cut off; and if what follows starts with two
    slashes, the netloc runs up to the first slash, question mark or hash
    sign. A netloc with one square bracket but not the other raises
    [ValueError]; one with both is checked by [_check_bracketed_netloc],
    which raises [ValueError] unless the host is an IPv6 or IPvFuture
    literal with nothing before the opening bracket and nothing but a port
    after the closing one.

    A character is a code point below 256. The last check of [urlsplit],
    [_checknetloc], raises when the NFKC normal form of a non-ASCII netloc
    gains one of the characters [/?#@:]; no code point below 256 normalises
    to a text holding one of them, so the check never raises here and has
    no counterpart below. *)

Module Url.

Definition is_alpha (c : ascii) : bool :=
  let n := nat_of_ascii c in
  (((65 <=? n) && (n <=? 90)) || ((97 <=? n) && (n <=? 122)))%nat.

Definition is_digit (c : ascii) : bool :=
  let n := nat_of_ascii c in ((48 <=? n) && (n <=? 57))%nat.

Definition scheme_char (c : ascii) : bool :=
  is_alpha c || is_digit c || Str.mem c ["+"; "-"; "."]%char.

Fixpoint all_scheme_chars (s : string) : bool :=
  match s with
  | EmptyString => true
  | String c r => scheme_char c && all_scheme_chars r
  end.

(** The url without its scheme. *)
Definition strip_scheme (url : string) : string :=
  match url, Str.after [":"%char] url with
  | String c _, Some rest =>
      if is_alpha c && all_scheme_chars (Str.before [":"%char] url)
      then rest else url
  | _, _ => url
  end.

(** Tab, line feed and carriage return. *)
Definition unsafe : list ascii := ["009"; "010"; "013"]%char.

Definition clean (url : string) : string :=
  Str.remove unsafe (Str.lstrip_c0 url).

(** The regular expression [\Av[a-fA-F0-9]+\..+\Z]: a [v], hexadecimal
    digits, a dot, and a text with no line feed, none of the three empty. *)
Definition ipvfuture (hostname : string) : bool :=
  match hostname with
  | String "v" r =>
      let version := Str.take_while ipaddress.hex_digit r in
      negb (String.eqb version "")
      && match Str.drop (String.length version) r with
         | String "." t => negb (String.eqb t "") && negb (Str.contains ["010"%char] t)
         | _ => false
         end
  | _ => false
  end.

Definition _check_bracketed_host (hostname : string) : res unit :=
  if Str.startswith hostname "v" then
    if ipvfuture hostname then Ok tt else Raise ValueError
  else
    ip ← ipaddress.ip_address hostname;
    match ip with
    | ipaddress.V4 _ => Raise ValueError
    | ipaddress.V6 _ _ => Ok tt
    end.

Definition _check_bracketed_netloc (netloc : string) : res unit :=
  let hostname_and_port := Str.after_last "@" netloc in
  match Str.after ["["%char] hostname_and_port with
  | Some bracketed =>
      if negb (String.eqb (Str.before ["["%char] hostname_and_port) "")
      then Raise ValueError
      else
        let hostname := Str.before ["]"%char] bracketed in
        let port := default "" (Str.after ["]"%char] bracketed) in
        if negb (String.eqb port "") && negb (Str.startswith port ":")
        then Raise ValueError
        else _check_bracketed_host hostname
  | None => _check_bracketed_host (Str.before [":"%char] hostname_and_port)
  end.

Definition netloc (url : string) : res string :=
  let u := strip_scheme (clean url) in
  if Str.startswith u "//" then
    let n := Str.before ["/"; "?"; "#"]%char (Str.drop 2 u) in
    if xorb (Str.contains ["["%char] n) (Str.contains ["]"%char] n)
    then Raise ValueError
    else if Str.contains ["["%char] n && Str.contains ["]"%char] n
    then _ ← _check_bracketed_netloc n; Ok n
    else Ok n
  else Ok EmptyString.

(** The host component of an authority [[userinfo@]host[:port]]: what
    follows the last [@], up to the port; a bracketed IP literal is the
    text between the brackets. *)
Definition host_of_netloc (n : string) : string :=
  let hostinfo := Str.after_last "@" n in
  match Str.after ["["%char] hostinfo with
  | Some bracketed => Str.before ["]"%char] bracketed
  | None => Str.before [":"%char] hostinfo
  end.

Definition host (url : string) : res string :=
  n ← netloc url; Ok (host_of_netloc n).

End Url.

(** ** EndpointConfig *)

Inductive Result : Type := UP | DOWN.

Definition Result_eqb (a b : Result) : bool :=
  match a, b with
  | UP, UP | DOWN, DOWN => true
  | _, _ => false
  end.

(** The dictionary [{"up": _, "total": _}]. *)
Record Stats : Type := mkStats { up : Z; total : Z }.

Record EndpointConfig : Type := mkEndpoint {
  name : string;
  url : string;
  method : string;
  headers : list (string * string);
  body : option string;
  file_path : option string;
  domain : string;
  stats : Stats
}.

(** [parsed_url.netloc.split(":")[0]] *)
Definition get_domain (u : string) : res string :=
  n ← Url.netloc u; Ok (Str.before [":"%char] n).

(** One declaration of a configuration file: the mapping [ep]. The keys
    the constructor knows are fields; [d_unknown] tells whether the mapping
    has any other key. *)
Record Decl : Type := mkDecl {
  d_name : option string;
  d_url : option string;
  d_method : option string;
  d_headers : option (list (string * string));
  d_body : option string;
  d_unknown : bool
}.

(** The constructor called with the keys of [ep] and [file_path] as keyword
    arguments: a missing [name] or [url], or a key that is no parameter, is
    a [TypeError]. *)
Definition EndpointConfig_init (ep : Decl) (fp : string) : res EndpointConfig :=
  if d_unknown ep then Raise TypeError else
  match d_name ep, d_url ep with
  | Some n, Some u =>
      d ← get_domain u;
      Ok {| name := n;
            url := u;
            method := Str.upper (default "GET" (d_method ep));
            headers := default [] (d_headers ep);
            body := d_body ep;
            file_path := Some fp;
            domain := d;
            stats := mkStats 0 0 |}
  | _, _ => Raise TypeError
  end.

Definition set_stats (e : EndpointConfig) (s : Stats) : EndpointConfig :=
  {| name := name e; url := url e; method := method e; headers := headers e;
     body := body e; file_path := file_path e; domain := domain e; stats := s |}.

Definition Stats_update (s : Stats) (result : Result) : Stats :=
  {| up := if Result_eqb result UP then up s + 1 else up s;
     total := total s + 1 |}.

Definition update_stats (e : EndpointConfig) (result : Result) : EndpointConfig :=
  set_stats e (Stats_update (stats e) result).

(** Python's [round] of a rational: the nearest integer, a tie going to
    the even neighbour. *)
Definition py_round (q : Q) : Z :=
  let n := Qnum q in
  let d := Zpos (Qden q) in
  let f := n / d in
  let r2 := 2 * (n mod d) in
  if (r2 <? d)%Z then f
  else if (d <? r2)%Z then f + 1
  else if Z.even f then f else f + 1.

(** The nearest integer of the fraction [n / d], [d] positive, a tie going
    to the even neighbour. *)
Definition rne (n d : Z) : Z :=
  let f := n / d in
  let r2 := 2 * (n mod d) in
  if (r2 <? d)%Z then f
  else if (d <? r2)%Z then f + 1
  else if Z.even f then f else f + 1.

(** The binary exponent of the quotient of two positive integers: the [e]
    with [2^e <= n / d < 2^(e+1)]. *)
Definition quot_exponent (n d : Z) : Z :=
  let e0 := Z.log2 n - Z.log2 d in
  if (d * 2 ^ Z.max 0 e0 <=? n * 2 ^ Z.max 0 (- e0))%Z then e0 else e0 - 1.

(** The double nearest to the quotient of two integers, [n] not negative
    and [d] positive, a tie going to the even significand: the significand
    has 53 bits, down to the least exponent of binary64, below which the
    spacing of the subnormal numbers stays [2^-1074]. *)
Definition binary64_quot (n d : Z) : Q :=
  if (n =? 0)%Z then 0%Q else
  let e := quot_exponent n d in
  let s := Z.max e (-1022) - 52 in
  let m := rne (n * 2 ^ Z.max 0 (- s)) (d * 2 ^ Z.max 0 s) in
  (m * 2 ^ Z.max 0 s) # Z.to_pos (2 ^ Z.max 0 (- s)).

(** The true division [a / b] of two integers, [b] not zero: a float, the
    correctly rounded quotient, here as the rational it is. For a quotient
    of [2^1024] or more Python raises an [OverflowError]; this is outside
    the model, whose callers divide counters with [up <= total]. *)
Definition truediv (a b : Z) : Q :=
  let q := binary64_quot (Z.abs a) (Z.abs b) in
  if (Z.sgn a * Z.sgn b <? 0)%Z then (- q)%Q else q.

Definition availability_of (s : Stats) : Z :=
  if (0 <? total s)%Z then py_round (truediv (100 * up s) (total s)) else 0.

Definition availability_percentage (e : EndpointConfig) : Z :=
  availability_of (stats e).

(** ** The file system

    A snapshot of the part of the file system the loader reads. The
    content of a regular file is what [open] followed by [yaml.safe_load]
    gives: a sequence of declarations, a document that is no sequence (an
    empty file loads as [None]), a syntax error, or no permission to read. *)

Inductive Content : Type :=
  | Parsed (config_data : list Decl)
  | NoSequence
  | Malformed
  | Unreadable.

Inductive Node : Type :=
  | Dir (mtime : Z) (listing : list string)
  | File (mtime : Z) (c : Content).

Abbreviation FS := (gmap string Node).

Module os.

Definition isdir (fs : FS) (p : string) : bool :=
  match fs !! p with Some (Dir _ _) => true | _ => false end.

Definition isfile (fs : FS) (p : string) : bool :=
  match fs !! p with Some (File _ _) => true | _ => false end.

Definition exists_ (fs : FS) (p : string) : bool :=
  match fs !! p with Some _ => true | None => false end.

Definition listdir (fs : FS) (p : string) : list string :=
  match fs !! p with Some (Dir _ names) => names | _ => [] end.

Definition getmtime (fs : FS) (p : string) : res Z :=
  match fs !! p with
  | Some (Dir t _) | Some (File t _) => Ok t
  | None => Raise FileNotFoundError
  end.

Definition join (a b : string) : string :=
  if Str.startswith b "/" then b
  else if String.eqb a "" || Str.endswith a "/" then a ++ b
  else a ++ "/" ++ b.

End os.

(** [open(file_path, "r")] and [yaml.safe_load(file)] *)
Definition safe_load (fs : FS) (p : string) : res (option (list Decl)) :=
  match fs !! p with
  | None => Raise FileNotFoundError
  | Some (Dir _ _) => Raise IsADirectoryError
  | Some (File _ Unreadable) => Raise PermissionError
  | Some (File _ Malformed) => Raise YAMLError
  | Some (File _ NoSequence) => Ok None
  | Some (File _ (Parsed config_data)) => Ok (Some config_data)
  end.

(** ** ConfigLoader *)

Record ConfigLoader : Type := mkLoader {
  path : string;
  endpoints : gmap string EndpointConfig;
  file_endpoints : gmap string (gset string);
  mod_times : gmap string Z
}.

(** [for name in names: if name in endpoints: del endpoints[name]] *)
Definition del_names (names : gset string) (eps : gmap string EndpointConfig)
  : gmap string EndpointConfig :=
  set_fold (fun n m => delete n m) eps names.

Definition _remove_file_endpoints (self : ConfigLoader) (fp : string) : ConfigLoader :=
  match file_endpoints self !! fp with
  | None => self
  | Some names =>
      {| path := path self;
         endpoints := del_names names (endpoints self);
         file_endpoints := delete fp (file_endpoints self);
         mod_times := delete fp (mod_times self) |}
  end.

(** The loop over the declarations of one file: every declaration is
    stored under its name and the name is added to the names of the file. *)
Fixpoint load_decls (fp : string) (config_data : list Decl)
    (eps : gmap string EndpointConfig) (current : gset string)
  : res (gmap string EndpointConfig * gset string) :=
  match config_data with
  | [] => Ok (eps, current)
  | ep :: rest =>
      e ← EndpointConfig_init ep fp;
      load_decls fp rest (<[name e := e]> eps) ({[name e]} ∪ current)
  end.

(** The body of the [try] of [_load_file]. *)
Definition _load_file_try (fs : FS) (self : ConfigLoader) (fp : string)
  : res ConfigLoader :=
  current_mod_time ← os.getmtime fs fp;
  if decide (mod_times self !! fp = Some current_mod_time) then Ok self else
  loaded ← safe_load fs fp;
  match loaded with
  | None => Raise TypeError
  | Some config_data =>
      r ← load_decls fp config_data (endpoints self) ∅;
      let eps :=
        match file_endpoints self !! fp with
        | Some old => del_names (old ∖ r.2) r.1
        | None => r.1
        end in
      Ok {| path := path self;
            endpoints := eps;
            file_endpoints := <[fp := r.2]> (file_endpoints self);
            mod_times := <[fp := current_mod_time]> (mod_times self) |}
  end.

(** [_load_file]: the handler catches [FileNotFoundError] and
    [yaml.YAMLError] only; both are raised before the loader is changed. *)
Definition _load_file (fs : FS) (self : ConfigLoader) (fp : string)
  : res ConfigLoader :=
  match _load_file_try fs self fp with
  | Raise FileNotFoundError | Raise YAMLError =>
      match file_endpoints self !! fp with
      | Some _ => Ok (_remove_file_endpoints self fp)
      | None => Ok self
      end
  | r => r
  end.

Definition is_yaml (p : string) : bool := Str.endswith p ".yaml".

(** The files a load or a refresh goes through, in the order of the
    directory listing: [current_files]. *)
Definition sources (fs : FS) (p : string) : list string :=
  if os.isdir fs p then
    os.join p <$> List.filter is_yaml (os.listdir fs p)
  else if os.isfile fs p && is_yaml p then [p]
  else [].

(** [for file_path in list(self.file_endpoints.keys())], removing the
    files the test [gone] selects. *)
Definition remove_gone (gone : string -> bool) (self : ConfigLoader) : ConfigLoader :=
  foldl (fun s fp => if gone fp then _remove_file_endpoints s fp else s)
        self (elements (dom (file_endpoints self))).

Definition in_list (l : list string) (x : string) : bool := bool_decide (x ∈ l).

(** A [for] loop over file paths whose body changes the loader or raises. *)
Fixpoint for_each (body : ConfigLoader -> string -> res ConfigLoader)
    (fps : list string) (self : ConfigLoader) : res ConfigLoader :=
  match fps with
  | [] => Ok self
  | fp :: rest => s ← body self fp; for_each body rest s
  end.

Definition load_configs (fs : FS) (self : ConfigLoader) : res ConfigLoader :=
  let current_files := sources fs (path self) in
  s ← for_each (_load_file fs) current_files self;
  Ok (remove_gone (fun fp => negb (in_list current_files fp)) s).

Definition ConfigLoader_init (fs : FS) (p : string) : res ConfigLoader :=
  load_configs fs {| path := p; endpoints := ∅; file_endpoints := ∅; mod_times := ∅ |}.

(** One file of [refresh]: reloaded when it exists and its modification
    time is not the recorded one. *)
Definition refresh_file (fs : FS) (self : ConfigLoader) (fp : string)
  : res ConfigLoader :=
  if os.exists_ fs fp then
    current_mod_time ← os.getmtime fs fp;
    if decide (mod_times self !! fp = Some current_mod_time) then Ok self
    else _load_file fs self fp
  else Ok self.

Definition refresh (fs : FS) (self : ConfigLoader) : res ConfigLoader :=
  let current_files := sources fs (path self) in
  s ← for_each (refresh_file fs) current_files self;
  Ok (remove_gone (fun fp => negb (in_list current_files fp) || negb (os.exists_ fs fp)) s).

(** ** The probe *)

(** What a request sends. *)
Record Request : Type := mkRequest {
  rq_method : string;
  rq_url : string;
  rq_headers : list (string * string);
  rq_body : option string;
  rq_timeout : Q
}.

(** What the transport answers to a request: a response, with its status
    and the time that passed until it arrived, or an exception. *)
Inductive Outcome : Type :=
  | Response (status : Z) (elapsed_time : Q)
  | Fails (e : exn).

Abbreviation Session := (Request -> Outcome).

(** [session.get(url, timeout=t)] *)
Definition session_get (u : string) (t : Q) : Request :=
  {| rq_method := "GET"; rq_url := u; rq_headers := []; rq_body := None;
     rq_timeout := t |}.

(** The three metrics: the gauge [STATUS] by endpoint, the observations of
    [RESPONSE_TIME] by endpoint, the counter [STATUS_CODES] by endpoint and
    code. *)
Record Sink : Type := mkSink {
  STATUS : gmap string Z;
  RESPONSE_TIME : list (string * Q);
  STATUS_CODES : gmap (string * string) Z
}.

Definition Sink_empty : Sink :=
  {| STATUS := ∅; RESPONSE_TIME := []; STATUS_CODES := ∅ |}.

Definition counter (k : Sink) (endpoint code : string) : Z :=
  default 0 (STATUS_CODES k !! (endpoint, code)).

Definition observe (endpoint : string) (t : Q) (k : Sink) : Sink :=
  {| STATUS := STATUS k;
     RESPONSE_TIME := RESPONSE_TIME k ++ [(endpoint, t)];
     STATUS_CODES := STATUS_CODES k |}.

Definition inc (endpoint code : string) (k : Sink) : Sink :=
  {| STATUS := STATUS k;
     RESPONSE_TIME := RESPONSE_TIME k;
     STATUS_CODES := <[(endpoint, code) := counter k endpoint code + 1]> (STATUS_CODES k) |}.

Definition set_status (endpoint : string) (v : Z) (k : Sink) : Sink :=
  {| STATUS := <[endpoint := v]> (STATUS k);
     RESPONSE_TIME := RESPONSE_TIME k;
     STATUS_CODES := STATUS_CODES k |}.

(** [str(n)] *)
Definition str (n : Z) : string := NilZero.string_of_int (Z.to_int n).

Definition Qltb (a b : Q) : bool := negb (Qle_bool b a).

Definition response_time_threshold : Q := 1 # 2.

(** The body of the [try] of [check_health]. The request and the sink
    after the probe are returned with the result. *)
Definition check_health_try (session : Session) (endpoint : EndpointConfig)
    (threshold : Q) (k : Sink) : Request * res (Result * Sink) :=
  let rq := session_get (url endpoint) 1 in
  (rq,
   match session rq with
   | Fails e => Raise e
   | Response status elapsed_time =>
       let k1 := observe (name endpoint) elapsed_time k in
       let k2 := inc (name endpoint) (str status) k1 in
       if (200 <=? status)%Z && (status <? 300)%Z && Qltb elapsed_time threshold
       then Ok (UP, set_status (name endpoint) 1 k2)
       else Ok (DOWN, set_status (name endpoint) 0 k2)
   end).

(** [check_health]: [except Exception] catches whatever the body raises
    (the transport raises before any metric is touched). *)
Definition check_health (session : Session) (endpoint : EndpointConfig)
    (threshold : Q) (k : Sink) : Request * res (Result * Sink) :=
  let t := check_health_try session endpoint threshold k in
  (t.1,
   match t.2 with
   | Ok r => Ok r
   | Raise _ =>
       Ok (DOWN, inc (name endpoint) "error" (set_status (name endpoint) 0 k))
   end).

(** ** Domain statistics and the polling cycle *)

(** [clean_domains] *)
Definition clean_domains (eps : list EndpointConfig) (domain_stats : gmap string Stats)
  : gmap string Stats :=
  let active_domains : gset string := list_to_set (domain <$> eps) in
  let domains_to_remove :=
    List.filter (fun d => bool_decide (d ∉ active_domains))
                (elements (dom domain_stats)) in
  foldl (fun m d => delete d m) domain_stats domains_to_remove.

(** [domain_stats[d]["total"] += 1] and, for [UP], [domain_stats[d]["up"] += 1]
    on a dictionary whose missing entries read as zero counters. *)
Definition record_domain (d : string) (result : Result) (domain_stats : gmap string Stats)
  : gmap string Stats :=
  <[d := Stats_update (default (mkStats 0 0) (domain_stats !! d)) result]> domain_stats.

Record Monitor : Type := mkMonitor {
  config_loader : ConfigLoader;
  domain_stats : gmap string Stats;
  sink : Sink;
  requests : list Request
}.

(** The probes of one cycle, one per endpoint; the requests issued are
    appended to the log and the results come back in the order of the
    endpoints. *)
Fixpoint probe_all (session : Session) (eps : list EndpointConfig)
    (k : Sink) (log : list Request) : res (list Result * Sink * list Request) :=
  match eps with
  | [] => Ok ([], k, log)
  | e :: rest =>
      let p := check_health session e response_time_threshold k in
      r ← p.2;
      rs ← probe_all session rest r.2 (log ++ [p.1]);
      Ok (r.1 :: rs.1.1, rs.1.2, rs.2)
  end.

(** [for endpoint, result in zip(endpoints, results)] *)
Fixpoint record_all (prs : list (EndpointConfig * Result))
    (eps : gmap string EndpointConfig) (ds : gmap string Stats)
  : gmap string EndpointConfig * gmap string Stats :=
  match prs with
  | [] => (eps, ds)
  | (e, result) :: rest =>
      record_all rest (<[name e := update_stats e result]> eps)
                 (record_domain (domain e) result ds)
  end.

(** [round(100 * stats["up"] / stats["total"])]: the division raises for a
    zero total. *)
Definition domain_availability (s : Stats) : res Z :=
  if (total s =? 0)%Z then Raise ZeroDivisionError
  else Ok (py_round (truediv (100 * up s) (total s))).

Fixpoint report (l : list (string * Stats)) : res (list (string * Z)) :=
  match l with
  | [] => Ok []
  | (d, s) :: rest =>
      a ← domain_availability s;
      r ← report rest;
      Ok ((d, a) :: r)
  end.

Inductive LoopStatus : Type := Running | Stopped.

(** One turn of the [while True] loop. *)
Definition cycle (fs : FS) (session : Session) (m : Monitor)
  : res (LoopStatus * Monitor) :=
  cl ← refresh fs (config_loader m);
  let eps := (map_to_list (endpoints cl)).*2 in
  match eps with
  | [] =>
      Ok (Stopped,
          {| config_loader := cl; domain_stats := domain_stats m;
             sink := sink m; requests := requests m |})
  | _ =>
      let ds := clean_domains eps (domain_stats m) in
      p ← probe_all session eps (sink m) (requests m);
      let rec := record_all (zip eps p.1.1) (endpoints cl) ds in
      _ ← report (map_to_list rec.2);
      Ok (Running,
          {| config_loader :=
               {| path := path cl; endpoints := rec.1;
                  file_endpoints := file_endpoints cl; mod_times := mod_times cl |};
             domain_stats := rec.2;
             sink := p.1.2;
             requests := p.2 |})
  end.

(** The loop, over the file system and the transport of each turn; it is
    [Running] when the turns given are used up. *)
Fixpoint monitor_loop (turns : list (FS * Session)) (m : Monitor)
  : res (LoopStatus * Monitor) :=
  match turns with
  | [] => Ok (Running, m)
  | (fs, session) :: rest =>
      r ← cycle fs session m;
      match r.1 with
      | Stopped => Ok r
      | Running => monitor_loop rest r.2
      end
  end.

(** [monitor_endpoints]: the loader is built from the file system at start
    up; the domain statistics and the metrics start empty. *)
Definition monitor_endpoints (p : string) (fs0 : FS) (turns : list (FS * Session))
  : res (LoopStatus * Monitor) :=
  cl ← ConfigLoader_init fs0 p;
  monitor_loop turns
    {| config_loader := cl; domain_stats := ∅; sink := Sink_empty; requests := [] |}.

(** The nearest integer [r] of the fraction [n / d], a tie going to the
    even neighbour: what [round(n / d)] is in the specification. *)
Definition nearest_even (n d r : Z) : Prop :=
  2 * Z.abs (n - r * d) < d \/ (2 * Z.abs (n - r * d) = d /\ Z.even r = true).

(** *** Example declarations *)

Definition decl_A : Decl :=
  mkDecl (Some "A") (Some "http://svc1.example.com/health") None None None false.

Definition decl_B : Decl :=
  mkDecl (Some "B") (Some "http://svc2.example.com/health") None None None false.

(** A declaration that asks for a POST with a header and a body. *)
Definition decl_post : Decl :=
  mkDecl (Some "P") (Some "http://api.example.com/items") (Some "post")
         (Some [("content-type", "application/json")]) (Some "{}") false.

Definition endpoint_of (d : Decl) (fp : string) : EndpointConfig :=
  match EndpointConfig_init d fp with
  | Ok e => e
  | Raise _ => mkEndpoint "" "" "" [] None None "" (mkStats 0 0)
  end.

Definition with_counts (e : EndpointConfig) (u t : Z) : EndpointConfig :=
  set_stats e (mkStats u t).

(** ** Predicates of the properties and example data *)

(** The names a file declares. *)
Definition decl_names (config_data : list Decl) : gset string :=
  list_to_set (omap d_name config_data).

Definition endpoint_stats (self : ConfigLoader) (n : string) : option Stats :=
  stats <$> endpoints self !! n.

(** The loader after a file was read and its declarations stored. *)
Definition reloaded (self : ConfigLoader) (fp : string) (t : Z)
    (eps : gmap string EndpointConfig) (cur : gset string) : ConfigLoader :=
  {| path := path self;
     endpoints :=
       match file_endpoints self !! fp with
       | Some old => del_names (old ∖ cur) eps
       | None => eps
       end;
     file_endpoints := <[fp := cur]> (file_endpoints self);
     mod_times := <[fp := t]> (mod_times self) |}.

Definition decl_no_name : Decl :=
  mkDecl None (Some "http://svc3.example.com/health") None None None false.

Definition conf_dir (t : Z) (c : Content) : FS :=
  <["conf" := Dir 1 ["a.yaml"; "notes.txt"]]> (<["conf/a.yaml" := File t c]> ∅).

(** One file that declares A and B. *)
Definition conf_v1 : FS := conf_dir 10 (Parsed [decl_A; decl_B]).

(** The same declarations, the file written again later. *)
Definition conf_touched : FS := conf_dir 20 (Parsed [decl_A; decl_B]).

(** The file written again with a declaration that has no name. *)
Definition conf_missing_name : FS := conf_dir 20 (Parsed [decl_A; decl_no_name]).

(** The file made unreadable. *)
Definition conf_unreadable : FS := conf_dir 20 Unreadable.

(** A answers 200 after a tenth of a second; any other request times out. *)
Definition session_A_up : Session := fun rq =>
  if String.eqb (rq_url rq) "http://svc1.example.com/health"
  then Response 200 (1 # 10)
  else Fails TimeoutError.

Definition loader_empty (p : string) : ConfigLoader :=
  {| path := p; endpoints := ∅; file_endpoints := ∅; mod_times := ∅ |}.

Definition loader_of (r : res ConfigLoader) : ConfigLoader :=
  match r with Ok cl => cl | Raise _ => loader_empty "" end.

Definition loader_after (p : string) (fs0 : FS) (turns : list (FS * Session))
  : ConfigLoader :=
  match monitor_endpoints p fs0 turns with
  | Ok (_, m) => config_loader m
  | Raise _ => loader_empty ""
  end.

(** The loader after the start on [conf_v1]. *)
Definition loader_v1 : ConfigLoader := loader_of (ConfigLoader_init conf_v1 "conf").

(** The loader after the start and two cycles on [conf_v1]. *)
Definition loader_two_cycles : ConfigLoader :=
  loader_after "conf" conf_v1 [(conf_v1, session_A_up); (conf_v1, session_A_up)].

(** The name [n] is in the name-set recorded for the file [fp]. *)
Definition attributed (self : ConfigLoader) (n fp : string) : Prop :=
  exists names, file_endpoints self !! fp = Some names /\ n ∈ names.

(** The union of the name-sets of all files. *)
Definition names_union (self : ConfigLoader) : gset string :=
  ⋃ (map_to_list (file_endpoints self)).*2.

(** The invariant of the source tracking: the names of the files are the
    keys of the endpoints, and a name is recorded for one file only. *)
Definition tracking_inv (self : ConfigLoader) : Prop :=
  dom (endpoints self) = names_union self /\
  (forall n fp fp', attributed self n fp -> attributed self n fp' -> fp = fp').

(** Every endpoint is stored under its own name. *)
Definition keys_named (eps : gmap string EndpointConfig) : Prop :=
  forall n e, eps !! n = Some e -> name e = n.

(** The names the file [fp] declares in the file system [fs]. *)
Definition declares (fs : FS) (fp : string) : gset string :=
  match fs !! fp with
  | Some (File _ (Parsed config_data)) => decl_names config_data
  | _ => ∅
  end.

(** No name has two sources: no file among [srcs] declares a name that is
    recorded for another file, or that another file among [srcs] declares. *)
Definition no_conflict (fs : FS) (srcs : list string) (self : ConfigLoader) : Prop :=
  (forall fp fp' names,
     fp ∈ srcs -> fp <> fp' -> file_endpoints self !! fp' = Some names ->
     declares fs fp ## names) /\
  (forall fp fp',
     fp ∈ srcs -> fp' ∈ srcs -> fp <> fp' -> declares fs fp ## declares fs fp').

(** The invariant, name by name. *)
Definition tracked (self : ConfigLoader) : Prop :=
  (forall n, is_Some (endpoints self !! n) <-> exists fp, attributed self n fp) /\
  (forall n fp fp', attributed self n fp -> attributed self n fp' -> fp = fp') /\
  keys_named (endpoints self).

(** The loader is tracked and the sources are free of conflicts with it. *)
Definition good (fs : FS) (srcs : list string) (self : ConfigLoader) : Prop :=
  tracked self /\ no_conflict fs srcs self.

(** [no_conflict] is decidable: its quantifiers range over the sources and
    over the recorded files. *)
Definition no_conflict_bounded (fs : FS) (srcs : list string) (self : ConfigLoader) : Prop :=
  Forall (fun fp =>
            map_Forall (fun fp' names => fp <> fp' -> declares fs fp ## names)
                       (file_endpoints self)) srcs /\
  Forall (fun fp =>
            Forall (fun fp' => fp <> fp' -> declares fs fp ## declares fs fp') srcs) srcs.

(** The monitors a run goes through when no name has two sources: the
    start, and each cycle from a monitor already reached. *)
Inductive reachable (p : string) : Monitor -> Prop :=
  | reach_start (fs0 : FS) (cl : ConfigLoader) :
      no_conflict fs0 (sources fs0 p) (loader_empty p) ->
      ConfigLoader_init fs0 p = Ok cl ->
      reachable p {| config_loader := cl; domain_stats := ∅;
                     sink := Sink_empty; requests := [] |}
  | reach_cycle (fs : FS) (session : Session) (m m' : Monitor) (st : LoopStatus) :
      reachable p m ->
      no_conflict fs (sources fs (path (config_loader m))) (config_loader m) ->
      cycle fs session m = Ok (st, m') ->
      reachable p m'.

Definition decl_A' : Decl :=
  mkDecl (Some "A") (Some "http://mirror.example.com/health") None None None false.

Definition decl_C : Decl :=
  mkDecl (Some "C") (Some "http://svc3.example.com/health") None None None false.

Definition conf_two (ta : Z) (a : list Decl) (b : list Decl) : FS :=
  <["conf" := Dir 1 ["a.yaml"; "b.yaml"]]>
    (<["conf/a.yaml" := File ta (Parsed a)]>
       (<["conf/b.yaml" := File 10 (Parsed b)]> ∅)).

(** [a.yaml] declares A and [b.yaml] declares B. *)
Definition conf_ab : FS := conf_two 10 [decl_A] [decl_B].

(** [a.yaml] written again: it declares A and C. *)
Definition conf_acb : FS := conf_two 20 [decl_A; decl_C] [decl_B].

(** Both files declare A. *)
Definition conf_dup : FS := conf_two 10 [decl_A] [decl_A'].

(** [conf_dup] after [a.yaml] was deleted. *)
Definition conf_dup_deleted : FS :=
  <["conf" := Dir 2 ["b.yaml"]]> (<["conf/b.yaml" := File 10 (Parsed [decl_A'])]> ∅).

Definition loader_dup : ConfigLoader := loader_of (ConfigLoader_init conf_dup "conf").

Definition loader_dup_deleted : ConfigLoader :=
  loader_of (refresh conf_dup_deleted loader_dup).

Definition monitor_of (r : res (LoopStatus * Monitor)) : Monitor :=
  match r with
  | Ok (_, m) => m
  | Raise _ =>
      {| config_loader := loader_empty ""; domain_stats := ∅;
         sink := Sink_empty; requests := [] |}
  end.

Definition monitor_start (p : string) (fs0 : FS) : Monitor :=
  {| config_loader := loader_of (ConfigLoader_init fs0 p); domain_stats := ∅;
     sink := Sink_empty; requests := [] |}.

(** The domains of the endpoints of a loader: the active domains of a
    cycle. *)
Definition live (cl : ConfigLoader) (d : string) : Prop :=
  exists n e, endpoints cl !! n = Some e /\ domain e = d.

(** The endpoints a cycle goes through. *)
Definition values (cl : ConfigLoader) : list EndpointConfig :=
  (map_to_list (endpoints cl)).*2.

(** Every entry has counted one probe at least. *)
Definition totals_positive (ds : gmap string Stats) : Prop :=
  forall d s, ds !! d = Some s -> 1 <= total s.

(** The monitor a cycle leaves when it stops: the refreshed loader, and
    the rest as it was. *)
Definition stopped_monitor (m : Monitor) (cl : ConfigLoader) : Monitor :=
  {| config_loader := cl; domain_stats := domain_stats m;
     sink := sink m; requests := requests m |}.

(** B is gone from the file: only A is left. *)
Definition conf_only_A : FS := conf_dir 20 (Parsed [decl_A]).

(** A directory without configuration files. *)
Definition conf_none : FS := <["conf" := Dir 1 ["notes.txt"]]> ∅.

(** The monitor after the start and one cycle on [conf_v1]. *)
Definition monitor_one_cycle : Monitor :=
  monitor_of (monitor_endpoints "conf" conf_v1 [(conf_v1, session_A_up)]).

(** The monitor after one more turn, on a directory that has lost its
    configuration file: the turn that stops the loop. *)
Definition monitor_stopped : Monitor :=
  monitor_of (cycle conf_none session_A_up monitor_one_cycle).

(** ** Predicates of the further properties *)

(** The counters of a dictionary of statistics are in order: no more UP
    results than probes, and neither is negative. *)
Definition counters_ok (s : Stats) : Prop := 0 <= up s <= total s.

(** Every endpoint of the mapping is stored under its own name and has
    counters in order. *)
Definition endpoints_ok (eps : gmap string EndpointConfig) : Prop :=
  forall n e, eps !! n = Some e -> name e = n /\ counters_ok (stats e).

Definition domains_ok (ds : gmap string Stats) : Prop :=
  forall d s, ds !! d = Some s -> counters_ok s.

Definition monitor_ok (m : Monitor) : Prop :=
  endpoints_ok (endpoints (config_loader m)) /\ domains_ok (domain_stats m).

(** The result of the probe of an endpoint, read off [check_health] on
    empty metrics. *)
Definition probe_result (session : Session) (e : EndpointConfig) : Result :=
  match (check_health session e response_time_threshold Sink_empty).2 with
  | Ok r => r.1
  | Raise _ => DOWN
  end.

(** The label under which a probe counts: the status code in decimal, or
    [error]. *)
Definition probe_label (session : Session) (e : EndpointConfig) : string :=
  match session (session_get (url e) 1) with
  | Response status _ => str status
  | Fails _ => "error"
  end.

(** The loader with another endpoint mapping. *)
Definition set_endpoints (self : ConfigLoader) (eps : gmap string EndpointConfig)
  : ConfigLoader :=
  {| path := path self; endpoints := eps;
     file_endpoints := file_endpoints self; mod_times := mod_times self |}.

(** A refresh has nothing to do for the file [fp]: it is gone, or its
    modification time is the recorded one, or it does not parse and nothing
    is recorded for it. *)
Definition quiet (fs : FS) (self : ConfigLoader) (fp : string) : Prop :=
  match fs !! fp with
  | None => True
  | Some (Dir t _) => mod_times self !! fp = Some t
  | Some (File t c) =>
      mod_times self !! fp = Some t \/
      (c = Malformed /\ file_endpoints self !! fp = None)
  end.

(** The counters of a domain, zero when it has no entry. *)
Definition domain_counters (ds : gmap string Stats) (d : string) : Stats :=
  default (mkStats 0 0) (ds !! d).

(** How many of the results recorded belong to the domain [d], and how
    many of these are UP. *)
Definition probes_of (d : string) (prs : list (EndpointConfig * Result)) : Z :=
  Z.of_nat (length (List.filter (fun pr => bool_decide (domain pr.1 = d)) prs)).

Definition ups_of (d : string) (prs : list (EndpointConfig * Result)) : Z :=
  Z.of_nat (length (List.filter
                      (fun pr => bool_decide (domain pr.1 = d) && Result_eqb pr.2 UP) prs)).

(** No character of [cs] occurs in [s]. *)
Definition free_of (cs : list ascii) (s : string) : Prop :=
  Str.contains cs s = false.

(** The characters of a host name: letters, digits, hyphen and dot. *)
Definition host_char (c : ascii) : bool :=
  Url.is_alpha c || Url.is_digit c || Str.mem c ["-"; "."]%char.

(** The characters that end or split an authority, and those [urlsplit]
    removes. *)
Definition special : list ascii :=
  [":"; "/"; "?"; "#"; "["; "]"; "@"; "009"; "010"; "013"]%char.

(** No lower-case letter occurs in [s]. *)
Fixpoint no_lower (s : string) : bool :=
  match s with
  | EmptyString => true
  | String c r => negb (Str.is_upper_target c) && no_lower r
  end.

(** The test of the removal loop of [refresh]. *)
Definition refresh_gone (fs : FS) (srcs : list string) : string -> bool :=
  fun fp => negb (in_list srcs fp) || negb (os.exists_ fs fp).

(** * Properties *)

(** ** Examples *)

Example get_domain_port :
  get_domain "http://svc1.example.com:8080/health" = Ok "svc1.example.com".
Proof. reflexivity. Qed.

Example availability_third : availability_of (mkStats 1 3) = 33.
Proof. vm_compute. reflexivity. Qed.

Example availability_tie_down : availability_of (mkStats 1 8) = 12.
Proof. vm_compute. reflexivity. Qed.

Example availability_tie_up : availability_of (mkStats 3 8) = 38.
Proof. vm_compute. reflexivity. Qed.

(** Where the double decides: the quotient is just below 51.5, the double
    nearest to it is 51.5, and [round] takes 51.5 to the even 52. *)
Example availability_of_double :
  availability_of (mkStats 102999999999999999 200000000000000000) = 52 /\
  nearest_even (100 * 102999999999999999) 200000000000000000 51.
Proof. split; [vm_compute; reflexivity|left; vm_compute; reflexivity]. Qed.


(** ** Availability *)

Section Availability.

Lemma rne_nearest (n d : Z) : 0 < d -> nearest_even n d (rne n d).
Proof.
  intros Hd. unfold rne.
  pose proof (Z.div_mod n d ltac:(lia)) as Hdm.
  pose proof (Z.mod_pos_bound n d Hd) as Hb.
  set (f := n / d) in *. set (r := n mod d) in *.
  unfold nearest_even. cbv zeta.
  destruct (Z.ltb_spec (2 * r) d) as [H1|H1].
  - left. replace (n - f * d) with r by lia. lia.
  - destruct (Z.ltb_spec d (2 * r)) as [H2|H2].
    + left. replace (n - (f + 1) * d) with (r - d) by lia. lia.
    + destruct (Z.even f) eqn:He.
      * right. split; [|assumption].
        replace (n - f * d) with r by lia. lia.
      * right. split.
        -- replace (n - (f + 1) * d) with (r - d) by lia. lia.
        -- rewrite Z.even_add, He. reflexivity.
Qed.

Lemma nearest_even_unique (n d r r' : Z) :
  0 < d -> nearest_even n d r -> nearest_even n d r' -> r = r'.
Proof.
  intros Hd H H'.
  assert (Hle : 2 * Z.abs (n - r * d) <= d) by (destruct H as [?|[? _]]; lia).
  assert (Hle' : 2 * Z.abs (n - r' * d) <= d) by (destruct H' as [?|[? _]]; lia).
  assert (Hclose : Z.abs (r - r') <= 1) by nia.
  destruct (Z.eq_dec r r') as [|Hne]; [assumption|exfalso].
  assert (Hone : r' = r + 1 \/ r = r' + 1) by lia.
  assert (Htie : 2 * Z.abs (n - r * d) = d /\ 2 * Z.abs (n - r' * d) = d) by nia.
  destruct Htie as [T T'].
  destruct H as [H|[_ E]]; [lia|]. destruct H' as [H'|[_ E']]; [lia|].
  destruct Hone as [->| ->].
  - rewrite Z.even_add, E in E'. discriminate.
  - rewrite Z.even_add, E' in E. discriminate.
Qed.

Lemma py_round_rne (q : Q) : py_round q = rne (Qnum q) (Zpos (Qden q)).
Proof. reflexivity. Qed.

(** A multiple of the denominator rounds to its quotient. *)
Lemma rne_exact (r d : Z) : 0 < d -> rne (r * d) d = r.
Proof.
  intros Hd. apply (nearest_even_unique (r * d) d); [assumption| |].
  - now apply rne_nearest.
  - left. replace (r * d - r * d) with 0 by lia. cbn. lia.
Qed.

(** Rounding to a finer grid first does not move the result off the
    percent range. *)
Lemma rne_twice_bounds (n d P : Z) :
  0 < d -> 0 < P -> 0 <= n <= 100 * d ->
  0 <= rne (rne (n * P) d) P <= 100.
Proof.
  intros Hd HP Hn.
  pose proof (rne_nearest (n * P) d Hd) as Hm.
  set (m := rne (n * P) d) in *.
  assert (Hle : 2 * Z.abs (n * P - m * d) <= d) by (destruct Hm as [?|[? _]]; lia).
  assert (Hm0 : 0 <= m <= 100 * P) by (split; nia).
  pose proof (rne_nearest m P HP) as Hr.
  set (r := rne m P) in *.
  assert (Hle' : 2 * Z.abs (m - r * P) <= P) by (destruct Hr as [?|[? _]]; lia).
  split; nia.
Qed.

(** Rounding to a grid of an even number [P] of steps per unit, finer than
    the denominator, and rounding the result to an integer gives the
    integer the fraction itself rounds to. *)
Lemma rne_twice_exact (n d P' : Z) :
  0 < d -> d < 2 * P' ->
  rne (rne (n * (2 * P')) d) (2 * P') = rne n d.
Proof.
  intros Hd HP.
  set (P := 2 * P') in *.
  assert (HP0 : 0 < P) by lia.
  pose proof (rne_nearest (n * P) d Hd) as Hm.
  pose proof (rne_nearest n d Hd) as Hr.
  set (m := rne (n * P) d) in *. set (r := rne n d) in *.
  apply (nearest_even_unique m P); [assumption|now apply rne_nearest|].
  destruct Hr as [Hstrict|[Htie Heven]].
  - left.
    assert (Hle : 2 * Z.abs (n * P - m * d) <= d) by (destruct Hm as [?|[? _]]; lia).
    assert (Heq : d * (m - r * P) = P * (n - r * d) - (n * P - m * d)) by ring.
    nia.
  - right. split; [|assumption].
    assert (Hm' : m = r * P + P' \/ m = r * P - P').
    { assert (Hcase : 2 * (n - r * d) = d \/ 2 * (n - r * d) = - d) by lia.
      destruct Hcase as [Hc|Hc]; [left|right];
        apply (nearest_even_unique (n * P) d); try assumption;
        left; unfold P.
      - replace (n * (2 * P') - (r * (2 * P') + P') * d)
          with (P' * (2 * (n - r * d) - d)) by ring.
        rewrite Hc. replace (P' * (d - d)) with 0 by ring. cbn. lia.
      - replace (n * (2 * P') - (r * (2 * P') - P') * d)
          with (P' * (2 * (n - r * d) + d)) by ring.
        rewrite Hc. replace (P' * (- d + d)) with 0 by ring. cbn. lia. }
    unfold P in *. lia.
Qed.

Lemma quot_exponent_le (n d : Z) :
  0 < n -> 0 < d -> n <= 100 * d -> quot_exponent n d <= 6.
Proof.
  intros Hn Hd Hle. unfold quot_exponent.
  destruct (Z.log2_spec n Hn) as [Hn1 Hn2].
  destruct (Z.log2_spec d Hd) as [Hd1 Hd2].
  pose proof (Z.log2_nonneg n) as Hn0. pose proof (Z.log2_nonneg d) as Hd0.
  set (a := Z.log2 n) in *. set (b := Z.log2 d) in *.
  assert (He0 : a - b <= 7).
  { destruct (Z.le_gt_cases (a - b) 7) as [|Hgt]; [assumption|exfalso].
    assert (H8 : 2 ^ (b + 8) <= 2 ^ a) by (apply Z.pow_le_mono_r; lia).
    rewrite Z.pow_add_r in H8 by lia.
    rewrite Z.pow_succ_r in Hd2 by lia.
    change (2 ^ 8) with 256 in H8.
    pose proof (Z.pow_pos_nonneg 2 b ltac:(lia) Hd0) as Hpos.
    generalize dependent (2 ^ a). generalize dependent (2 ^ b).
    intros. clear Hn2 Hgt. lia. }
  destruct (Z.leb_spec (d * 2 ^ Z.max 0 (a - b)) (n * 2 ^ Z.max 0 (- (a - b))))
    as [Htest|_]; [|lia].
  destruct (Z.eq_dec (a - b) 7) as [H7|]; [exfalso|lia].
  rewrite H7 in Htest. change (2 ^ Z.max 0 7) with 128 in Htest.
  change (2 ^ Z.max 0 (Z.opp 7)) with 1 in Htest. lia.
Qed.

(** Rounded twice, to a grid of [2^k] steps per unit with [k] at least 46
    and then to an integer, a fraction stays within one half and half a
    step of the grid of its result. *)
Lemma rne_twice_close (n d k : Z) :
  0 < d -> 46 <= k ->
  2 ^ 47 * Z.abs (n - rne (rne (n * 2 ^ k) d) (2 ^ k) * d) <= (2 ^ 46 + 1) * d.
Proof.
  intros Hd Hk.
  assert (HP : 2 ^ 46 <= 2 ^ k) by (apply Z.pow_le_mono_r; lia).
  set (P := 2 ^ k) in *.
  assert (HP0 : 0 < P) by lia.
  pose proof (rne_nearest (n * P) d Hd) as Hm.
  set (m := rne (n * P) d) in *.
  assert (Hle : 2 * Z.abs (n * P - m * d) <= d) by (destruct Hm as [?|[? _]]; lia).
  pose proof (rne_nearest m P HP0) as Hr.
  set (r := rne m P) in *.
  assert (Hle' : 2 * Z.abs (m - r * P) <= P) by (destruct Hr as [?|[? _]]; lia).
  assert (Heq : P * (n - r * d) = (n * P - m * d) + d * (m - r * P)) by ring.
  assert (Hsum : 2 * P * Z.abs (n - r * d) <= d * (P + 1)) by nia.
  change (2 ^ 47) with (2 * 2 ^ 46). nia.
Qed.

(** The availability of counters in order rounds twice: the quotient to
    a double, whose spacing is [2^-k] with [k] at least 46, and the double
    to an integer. *)
Lemma py_round_truediv (n d : Z) :
  0 < d -> 0 <= n <= 100 * d ->
  exists k, 46 <= k /\
    py_round (truediv n d) = rne (rne (n * 2 ^ k) d) (2 ^ k).
Proof.
  intros Hd Hn. unfold truediv, binary64_quot.
  rewrite (Z.abs_eq n), (Z.abs_eq d) by lia.
  assert (Hsgn : (Z.sgn n * Z.sgn d <? 0)%Z = false).
  { apply Z.ltb_ge. rewrite (Z.sgn_pos d) by lia.
    pose proof (Z.sgn_nonneg n). lia. }
  rewrite Hsgn. cbv zeta.
  destruct (Z.eqb_spec n 0) as [->|Hn0].
  - exists 46. split; [lia|].
    change (0 * 2 ^ 46) with (0 * d). rewrite rne_exact by assumption.
    reflexivity.
  - pose proof (quot_exponent_le n d ltac:(lia) Hd ltac:(lia)) as He.
    set (e := quot_exponent n d) in *.
    set (s := Z.max e (-1022) - 52).
    assert (Hs : s <= -46) by lia.
    exists (- s). split; [lia|].
    rewrite (Z.max_r 0 (- s)) by lia. rewrite (Z.max_l 0 s) by lia.
    change (2 ^ 0) with 1. rewrite !Z.mul_1_r.
    rewrite py_round_rne. cbn [Qnum Qden].
    rewrite Z2Pos.id by (apply Z.pow_pos_nonneg; lia). reflexivity.
Qed.

End Availability.

(** C6. For every endpoint, the availability is 0 when [total] is 0. When
    [total] is positive (and the counters are in order, [0 <= up <= total],
    as they are for every endpoint of a run) it is
    [round(100 * up / total)], the round of the double that the division
    gives: an integer within one half, and the rounding error of the
    double, of the quotient. For totals below [2^46] the double does not
    matter: the availability is the integer nearest to the quotient, a tie
    going to the even neighbour, and no other integer. *)
Theorem availability_percentage_round (e : EndpointConfig) :
  (total (stats e) = 0 -> availability_percentage e = 0) /\
  (0 < total (stats e) -> 0 <= up (stats e) <= total (stats e) ->
   availability_percentage e
     = py_round (truediv (100 * up (stats e)) (total (stats e))) /\
   2 ^ 47 * Z.abs (100 * up (stats e) - availability_percentage e * total (stats e))
     <= (2 ^ 46 + 1) * total (stats e)) /\
  (0 < total (stats e) -> 0 <= up (stats e) <= total (stats e) ->
   total (stats e) < 2 ^ 46 ->
   forall r : Z,
     availability_percentage e = r <->
     nearest_even (100 * up (stats e)) (total (stats e)) r).
Proof.
  unfold availability_percentage, availability_of. split; [|split].
  - intros ->. reflexivity.
  - intros Ht Hup.
    destruct (Z.ltb_spec 0 (total (stats e))) as [_|]; [|lia].
    split; [reflexivity|].
    destruct (py_round_truediv (100 * up (stats e)) (total (stats e)) Ht ltac:(lia))
      as (k & Hk & ->).
    now apply rne_twice_close.
  - intros Ht Hup Hsmall r.
    destruct (Z.ltb_spec 0 (total (stats e))) as [_|]; [|lia].
    destruct (py_round_truediv (100 * up (stats e)) (total (stats e)) Ht ltac:(lia))
      as (k & Hk & ->).
    replace (2 ^ k) with (2 * 2 ^ (k - 1))
      by (rewrite <- Z.pow_succ_r by lia; f_equal; lia).
    rewrite rne_twice_exact.
    + split.
      * intros <-. now apply rne_nearest.
      * intros Hr. eapply nearest_even_unique; eauto using rne_nearest.
    + assumption.
    + rewrite <- Z.pow_succ_r by lia.
      apply Z.lt_le_trans with (2 ^ 46); [assumption|].
      apply Z.pow_le_mono_r; lia.
Qed.

Lemma availability_percentage_round_witness :
  availability_percentage (with_counts (endpoint_of decl_A "a.yaml") 0 0) = 0 /\
  (availability_percentage (with_counts (endpoint_of decl_A "a.yaml") 3 8) = 38 <->
   nearest_even (100 * 3) 8 38).
Proof.
  split.
  - apply (proj1 (availability_percentage_round
                    (with_counts (endpoint_of decl_A "a.yaml") 0 0))).
    reflexivity.
  - apply (proj2 (proj2 (availability_percentage_round
                           (with_counts (endpoint_of decl_A "a.yaml") 3 8)))).
    + reflexivity.
    + cbn. lia.
    + reflexivity.
Defined.

(** ** The domain of a url *)

Section Domain.

Lemma after_last_absent (c : ascii) (s : string) :
  Str.contains [c] s = false -> Str.after_last c s = s.
Proof.
  induction s as [|d r IH]; [reflexivity|].
  cbn [Str.contains Str.after_last Str.mem]. rewrite orb_false_r.
  intros H. apply orb_false_iff in H as [Hd Hr].
  rewrite Hr, Hd, IH by assumption. reflexivity.
Qed.

Lemma after_absent (c : ascii) (s : string) :
  Str.contains [c] s = false -> Str.after [c] s = None.
Proof.
  induction s as [|d r IH]; [reflexivity|].
  cbn [Str.contains Str.after Str.mem]. rewrite orb_false_r.
  intros H. apply orb_false_iff in H as [Hd Hr].
  rewrite Hd. auto.
Qed.

Lemma _check_bracketed_host_raise (hostname : string) (x : exn) :
  Url._check_bracketed_host hostname = Raise x -> x = ValueError.
Proof.
  unfold Url._check_bracketed_host, ipaddress.ip_address.
  destruct (Str.startswith _ _).
  - destruct (Url.ipvfuture _); congruence.
  - destruct (ipaddress.IPv4Address _); cbn; [congruence|].
    destruct (ipaddress.IPv6Address _) as [[ip scope_id]|]; cbn; congruence.
Qed.

Lemma _check_bracketed_netloc_raise (n : string) (x : exn) :
  Url._check_bracketed_netloc n = Raise x -> x = ValueError.
Proof.
  unfold Url._check_bracketed_netloc.
  destruct (Str.after _ _).
  - destruct (negb _); [congruence|].
    destruct (_ && _); [congruence|]. apply _check_bracketed_host_raise.
  - apply _check_bracketed_host_raise.
Qed.

(** A url is parsed or refused with a [ValueError]. *)
Lemma netloc_raise (u : string) (x : exn) :
  Url.netloc u = Raise x -> x = ValueError.
Proof.
  unfold Url.netloc. cbv zeta.
  destruct (Str.startswith _ _); [|discriminate].
  destruct (xorb _ _); [congruence|].
  destruct (_ && _); [|discriminate].
  destruct (Url._check_bracketed_netloc _) as [[]|y] eqn:E; cbn; [discriminate|].
  intros [= <-]. eapply _check_bracketed_netloc_raise; eauto.
Qed.

(** The netloc of a url is empty or a text cut at the first slash,
    question mark or hash sign. *)
Lemma netloc_ok (u n : string) :
  Url.netloc u = Ok n ->
  n = "" \/ exists a : string, n = Str.before ["/"; "?"; "#"]%char a.
Proof.
  unfold Url.netloc. cbv zeta.
  destruct (Str.startswith _ _); [|intros [= <-]; now left].
  destruct (xorb _ _); [discriminate|].
  destruct (_ && _).
  - destruct (Url._check_bracketed_netloc _) as [[]|y]; cbn; [|discriminate].
    intros [= <-]. right. eauto.
  - intros [= <-]. right. eauto.
Qed.

(** Where the authority has no user information and no bracketed
    address, the domain is the host. *)
Lemma get_domain_plain_host (u n : string) :
  Url.netloc u = Ok n ->
  Str.contains ["@"%char] n = false ->
  Str.contains ["["%char] n = false ->
  get_domain u = Url.host u.
Proof.
  intros Hn Hat Hbr. unfold get_domain, Url.host. rewrite Hn. cbn.
  unfold Url.host_of_netloc.
  rewrite after_last_absent by assumption.
  rewrite after_absent by assumption. reflexivity.
Qed.

End Domain.

(** C9. The claim asks for the host whatever else the authority holds. At
    a url with user information the code gives the user name, and at a
    bracketed address it gives the opening bracket; the host is neither. *)
Theorem get_domain_not_host :
  get_domain "http://user:pw@example.com:8080/health" = Ok "user" /\
  Url.host "http://user:pw@example.com:8080/health" = Ok "example.com" /\
  get_domain "http://[::1]:8080/health" = Ok "[" /\
  Url.host "http://[::1]:8080/health" = Ok "::1".
Proof. repeat split; reflexivity. Qed.

(** ** The probe *)

Section Probe.

Lemma Qltb_lt (a b : Q) : Qltb a b = true <-> (a < b)%Q.
Proof.
  unfold Qltb. rewrite negb_true_iff. split.
  - intros H. apply Qnot_le_lt. intros Hle.
    apply Qle_bool_iff in Hle. congruence.
  - intros H. destruct (Qle_bool b a) eqn:E; [|reflexivity].
    apply Qle_bool_iff in E. exfalso. eapply Qlt_not_le; eauto.
Qed.

(** No status code prints as the label of the errors. *)
Lemma str_not_error (n : Z) : str n <> "error".
Proof.
  unfold str. destruct (Z.to_int n) as [d|d]; destruct d; discriminate.
Qed.

Lemma counter_inc_same (k : Sink) (n c : string) :
  counter (inc n c k) n c = counter k n c + 1.
Proof. unfold counter at 1, inc. cbn. now rewrite lookup_insert_eq. Qed.

Lemma counter_inc_other (k : Sink) (n c n' c' : string) :
  (n, c) <> (n', c') -> counter (inc n c k) n' c' = counter k n' c'.
Proof.
  intros Hne. unfold counter at 1, inc. cbn.
  now rewrite lookup_insert_ne.
Qed.

Lemma counter_set_status (k : Sink) (n : string) (v : Z) (n' c' : string) :
  counter (set_status n v k) n' c' = counter k n' c'.
Proof. reflexivity. Qed.

Lemma counter_observe (k : Sink) (n : string) (t : Q) (n' c' : string) :
  counter (observe n t k) n' c' = counter k n' c'.
Proof. reflexivity. Qed.

(** The request of a probe, whatever the endpoint declares. *)
Lemma check_health_request (session : Session) (e : EndpointConfig)
    (threshold : Q) (k : Sink) :
  (check_health session e threshold k).1 = session_get (url e) 1.
Proof. reflexivity. Qed.

End Probe.

(** C2. The claim asks for the configured method, headers and body in the
    request. For an endpoint declared with method [post], a header and a
    body, the loader keeps all three (the method in upper case), and the
    request of the probe is a GET without headers and without a body, for
    any transport and any metrics. *)
Theorem check_health_ignores_method_headers_body :
  forall (session : Session) (k : Sink),
    let e := endpoint_of decl_post "conf/a.yaml" in
    let rq := (check_health session e response_time_threshold k).1 in
    EndpointConfig_init decl_post "conf/a.yaml" = Ok e /\
    method e = "POST" /\
    headers e = [("content-type", "application/json")] /\
    body e = Some "{}" /\
    rq_method rq = "GET" /\ rq_headers rq = [] /\ rq_body rq = None /\
    rq_url rq = url e.
Proof. intros session k. repeat split; reflexivity. Qed.

(** C3. A probe always returns a result and never raises. The result is UP
    exactly when the transport gave a response whose status is in 200..299
    and whose elapsed time is below the threshold; otherwise it is DOWN.
    When the transport raises, the result is DOWN, the gauge of the
    endpoint is 0, the counter of the endpoint under the label "error" grows
    by one and no counter under a numeric code changes. The threshold the
    cycle passes is one half. *)
Theorem check_health_classification :
  forall (session : Session) (e : EndpointConfig) (threshold : Q) (k : Sink),
    response_time_threshold == 1 # 2 /\
    exists (r : Result) (k' : Sink),
      (check_health session e threshold k).2 = Ok (r, k') /\
      (r = UP <->
       exists status elapsed_time,
         session (session_get (url e) 1) = Response status elapsed_time /\
         200 <= status < 300 /\ (elapsed_time < threshold)%Q) /\
      (r <> UP -> r = DOWN) /\
      (forall ex,
         session (session_get (url e) 1) = Fails ex ->
         r = DOWN /\
         STATUS k' !! name e = Some 0 /\
         counter k' (name e) "error" = counter k (name e) "error" + 1 /\
         forall status, counter k' (name e) (str status) = counter k (name e) (str status)).
Proof.
  intros session e threshold k. split; [reflexivity|].
  unfold check_health, check_health_try. cbn [fst snd].
  destruct (session (session_get (url e) 1)) as [status el|ex] eqn:Hs.
  - destruct ((200 <=? status)%Z && (status <? 300)%Z && Qltb el threshold) eqn:Hc.
    + eexists UP, _. split; [reflexivity|]. split; [|split].
      * split; [intros _|reflexivity]. exists status, el.
        apply andb_true_iff in Hc as [Hc Ht]. apply andb_true_iff in Hc as [H1 H2].
        apply Qltb_lt in Ht. split; [reflexivity|]. split; [lia|assumption].
      * congruence.
      * discriminate.
    + eexists DOWN, _. split; [reflexivity|]. split; [|split].
      * split; [discriminate|].
        intros (status' & el' & Heq & Hr & Ht). exfalso.
        injection Heq as <- <-. apply Qltb_lt in Ht.
        rewrite Ht in Hc.
        assert ((200 <=? status)%Z = true) as H1 by lia.
        assert ((status <? 300)%Z = true) as H2 by lia.
        rewrite H1, H2 in Hc. discriminate.
      * reflexivity.
      * discriminate.
  - eexists DOWN, _. split; [reflexivity|]. split; [|split].
    + split; [discriminate|]. intros (status & el & Heq & _). discriminate.
    + reflexivity.
    + intros ex' _. split; [reflexivity|]. split; [|split].
      * cbn. now rewrite lookup_insert_eq.
      * rewrite counter_inc_same. reflexivity.
      * intros status. rewrite counter_inc_other; [reflexivity|].
        intros Heq. injection Heq as Heq. symmetry in Heq.
        exact (str_not_error _ Heq).
Qed.

Lemma check_health_classification_witness :
  exists (r : Result) (k' : Sink),
    (check_health (fun _ => Fails TimeoutError) (endpoint_of decl_B "a.yaml")
                  response_time_threshold Sink_empty).2 = Ok (r, k') /\
    r = DOWN /\ counter k' "B" "error" = 1.
Proof.
  destruct (check_health_classification
              (fun _ => Fails TimeoutError) (endpoint_of decl_B "a.yaml")
              response_time_threshold Sink_empty)
    as [_ (r & k' & Hrun & _ & _ & Hfail)].
  exists r, k'. split; [exact Hrun|].
  destruct (Hfail TimeoutError eq_refl) as (Hr & _ & Hc & _).
  split; [exact Hr|exact Hc].
Defined.

(** ** The loader *)

Section Loader.

Implicit Types (self : ConfigLoader) (fs : FS) (fp n : string).

Lemma elem_of_decl_names (config_data : list Decl) n :
  n ∈ decl_names config_data <->
  exists ep, ep ∈ config_data /\ d_name ep = Some n.
Proof.
  unfold decl_names. rewrite elem_of_list_to_set, list_elem_of_omap.
  reflexivity.
Qed.

Lemma lookup_del_names (names : gset string) (eps : gmap string EndpointConfig) n :
  del_names names eps !! n = if decide (n ∈ names) then None else eps !! n.
Proof.
  unfold del_names.
  refine (set_fold_ind_L
            (fun r (X : gset string) =>
               r !! n = if decide (n ∈ X) then None else eps !! n)
            _ _ _ _ names).
  - destruct (decide (n ∈ (∅ : gset string))) as [Hin|_]; [|reflexivity].
    set_solver.
  - intros x X r Hx IH.
    destruct (decide (n = x)) as [->|Hne].
    + rewrite lookup_delete_eq.
      destruct (decide (x ∈ {[x]} ∪ X)) as [_|Hn]; [reflexivity|set_solver].
    + rewrite lookup_delete_ne by congruence. rewrite IH.
      destruct (decide (n ∈ X)), (decide (n ∈ {[x]} ∪ X)); try reflexivity;
        set_solver.
Qed.

Lemma EndpointConfig_init_ok (ep : Decl) fp (e : EndpointConfig) :
  EndpointConfig_init ep fp = Ok e ->
  d_name ep = Some (name e) /\
  d_url ep = Some (url e) /\
  method e = Str.upper (default "GET" (d_method ep)) /\
  headers e = default [] (d_headers ep) /\
  body e = d_body ep /\
  file_path e = Some fp /\
  stats e = mkStats 0 0.
Proof.
  unfold EndpointConfig_init.
  destruct (d_unknown ep); [discriminate|].
  destruct (d_name ep) as [n|]; [|discriminate].
  destruct (d_url ep) as [u|]; [|discriminate].
  destruct (get_domain u) as [d|x]; cbn; [|discriminate].
  intros [= <-]. cbn. repeat split; reflexivity.
Qed.

Lemma load_decls_spec fp (config_data : list Decl) :
  forall (eps : gmap string EndpointConfig) (cur : gset string) eps' cur',
    load_decls fp config_data eps cur = Ok (eps', cur') ->
    cur' = decl_names config_data ∪ cur /\
    (forall n, n ∈ decl_names config_data ->
               exists ep e, ep ∈ config_data /\ EndpointConfig_init ep fp = Ok e /\
                            name e = n /\ eps' !! n = Some e) /\
    (forall n, n ∉ decl_names config_data -> eps' !! n = eps !! n).
Proof.
  induction config_data as [|ep rest IH]; intros eps cur eps' cur' Hrun.
  - cbn in Hrun. injection Hrun as <- <-. split; [|split].
    + unfold decl_names. cbn. set_solver.
    + intros n Hn. apply elem_of_decl_names in Hn as (ep & Hin & _).
      inversion Hin.
    + reflexivity.
  - cbn [load_decls] in Hrun.
    destruct (EndpointConfig_init ep fp) as [e|x] eqn:He; [|discriminate].
    cbn in Hrun. apply IH in Hrun as (Hcur & Hin & Hout).
    pose proof (EndpointConfig_init_ok _ _ _ He) as (Hname & _).
    assert (Hnames : decl_names (ep :: rest) = {[name e]} ∪ decl_names rest).
    { unfold decl_names. cbn. rewrite Hname. cbn. reflexivity. }
    rewrite Hnames. split; [|split].
    + rewrite Hcur. set_solver.
    + intros n Hn.
      destruct (decide (n ∈ decl_names rest)) as [Hr|Hr].
      * destruct (Hin n Hr) as (ep' & e' & Hep' & H1 & H2 & H3).
        exists ep', e'. repeat split; try assumption. now right.
      * assert (n = name e) as -> by set_solver.
        exists ep, e. repeat split; try assumption; [now left|].
        rewrite Hout by assumption. apply lookup_insert_eq.
    + intros n Hn. rewrite Hout by set_solver.
      apply lookup_insert_ne. set_solver.
Qed.

(** What the constructor and the loop over the declarations raise is
    not what the handler of [_load_file] catches. *)
Lemma EndpointConfig_init_raise (ep : Decl) fp (x : exn) :
  EndpointConfig_init ep fp = Raise x -> x = TypeError \/ x = ValueError.
Proof.
  unfold EndpointConfig_init, get_domain.
  destruct (d_unknown ep); [intros [= <-]; now left|].
  destruct (d_name ep) as [n|]; [|intros [= <-]; now left].
  destruct (d_url ep) as [u|]; [|intros [= <-]; now left].
  destruct (Url.netloc u) as [d|y] eqn:E; cbn; [discriminate|].
  intros [= <-]. right. eapply netloc_raise; eauto.
Qed.

Lemma load_decls_raise fp (config_data : list Decl) :
  forall (eps : gmap string EndpointConfig) (cur : gset string) (x : exn),
    load_decls fp config_data eps cur = Raise x -> x = TypeError \/ x = ValueError.
Proof.
  induction config_data as [|ep rest IH]; intros eps cur x; [discriminate|].
  cbn [load_decls].
  destruct (EndpointConfig_init ep fp) as [e|y] eqn:He; cbn.
  - apply IH.
  - intros [= <-]. eapply EndpointConfig_init_raise; eauto.
Qed.

(** The three ways [_load_file] returns: the file is skipped, its
    endpoints are dropped, or it is read. *)
Lemma _load_file_cases fs self fp self' :
  _load_file fs self fp = Ok self' ->
  (exists t, os.getmtime fs fp = Ok t /\ mod_times self !! fp = Some t /\ self' = self)
  \/ (self' = _remove_file_endpoints self fp /\
      (fs !! fp = None \/ exists t, fs !! fp = Some (File t Malformed)))
  \/ (exists t config_data eps,
        fs !! fp = Some (File t (Parsed config_data)) /\
        mod_times self !! fp <> Some t /\
        load_decls fp config_data (endpoints self) ∅ = Ok (eps, decl_names config_data) /\
        self' = reloaded self fp t eps (decl_names config_data)).
Proof.
  unfold _load_file, _load_file_try, os.getmtime, safe_load.
  assert (Hrm : (match file_endpoints self !! fp with
                 | Some _ => Ok (_remove_file_endpoints self fp)
                 | None => Ok self
                 end) = Ok (_remove_file_endpoints self fp)).
  { unfold _remove_file_endpoints. now destruct (file_endpoints self !! fp). }
  destruct (fs !! fp) as [[t names|t c]|] eqn:Hfs; cbn.
  - destruct (decide (mod_times self !! fp = Some t)) as [Ht|Ht]; [|discriminate].
    intros [= <-]. left. eauto.
  - destruct (decide (mod_times self !! fp = Some t)) as [Ht|Ht].
    { intros [= <-]. left. eauto. }
    destruct c as [config_data| | |]; cbn; try discriminate.
    + destruct (load_decls fp config_data (endpoints self) ∅) as [[eps cur]|x] eqn:Hl;
        cbn; [|destruct (load_decls_raise _ _ _ _ _ Hl) as [->| ->]; discriminate].
      intros [= <-]. right. right.
      pose proof (load_decls_spec _ _ _ _ _ _ Hl) as (Hcur & _).
      assert (cur = decl_names config_data) as -> by set_solver.
      exists t, config_data, eps. repeat split; assumption.
    + rewrite Hrm. intros [= <-]. right. left. split; [reflexivity|]. right. eauto.
  - rewrite Hrm. intros [= <-]. right. left. split; [reflexivity|]. now left.
Qed.

(** Dropping the endpoints of a file leaves every endpoint alone whose
    name the file did not hold. *)
Lemma _remove_file_endpoints_other self fp n :
  (forall names, file_endpoints self !! fp = Some names -> n ∉ names) ->
  endpoints (_remove_file_endpoints self fp) !! n = endpoints self !! n.
Proof.
  intros H. unfold _remove_file_endpoints.
  destruct (file_endpoints self !! fp) as [names|]; [|reflexivity].
  cbn. rewrite lookup_del_names.
  destruct (decide (n ∈ names)) as [Hin|]; [|reflexivity].
  now apply H in Hin.
Qed.

Lemma _remove_file_endpoints_own self fp names n :
  file_endpoints self !! fp = Some names -> n ∈ names ->
  endpoints (_remove_file_endpoints self fp) !! n = None.
Proof.
  intros H Hin. unfold _remove_file_endpoints. rewrite H. cbn.
  rewrite lookup_del_names. now destruct (decide (n ∈ names)).
Qed.

(** The errors the handler catches: a file that is gone and a file that
    does not parse. The file's endpoints are dropped and the call
    returns. *)
Lemma _load_file_recovers fs self fp :
  (fs !! fp = None \/
   exists t, fs !! fp = Some (File t Malformed) /\ mod_times self !! fp <> Some t) ->
  _load_file fs self fp = Ok (_remove_file_endpoints self fp).
Proof.
  unfold _load_file, _load_file_try, os.getmtime, safe_load, _remove_file_endpoints.
  intros [->|(t & -> & Ht)]; cbn.
  - now destruct (file_endpoints self !! fp).
  - destruct (decide (mod_times self !! fp = Some t)); [contradiction|].
    cbn. now destruct (file_endpoints self !! fp).
Qed.

End Loader.

(** The example of the specification: after one cycle A is at 100, B at 0,
    and each domain has one probe. *)
Example spec_example_cycle :
  match monitor_endpoints "conf" conf_v1 [(conf_v1, session_A_up)] with
  | Ok (st, m) =>
      st = Running /\
      availability_percentage <$> endpoints (config_loader m) !! "A" = Some 100 /\
      availability_percentage <$> endpoints (config_loader m) !! "B" = Some 0 /\
      domain_stats m !! "svc1.example.com" = Some (mkStats 1 1) /\
      domain_stats m !! "svc2.example.com" = Some (mkStats 0 1) /\
      counter (sink m) "B" "error" = 1 /\
      counter (sink m) "A" "200" = 1
  | Raise _ => False
  end.
Proof. vm_compute. repeat split; reflexivity. Qed.

(** ** Reloading a file and the statistics of its endpoints *)

(** A file whose modification time is the recorded one is skipped: the
    loader, with the statistics in it, stays as it is. *)
Lemma _load_file_unchanged (fs : FS) (self : ConfigLoader) (fp : string) (t : Z) :
  os.getmtime fs fp = Ok t -> mod_times self !! fp = Some t ->
  _load_file fs self fp = Ok self.
Proof.
  intros Hm Ht. unfold _load_file, _load_file_try. rewrite Hm. cbn.
  destruct (decide (mod_times self !! fp = Some t)); [reflexivity|contradiction].
Qed.

(** C1, as stated, fails: after two cycles A has the counters 2 and 2;
    the file is written again with the same declarations, and after the
    reload the counters of A are 0 and 0. *)
Lemma reload_resets_stats :
  endpoint_stats loader_two_cycles "A" = Some (mkStats 2 2) /\
  _load_file conf_touched loader_two_cycles "conf/a.yaml"
    = Ok (loader_of (_load_file conf_touched loader_two_cycles "conf/a.yaml")) /\
  endpoint_stats (loader_of (_load_file conf_touched loader_two_cycles "conf/a.yaml")) "A"
    = Some (mkStats 0 0).
Proof. vm_compute. repeat split; reflexivity. Qed.

(** C1, amended. When a modified file is read, every name it declares maps
    afterwards to an endpoint built from a declaration of that name in the
    file: url, method (upper case, GET when absent), headers and body are
    those of the declaration, the endpoint belongs to the file, and its
    counters are both 0. *)
Theorem reload_replaces_endpoint
    (fs : FS) (self self' : ConfigLoader) (fp : string) (t : Z)
    (config_data : list Decl) (n : string) :
  fs !! fp = Some (File t (Parsed config_data)) ->
  mod_times self !! fp <> Some t ->
  _load_file fs self fp = Ok self' ->
  n ∈ decl_names config_data ->
  exists ep e',
    endpoints self' !! n = Some e' /\
    ep ∈ config_data /\ d_name ep = Some n /\
    name e' = n /\
    d_url ep = Some (url e') /\
    method e' = Str.upper (default "GET" (d_method ep)) /\
    headers e' = default [] (d_headers ep) /\
    body e' = d_body ep /\
    file_path e' = Some fp /\
    stats e' = mkStats 0 0.
Proof.
  intros Hfs Ht Hload Hn.
  apply _load_file_cases in Hload
    as [(t' & Hm & Ht' & _)|[(_ & [Hnone|(t' & Hmal)])|(t' & cd & eps & Hfs' & _ & Hl & ->)]].
  - unfold os.getmtime in Hm. rewrite Hfs in Hm. congruence.
  - congruence.
  - congruence.
  - assert (cd = config_data) as -> by congruence.
    pose proof (load_decls_spec _ _ _ _ _ _ Hl) as (_ & Hin & _).
    destruct (Hin n Hn) as (ep & e' & Hep & Hinit & Hname & Hlook).
    pose proof (EndpointConfig_init_ok _ _ _ Hinit) as (H1 & H2 & H3 & H4 & H5 & H6 & H7).
    exists ep, e'. repeat split; try assumption; [|congruence].
    unfold reloaded. cbn.
    destruct (file_endpoints self !! fp) as [old|]; [|assumption].
    rewrite lookup_del_names.
    destruct (decide (n ∈ old ∖ decl_names config_data)); [set_solver|assumption].
Qed.

Lemma reload_replaces_endpoint_witness :
  exists ep e',
    endpoints (loader_of (_load_file conf_touched loader_two_cycles "conf/a.yaml")) !! "A"
      = Some e' /\
    ep ∈ [decl_A; decl_B] /\ d_name ep = Some "A" /\
    name e' = "A" /\
    d_url ep = Some (url e') /\
    method e' = Str.upper (default "GET" (d_method ep)) /\
    headers e' = default [] (d_headers ep) /\
    body e' = d_body ep /\
    file_path e' = Some "conf/a.yaml" /\
    stats e' = mkStats 0 0.
Proof.
  apply (reload_replaces_endpoint conf_touched loader_two_cycles _ "conf/a.yaml" 20
                                  [decl_A; decl_B] "A").
  - reflexivity.
  - vm_compute. discriminate.
  - vm_compute. reflexivity.
  - refine (bool_decide_unpack _ _). vm_compute. exact I.
Defined.

(** ** Files that fail to load *)

(** C4. A declaration without a name makes the constructor raise a
    [TypeError], which the handler of [_load_file] does not catch: the
    refresh raises, and so does the loop, which runs no further cycle. A
    file that cannot be read does the same with a [PermissionError]. The
    handler recovers a file that is gone or does not parse
    ([_load_file_recovers]). *)
Theorem missing_name_aborts_refresh :
  refresh conf_missing_name loader_v1 = Raise TypeError /\
  monitor_endpoints "conf" conf_v1
    [(conf_v1, session_A_up); (conf_missing_name, session_A_up);
     (conf_v1, session_A_up)] = Raise TypeError /\
  refresh conf_unreadable loader_v1 = Raise PermissionError.
Proof. vm_compute. repeat split; reflexivity. Qed.

(** ** The tracking of names by file *)

Section Tracking.

Implicit Types (self : ConfigLoader) (fs : FS) (fp n : string).

Lemma elem_of_names_union self n :
  n ∈ names_union self <-> exists fp, attributed self n fp.
Proof.
  unfold names_union, attributed. rewrite elem_of_union_list. split.
  - intros (X & HX & Hn). apply list_elem_of_fmap in HX as ([fp Y] & -> & Hin).
    apply elem_of_map_to_list in Hin. eauto.
  - intros (fp & names & Hfp & Hn). exists names. split; [|assumption].
    apply list_elem_of_fmap. exists (fp, names). split; [reflexivity|].
    now apply elem_of_map_to_list.
Qed.

#[local] Instance attributed_dec self n fp : Decision (attributed self n fp).
Proof.
  unfold attributed. destruct (file_endpoints self !! fp) as [N|].
  - destruct (decide (n ∈ N)) as [Hin|Hout].
    + left. eauto.
    + right. intros (N' & [= <-] & Hn). contradiction.
  - right. intros (N' & HN & _). discriminate.
Defined.

Lemma tracked_inv self : tracked self -> tracking_inv self.
Proof.
  intros (Hdom & Hex & _). split; [|assumption].
  apply set_eq. intros n. rewrite elem_of_dom, elem_of_names_union. apply Hdom.
Qed.

Lemma tracked_empty p : tracked (loader_empty p).
Proof.
  split; [|split].
  - intros n. cbn. rewrite lookup_empty. split.
    + intros [e He]. discriminate.
    + intros (fp & names & H & _). cbn in H. rewrite lookup_empty in H. discriminate.
  - intros n fp fp' (names & H & _). cbn in H. rewrite lookup_empty in H. discriminate.
  - intros n e H. cbn in H. rewrite lookup_empty in H. discriminate.
Qed.

Lemma tracked_remove self fp :
  tracked self -> tracked (_remove_file_endpoints self fp).
Proof.
  intros (Hdom & Hex & Hkeys). unfold _remove_file_endpoints.
  destruct (file_endpoints self !! fp) as [names|] eqn:Hfp;
    [|split; [|split]; assumption].
  assert (Hattr : forall n fp',
             attributed {| path := path self;
                           endpoints := del_names names (endpoints self);
                           file_endpoints := delete fp (file_endpoints self);
                           mod_times := delete fp (mod_times self) |} n fp'
             <-> fp' <> fp /\ attributed self n fp').
  { intros n fp'. unfold attributed. cbn. split.
    - intros (N & HN & Hn). apply lookup_delete_Some in HN as [Hne HN]. eauto.
    - intros (Hne & N & HN & Hn). exists N. split; [|assumption].
      apply lookup_delete_Some. auto. }
  split; [|split].
  - intros n. cbn [endpoints]. rewrite lookup_del_names. split.
    + destruct (decide (n ∈ names)) as [Hin|Hout]; [intros [e He]; discriminate|].
      intros Hs. apply Hdom in Hs as (fp' & Ha). exists fp'. apply Hattr.
      split; [|assumption]. intros ->.
      destruct Ha as (N & HN & Hn). congruence.
    + intros (fp' & Ha). apply Hattr in Ha as (Hne & Ha).
      destruct (decide (n ∈ names)) as [Hin|Hout].
      * exfalso. apply Hne. apply (Hex n); [assumption|].
        exists names. auto.
      * apply Hdom. eauto.
  - intros n f1 f2 H1 H2. apply Hattr in H1 as [_ H1], H2 as [_ H2]. eauto.
  - intros n e. cbn [endpoints]. rewrite lookup_del_names.
    destruct (decide (n ∈ names)); [discriminate|]. apply Hkeys.
Qed.

Lemma tracked_reloaded self fp t (config_data : list Decl)
    (eps : gmap string EndpointConfig) :
  tracked self ->
  (forall fp' names, fp <> fp' -> file_endpoints self !! fp' = Some names ->
                     decl_names config_data ## names) ->
  load_decls fp config_data (endpoints self) ∅ = Ok (eps, decl_names config_data) ->
  tracked (reloaded self fp t eps (decl_names config_data)).
Proof.
  intros (Hdom & Hex & Hkeys) Hfree Hl.
  apply load_decls_spec in Hl as (_ & Hin & Hout).
  set (cur := decl_names config_data) in *.
  assert (Hattr : forall n fp',
             attributed (reloaded self fp t eps cur) n fp'
             <-> (fp' = fp /\ n ∈ cur) \/ (fp' <> fp /\ attributed self n fp')).
  { intros n fp'. unfold attributed, reloaded. cbn. split.
    - intros (N & HN & Hn). apply lookup_insert_Some in HN as [[-> ->]|[Hne HN]].
      + now left.
      + right. split; [congruence|eauto].
    - intros [[-> Hn]|(Hne & N & HN & Hn)].
      + exists cur. split; [apply lookup_insert_eq|assumption].
      + exists N. split; [|assumption]. rewrite lookup_insert_ne by congruence.
        assumption. }
  assert (Hlook : forall n,
             endpoints (reloaded self fp t eps cur) !! n =
             if decide (n ∈ cur) then eps !! n
             else if decide (attributed self n fp) then None
             else endpoints self !! n).
  { intros n. unfold reloaded. cbn [endpoints].
    destruct (file_endpoints self !! fp) as [old|] eqn:Hold.
    - rewrite lookup_del_names.
      destruct (decide (n ∈ cur)) as [Hc|Hc].
      + destruct (decide (n ∈ old ∖ cur)); [set_solver|reflexivity].
      + destruct (decide (n ∈ old ∖ cur)) as [Ho|Ho],
                 (decide (attributed self n fp)) as [Ha|Ha]; try reflexivity.
        * exfalso. apply Ha. exists old. split; [assumption|set_solver].
        * exfalso. destruct Ha as (N & HN & Hn).
          assert (N = old) as -> by congruence. set_solver.
        * now apply Hout.
    - destruct (decide (n ∈ cur)) as [Hc|Hc]; [reflexivity|].
      destruct (decide (attributed self n fp)) as [Ha|Ha].
      + destruct Ha as (N & HN & _). congruence.
      + now apply Hout. }
  split; [|split].
  - intros n. rewrite Hlook. split.
    + destruct (decide (n ∈ cur)) as [Hc|Hc].
      * intros _. exists fp. apply Hattr. now left.
      * destruct (decide (attributed self n fp)) as [Ha|Ha];
          [intros [e He]; discriminate|].
        intros Hs. apply Hdom in Hs as (fp' & Ha'). exists fp'. apply Hattr.
        right. split; [|assumption]. now intros ->.
    + intros (fp' & Ha). apply Hattr in Ha as [[-> Hc]|[Hne Ha]].
      * destruct (decide (n ∈ cur)) as [_|Hc']; [|contradiction].
        destruct (Hin n Hc) as (ep & e0 & _ & _ & _ & He). eauto.
      * destruct (decide (n ∈ cur)) as [Hc|Hc].
        -- destruct (Hin n Hc) as (ep & e0 & _ & _ & _ & He). eauto.
        -- destruct (decide (attributed self n fp)) as [Ha'|_].
           ++ exfalso. apply Hne. eauto.
           ++ apply Hdom. eauto.
  - intros n f1 f2 H1 H2.
    apply Hattr in H1 as [[-> Hc1]|[Hne1 H1]], H2 as [[-> Hc2]|[Hne2 H2]].
    + reflexivity.
    + exfalso. destruct H2 as (N & HN & Hn).
      assert (cur ## N) by (apply (Hfree f2); [congruence|assumption]).
      set_solver.
    + exfalso. destruct H1 as (N & HN & Hn).
      assert (cur ## N) by (apply (Hfree f1); [congruence|assumption]).
      set_solver.
    + eauto.
  - intros n e. rewrite Hlook.
    destruct (decide (n ∈ cur)) as [Hc|Hc].
    + destruct (Hin n Hc) as (ep & e0 & _ & _ & Hname & He). congruence.
    + destruct (decide (attributed self n fp)); [discriminate|]. apply Hkeys.
Qed.

End Tracking.

Section TrackingRuns.

Implicit Types (self : ConfigLoader) (fs : FS) (fp n : string).

(** What a load of [fp] leaves recorded: what was recorded before, or for
    [fp] the names it declares. *)
Lemma _load_file_recorded fs self fp self' fp' (names : gset string) :
  _load_file fs self fp = Ok self' ->
  file_endpoints self' !! fp' = Some names ->
  file_endpoints self !! fp' = Some names \/ (fp' = fp /\ names = declares fs fp).
Proof.
  intros Hload Hrec.
  apply _load_file_cases in Hload
    as [(t & _ & _ & ->)|[(-> & _)|(t & cd & eps & Hfs & _ & _ & ->)]].
  - now left.
  - left. unfold _remove_file_endpoints in Hrec.
    destruct (file_endpoints self !! fp); [|assumption].
    cbn in Hrec. now apply lookup_delete_Some in Hrec as [_ ?].
  - cbn in Hrec. apply lookup_insert_Some in Hrec as [[-> <-]|[_ ?]].
    + right. split; [reflexivity|]. unfold declares. now rewrite Hfs.
    + now left.
Qed.

Lemma tracked_load_file fs self fp self' :
  tracked self ->
  (forall fp' names, fp <> fp' -> file_endpoints self !! fp' = Some names ->
                     declares fs fp ## names) ->
  _load_file fs self fp = Ok self' ->
  tracked self'.
Proof.
  intros Htr Hfree Hload.
  apply _load_file_cases in Hload
    as [(t & _ & _ & ->)|[(-> & _)|(t & cd & eps & Hfs & _ & Hl & ->)]].
  - assumption.
  - now apply tracked_remove.
  - apply tracked_reloaded; [assumption| |assumption].
    intros fp' names Hne Hrec. specialize (Hfree fp' names Hne Hrec).
    unfold declares in Hfree. now rewrite Hfs in Hfree.
Qed.

Lemma good_load_file fs (srcs : list string) self fp self' :
  fp ∈ srcs -> good fs srcs self -> _load_file fs self fp = Ok self' ->
  good fs srcs self'.
Proof.
  intros Hfp [Htr [Hrec Hsrc]] Hload. split.
  - eapply tracked_load_file; eauto.
  - split; [|assumption].
    intros f f' names Hf Hne Hnames.
    destruct (_load_file_recorded _ _ _ _ _ _ Hload Hnames) as [Hold|[-> ->]].
    + eauto.
    + now apply Hsrc.
Qed.

Lemma good_refresh_file fs (srcs : list string) self fp self' :
  fp ∈ srcs -> good fs srcs self -> refresh_file fs self fp = Ok self' ->
  good fs srcs self'.
Proof.
  intros Hfp Hgood. unfold refresh_file.
  destruct (os.exists_ fs fp); [|now intros [= <-]].
  destruct (os.getmtime fs fp) as [t|x]; cbn; [|discriminate].
  destruct (decide (mod_times self !! fp = Some t)); [now intros [= <-]|].
  now apply good_load_file.
Qed.

Lemma good_for_each fs (srcs : list string)
    (body : ConfigLoader -> string -> res ConfigLoader) :
  (forall self fp self',
     fp ∈ srcs -> good fs srcs self -> body self fp = Ok self' -> good fs srcs self') ->
  forall (fps : list string) self self',
    fps ⊆ srcs -> good fs srcs self -> for_each body fps self = Ok self' ->
    good fs srcs self'.
Proof.
  intros Hbody fps. induction fps as [|fp rest IH]; intros self self' Hsub Hgood.
  - now intros [= <-].
  - cbn [for_each]. destruct (body self fp) as [s|x] eqn:Hb; cbn; [|discriminate].
    apply IH; [set_solver|]. eapply Hbody; eauto. set_solver.
Qed.

Lemma tracked_remove_gone (gone : string -> bool) self :
  tracked self -> tracked (remove_gone gone self).
Proof.
  unfold remove_gone. generalize (elements (dom (file_endpoints self))).
  intros l. revert self. induction l as [|fp l IH]; intros self Htr; [assumption|].
  cbn [foldl]. apply IH. destruct (gone fp); [now apply tracked_remove|assumption].
Qed.

Lemma tracked_refresh fs self self' :
  tracked self -> no_conflict fs (sources fs (path self)) self ->
  refresh fs self = Ok self' -> tracked self'.
Proof.
  intros Htr Hnc. unfold refresh.
  destruct (for_each _ _ self) as [s|x] eqn:Hfor; cbn; [|discriminate].
  intros [= <-]. apply tracked_remove_gone.
  eapply (good_for_each fs (sources fs (path self)) (refresh_file fs)) in Hfor
    as [? _]; try assumption.
  - intros ? ? ?. apply good_refresh_file.
  - reflexivity.
  - now split.
Qed.

Lemma tracked_load_configs fs self self' :
  tracked self -> no_conflict fs (sources fs (path self)) self ->
  load_configs fs self = Ok self' -> tracked self'.
Proof.
  intros Htr Hnc. unfold load_configs.
  destruct (for_each _ _ self) as [s|x] eqn:Hfor; cbn; [|discriminate].
  intros [= <-]. apply tracked_remove_gone.
  eapply (good_for_each fs (sources fs (path self)) (_load_file fs)) in Hfor
    as [? _]; try assumption.
  - intros ? ? ?. apply good_load_file.
  - reflexivity.
  - now split.
Qed.

(** Recording the results of a cycle changes the statistics of endpoints
    that are there; it adds no key and removes none. *)
Lemma record_all_keys (prs : list (EndpointConfig * Result)) :
  forall (eps : gmap string EndpointConfig) (ds : gmap string Stats),
    keys_named eps ->
    (forall e r, (e, r) ∈ prs -> is_Some (eps !! name e)) ->
    (forall n, is_Some ((record_all prs eps ds).1 !! n) <-> is_Some (eps !! n)) /\
    keys_named (record_all prs eps ds).1.
Proof.
  induction prs as [|[e r] rest IH]; intros eps ds Hkeys Hin; [now split|].
  cbn [record_all].
  assert (He : is_Some (eps !! name e)) by (apply (Hin e r); now left).
  assert (Hsame : forall n, is_Some (<[name e := update_stats e r]> eps !! n)
                            <-> is_Some (eps !! n)).
  { intros n. destruct (decide (n = name e)) as [->|Hne].
    - rewrite lookup_insert_eq. split; eauto.
    - now rewrite lookup_insert_ne by congruence. }
  destruct (IH (<[name e := update_stats e r]> eps) (record_domain (domain e) r ds))
    as [Hdom' Hkeys'].
  - intros n e' Hl. apply lookup_insert_Some in Hl as [[<- <-]|[_ Hl]].
    + reflexivity.
    + now apply Hkeys.
  - intros e' r' Hin'. apply Hsame. apply (Hin e' r'). now right.
  - split; [|assumption]. intros n. rewrite Hdom'. apply Hsame.
Qed.

Lemma tracked_set_endpoints self (eps : gmap string EndpointConfig) :
  tracked self ->
  (forall n, is_Some (eps !! n) <-> is_Some (endpoints self !! n)) ->
  keys_named eps ->
  tracked {| path := path self; endpoints := eps;
             file_endpoints := file_endpoints self; mod_times := mod_times self |}.
Proof.
  intros (Hdom & Hex & _) Hsame Hkeys. split; [|split].
  - intros n. cbn [endpoints]. rewrite Hsame. apply Hdom.
  - exact Hex.
  - exact Hkeys.
Qed.

Lemma tracked_cycle fs (session : Session) (m m' : Monitor) (st : LoopStatus) :
  tracked (config_loader m) ->
  no_conflict fs (sources fs (path (config_loader m))) (config_loader m) ->
  cycle fs session m = Ok (st, m') ->
  tracked (config_loader m').
Proof.
  intros Htr Hnc. unfold cycle.
  destruct (refresh fs (config_loader m)) as [cl|x] eqn:Hr; cbn; [|discriminate].
  pose proof (tracked_refresh _ _ _ Htr Hnc Hr) as Hcl.
  destruct ((map_to_list (endpoints cl)).*2) as [|e0 l] eqn:Heps.
  { now intros [= <- <-]. }
  rewrite <- Heps.
  destruct (probe_all _ _ _ _) as [p|x]; cbn; [|discriminate].
  destruct (report _) as [rep|x]; cbn; [|discriminate].
  intros [= <- <-]. cbn [config_loader].
  destruct (record_all_keys (zip (map_to_list (endpoints cl)).*2 p.1.1)
              (endpoints cl) (clean_domains (map_to_list (endpoints cl)).*2 (domain_stats m)))
    as [Hsame Hkeys].
  - apply Hcl.
  - intros e r Hin. apply elem_of_zip_l in Hin.
    apply list_elem_of_fmap in Hin as ([k e'] & -> & Hin).
    apply elem_of_map_to_list in Hin. cbn.
    destruct Hcl as (_ & _ & Hk). rewrite (Hk _ _ Hin). eauto.
  - now apply tracked_set_endpoints.
Qed.

End TrackingRuns.

Lemma no_conflict_bounded_iff (fs : FS) (srcs : list string) (self : ConfigLoader) :
  no_conflict_bounded fs srcs self <-> no_conflict fs srcs self.
Proof.
  unfold no_conflict_bounded, no_conflict. rewrite !Forall_forall.
  split; intros [H1 H2]; split.
  - intros fp fp' names Hfp Hne Hrec. exact (H1 fp Hfp fp' names Hrec Hne).
  - intros fp fp' Hfp Hfp' Hne.
    specialize (H2 fp Hfp). rewrite Forall_forall in H2. now apply H2.
  - intros fp Hfp fp' names Hrec Hne. eauto.
  - intros fp Hfp. rewrite Forall_forall. intros fp' Hfp' Hne. eauto.
Qed.

#[global] Instance no_conflict_dec (fs : FS) (srcs : list string) (self : ConfigLoader) :
  Decision (no_conflict fs srcs self).
Proof.
  refine (cast_if (decide (no_conflict_bounded fs srcs self)));
    abstract (rewrite <- no_conflict_bounded_iff; assumption).
Defined.

Lemma reachable_tracked (p : string) (m : Monitor) :
  reachable p m -> tracked (config_loader m).
Proof.
  induction 1 as [fs0 cl Hnc Hinit|fs session m m' st _ IH Hnc Hc].
  - cbn. eapply tracked_load_configs; [apply tracked_empty| |exact Hinit].
    exact Hnc.
  - eapply tracked_cycle; eauto.
Qed.

(** C5, as stated, fails where two files declare the same name. After the
    start on [conf_dup] the name A is recorded for both files. When
    [a.yaml] is deleted, the refresh removes the endpoint A, while A stays
    recorded for [b.yaml]: the endpoints have no key and the union of the
    name-sets holds A. *)
Lemma duplicate_name_breaks_tracking :
  ConfigLoader_init conf_dup "conf" = Ok loader_dup /\
  attributed loader_dup "A" "conf/a.yaml" /\
  attributed loader_dup "A" "conf/b.yaml" /\
  ~ tracking_inv loader_dup /\
  refresh conf_dup_deleted loader_dup = Ok loader_dup_deleted /\
  dom (endpoints loader_dup_deleted) = ∅ /\
  names_union loader_dup_deleted = {["A"]} /\
  ~ tracking_inv loader_dup_deleted.
Proof.
  assert (Ha : attributed loader_dup "A" "conf/a.yaml").
  { exists {["A"]}. split; [vm_compute; reflexivity|set_solver]. }
  assert (Hb : attributed loader_dup "A" "conf/b.yaml").
  { exists {["A"]}. split; [vm_compute; reflexivity|set_solver]. }
  assert (Hd : dom (endpoints loader_dup_deleted) = ∅) by (vm_compute; reflexivity).
  assert (Hu : names_union loader_dup_deleted = {["A"]}) by (vm_compute; reflexivity).
  split; [vm_compute; reflexivity|].
  split; [exact Ha|]. split; [exact Hb|].
  split; [intros [_ Hex]; specialize (Hex _ _ _ Ha Hb); discriminate|].
  split; [vm_compute; reflexivity|].
  split; [exact Hd|]. split; [exact Hu|].
  intros [Hdom _].
  assert (H : "A" ∈ names_union loader_dup_deleted).
  { rewrite Hu. now apply elem_of_singleton. }
  rewrite <- Hdom, Hd in H. now apply not_elem_of_empty in H.
Qed.

(** C5, amended. In every run in which no file declares a name that is
    recorded for, or declared by, another file, the invariant holds after
    the start and after every cycle, and after any further refresh of that
    kind: the union of the name-sets is the key-set of the endpoints, and
    each name is recorded for one file only. *)
Theorem tracking_inv_reachable (p : string) (m : Monitor) :
  reachable p m ->
  tracking_inv (config_loader m) /\
  (forall (fs : FS) (cl : ConfigLoader),
     no_conflict fs (sources fs (path (config_loader m))) (config_loader m) ->
     refresh fs (config_loader m) = Ok cl ->
     tracking_inv cl).
Proof.
  intros Hr. apply reachable_tracked in Hr. split.
  - now apply tracked_inv.
  - intros fs cl Hnc Href. apply tracked_inv. eapply tracked_refresh; eauto.
Qed.

Lemma tracking_inv_reachable_witness :
  tracking_inv
    (config_loader (monitor_of (cycle conf_acb session_A_up (monitor_start "conf" conf_ab)))).
Proof.
  refine (proj1 (tracking_inv_reachable "conf" _ _)).
  eapply (reach_cycle "conf" conf_acb session_A_up (monitor_start "conf" conf_ab) _ Running).
  - apply (reach_start "conf" conf_ab).
    + refine (bool_decide_unpack _ _). vm_compute. exact I.
    + vm_compute. reflexivity.
  - refine (bool_decide_unpack _ _). vm_compute. exact I.
  - vm_compute. reflexivity.
Defined.

(** ** Domain statistics *)

Section DomainStats.

Implicit Types (ds : gmap string Stats) (d : string).

Lemma elem_of_values (cl : ConfigLoader) (e : EndpointConfig) :
  e ∈ values cl <-> exists n, endpoints cl !! n = Some e.
Proof.
  unfold values. rewrite list_elem_of_fmap. split.
  - intros ([n e'] & -> & Hin). apply elem_of_map_to_list in Hin. eauto.
  - intros (n & Hn). exists (n, e). split; [reflexivity|].
    now apply elem_of_map_to_list.
Qed.

Lemma live_values (cl : ConfigLoader) d :
  live cl d <-> d ∈ domain <$> values cl.
Proof.
  unfold live. rewrite list_elem_of_fmap. split.
  - intros (n & e & Hn & <-). exists e. split; [reflexivity|].
    apply elem_of_values. eauto.
  - intros (e & -> & He). apply elem_of_values in He as (n & Hn). eauto.
Qed.

Lemma lookup_foldl_delete (l : list string) :
  forall ds d,
    foldl (fun m x => delete x m) ds l !! d = if decide (d ∈ l) then None else ds !! d.
Proof.
  induction l as [|x l IH]; intros ds d; cbn [foldl].
  - destruct (decide (d ∈ [])) as [Hin|_]; [inversion Hin|reflexivity].
  - rewrite IH.
    destruct (decide (d ∈ l)) as [Hl|Hl], (decide (d ∈ x :: l)) as [Hx|Hx];
      try reflexivity.
    + exfalso. apply Hx. now right.
    + apply elem_of_cons in Hx as [->|?]; [|contradiction].
      apply lookup_delete_eq.
    + apply lookup_delete_ne. intros ->. apply Hx. now left.
Qed.

(** [clean_domains] deletes the entries of the domains that are not
    active, and those only. *)
Lemma lookup_clean_domains (eps : list EndpointConfig) ds d :
  clean_domains eps ds !! d = if decide (d ∈ domain <$> eps) then ds !! d else None.
Proof.
  unfold clean_domains. rewrite lookup_foldl_delete.
  destruct (decide (d ∈ List.filter _ _)) as [Hin|Hout].
  - apply list_elem_of_In, filter_In in Hin as [_ Hact].
    apply bool_decide_eq_true in Hact. rewrite elem_of_list_to_set in Hact.
    now destruct (decide (d ∈ domain <$> eps)).
  - destruct (decide (d ∈ domain <$> eps)) as [Hact|Hact]; [reflexivity|].
    destruct (ds !! d) as [s|] eqn:Hd; [|reflexivity].
    exfalso. apply Hout. apply list_elem_of_In, filter_In. split.
    + apply list_elem_of_In, elem_of_elements, elem_of_dom. eauto.
    + apply bool_decide_eq_true. now rewrite elem_of_list_to_set.
Qed.

Lemma record_domain_lookup (d0 : string) (r : Result) ds d :
  record_domain d0 r ds !! d =
    if decide (d0 = d)
    then Some (Stats_update (default (mkStats 0 0) (ds !! d0)) r)
    else ds !! d.
Proof. unfold record_domain. apply lookup_insert. Qed.

Lemma Stats_update_grows (s : Stats) (r : Result) :
  up s <= up (Stats_update s r) /\ total (Stats_update s r) = total s + 1.
Proof. unfold Stats_update. destruct r; cbn; lia. Qed.

(** Recording never lowers a counter and creates entries with a total of
    one; a domain that gets a result has an entry whose total grew. *)
Lemma record_all_domain_stats (prs : list (EndpointConfig * Result)) :
  forall (eps : gmap string EndpointConfig) ds d,
    (forall s, ds !! d = Some s ->
               exists s', (record_all prs eps ds).2 !! d = Some s' /\
                          up s <= up s' /\ total s <= total s' /\
                          (d ∈ domain <$> prs.*1 -> total s < total s')) /\
    (ds !! d = None ->
     if decide (d ∈ domain <$> prs.*1)
     then exists s', (record_all prs eps ds).2 !! d = Some s' /\ 0 <= up s' /\ 1 <= total s'
     else (record_all prs eps ds).2 !! d = None).
Proof.
  induction prs as [|[e r] rest IH]; intros eps ds d.
  - cbn. split.
    + intros s Hs. exists s. repeat split; try lia; try assumption.
      intros Hin. inversion Hin.
    + intros Hn. destruct (decide (d ∈ [])) as [Hin|_]; [inversion Hin|assumption].
  - cbn [record_all].
    specialize (IH (<[name e := update_stats e r]> eps)
                   (record_domain (domain e) r ds) d) as [IHs IHn].
    rewrite record_domain_lookup in IHs, IHn.
    assert (Hcons : d ∈ domain <$> ((e, r) :: rest).*1 <->
                    domain e = d \/ d ∈ domain <$> rest.*1).
    { cbn. rewrite elem_of_cons. split; intros [?|?]; auto. }
    split.
    + intros s Hs. destruct (decide (domain e = d)) as [He|He].
      * subst d. rewrite Hs in IHs. cbn in IHs.
        destruct (IHs _ eq_refl) as (s' & Hs' & Hu & Ht & _).
        pose proof (Stats_update_grows s r) as [Hu0 Ht0].
        exists s'. repeat split; try assumption; lia.
      * destruct (IHs _ Hs) as (s' & Hs' & Hu & Ht & Hlt).
        exists s'. repeat split; try assumption.
        intros Hin. apply Hcons in Hin as [?|Hin]; [contradiction|auto].
    + intros Hn. destruct (decide (domain e = d)) as [He|He].
      * subst d. rewrite Hn in IHs. cbn in IHs.
        destruct (IHs _ eq_refl) as (s' & Hs' & Hu & Ht & _).
        destruct (decide (domain e ∈ domain <$> ((e, r) :: rest).*1)) as [_|Hout].
        -- exists s'. split; [assumption|].
           unfold Stats_update in Hu, Ht. destruct r; cbn in Hu, Ht; lia.
        -- exfalso. apply Hout, Hcons. now left.
      * specialize (IHn Hn).
        destruct (decide (d ∈ domain <$> rest.*1)) as [Hin|Hin],
                 (decide (d ∈ domain <$> ((e, r) :: rest).*1)) as [Hin'|Hin'];
          try assumption.
        -- exfalso. apply Hin', Hcons. now right.
        -- exfalso. apply Hcons in Hin' as [?|?]; contradiction.
Qed.

Lemma record_all_totals_positive (prs : list (EndpointConfig * Result)) :
  forall (eps : gmap string EndpointConfig) ds,
    totals_positive ds -> totals_positive (record_all prs eps ds).2.
Proof.
  induction prs as [|[e r] rest IH]; intros eps ds Hpos; [assumption|].
  cbn [record_all]. apply IH. intros d s. rewrite record_domain_lookup.
  destruct (decide (domain e = d)) as [_|_]; [|apply Hpos].
  intros [= <-].
  destruct (ds !! domain e) as [s0|] eqn:H0; cbn.
  - apply Hpos in H0. lia.
  - lia.
Qed.

Lemma clean_domains_totals_positive (eps : list EndpointConfig) ds :
  totals_positive ds -> totals_positive (clean_domains eps ds).
Proof.
  intros Hpos d s. rewrite lookup_clean_domains.
  destruct (decide (d ∈ domain <$> eps)); [apply Hpos|discriminate].
Qed.

Lemma check_health_returns (session : Session) (e : EndpointConfig)
    (threshold : Q) (k : Sink) :
  exists r k', (check_health session e threshold k).2 = Ok (r, k').
Proof.
  unfold check_health, check_health_try. cbn [fst snd].
  destruct (session _) as [status el|x]; [|eauto].
  destruct (_ && _); eauto.
Qed.

(** A probe returns, so the probes of a cycle return, one result for each
    endpoint. *)
Lemma probe_all_returns (session : Session) (eps : list EndpointConfig) :
  forall (k : Sink) (log : list Request),
    exists rs k' log',
      probe_all session eps k log = Ok (rs, k', log') /\ length rs = length eps.
Proof.
  induction eps as [|e rest IH]; intros k log; cbn [probe_all].
  - exists [], k, log. now split.
  - destruct (check_health_returns session e response_time_threshold k)
      as (r & k' & Hrun).
    rewrite Hrun. cbn.
    edestruct (IH k') as (rs & k'' & log' & Hrest & Hlen).
    rewrite Hrest. cbn.
    exists (r :: rs), k'', log'. split; [reflexivity|]. cbn. congruence.
Qed.

Lemma report_totals_positive (l : list (string * Stats)) :
  (forall d s, (d, s) ∈ l -> 1 <= total s) -> exists rep, report l = Ok rep.
Proof.
  induction l as [|[d s] rest IH]; intros Hpos; cbn [report]; [eauto|].
  unfold domain_availability.
  assert (1 <= total s) by (apply (Hpos d); now left).
  destruct (Z.eqb_spec (total s) 0) as [?|_]; [lia|]. cbn.
  destruct IH as [rep ->]; [intros; apply (Hpos d0); now right|].
  cbn. eauto.
Qed.

End DomainStats.

(** ** The cycle *)

Section Cycle.

Implicit Types (fs : FS) (session : Session) (m : Monitor).

(** The two ways a cycle returns: no endpoint after the refresh and the
    loop stops, or the domains are pruned, every endpoint is probed and
    the results are recorded on the pruned statistics. *)
Lemma cycle_cases fs session m (st : LoopStatus) (m' : Monitor) :
  cycle fs session m = Ok (st, m') ->
  exists cl,
    refresh fs (config_loader m) = Ok cl /\
    ((values cl = [] /\ st = Stopped /\ m' = stopped_monitor m cl) \/
     (values cl <> [] /\ st = Running /\
      exists rs k' log',
        probe_all session (values cl) (sink m) (requests m) = Ok (rs, k', log') /\
        length rs = length (values cl) /\
        domain_stats m' =
          (record_all (zip (values cl) rs) (endpoints cl)
                      (clean_domains (values cl) (domain_stats m))).2 /\
        sink m' = k' /\ requests m' = log')).
Proof.
  unfold cycle. fold (values (config_loader m)).
  destruct (refresh fs (config_loader m)) as [cl|x]; cbn; [|discriminate].
  fold (values cl). intros Hc. exists cl. split; [reflexivity|].
  destruct (values cl) as [|e0 l] eqn:Hv.
  - left. injection Hc as <- <-. now repeat split.
  - right. rewrite <- Hv in *.
    destruct (probe_all_returns session (values cl) (sink m) (requests m))
      as (rs & k' & log' & Hp & Hlen).
    rewrite Hp in Hc. cbn in Hc.
    destruct (report _) as [rep|x]; cbn in Hc; [|discriminate].
    injection Hc as <- <-. split; [rewrite Hv; discriminate|].
    split; [reflexivity|]. exists rs, k', log'. now repeat split.
Qed.

Lemma values_empty (cl : ConfigLoader) : endpoints cl = ∅ <-> values cl = [].
Proof.
  unfold values. split.
  - intros ->. now rewrite map_to_list_empty.
  - intros H. apply fmap_nil_inv in H. now apply map_to_list_empty_iff.
Qed.

Lemma cycle_totals_positive fs session m (st : LoopStatus) (m' : Monitor) :
  totals_positive (domain_stats m) ->
  cycle fs session m = Ok (st, m') ->
  totals_positive (domain_stats m').
Proof.
  intros Hpos Hc.
  apply cycle_cases in Hc
    as (cl & _ & [(_ & _ & ->)|(_ & _ & rs & k' & log' & _ & _ & -> & _)]).
  - exact Hpos.
  - now apply record_all_totals_positive, clean_domains_totals_positive.
Qed.

(** What the loader raises is no division by zero. *)
Lemma _load_file_raise fs (self : ConfigLoader) (fp : string) (x : exn) :
  _load_file fs self fp = Raise x -> x <> ZeroDivisionError.
Proof.
  unfold _load_file, _load_file_try, os.getmtime, safe_load.
  destruct (fs !! fp) as [[t names|t c]|]; cbn.
  - destruct (decide _); cbn; [discriminate|]. intros [= <-]. discriminate.
  - destruct (decide _); cbn; [discriminate|].
    destruct c as [config_data| | |]; cbn.
    + destruct (load_decls fp config_data (endpoints self) ∅) as [r|y] eqn:Hl; cbn;
        [discriminate|].
      destruct (load_decls_raise _ _ _ _ _ Hl) as [->| ->]; intros [= <-]; discriminate.
    + intros [= <-]. discriminate.
    + destruct (file_endpoints self !! fp); discriminate.
    + intros [= <-]. discriminate.
  - destruct (file_endpoints self !! fp); discriminate.
Qed.

Lemma refresh_file_raise fs (self : ConfigLoader) (fp : string) (x : exn) :
  refresh_file fs self fp = Raise x -> x <> ZeroDivisionError.
Proof.
  unfold refresh_file, os.exists_, os.getmtime.
  destruct (fs !! fp) as [[t names|t c]|] eqn:Hfs; cbn; try discriminate;
    (destruct (decide _); [discriminate|apply _load_file_raise]).
Qed.

Lemma for_each_raise (body : ConfigLoader -> string -> res ConfigLoader) :
  (forall self fp x, body self fp = Raise x -> x <> ZeroDivisionError) ->
  forall (fps : list string) (self : ConfigLoader) (x : exn),
    for_each body fps self = Raise x -> x <> ZeroDivisionError.
Proof.
  intros Hbody fps. induction fps as [|fp rest IH]; intros self x; [discriminate|].
  cbn [for_each]. destruct (body self fp) as [s|y] eqn:Hb; cbn.
  - apply IH.
  - intros [= <-]. eapply Hbody; eauto.
Qed.

Lemma refresh_raise fs (self : ConfigLoader) (x : exn) :
  refresh fs self = Raise x -> x <> ZeroDivisionError.
Proof.
  unfold refresh.
  destruct (for_each _ _ self) as [s|y] eqn:Hf; cbn; [discriminate|].
  intros [= <-]. eapply for_each_raise; [|exact Hf]. apply refresh_file_raise.
Qed.

Lemma load_configs_raise fs (self : ConfigLoader) (x : exn) :
  load_configs fs self = Raise x -> x <> ZeroDivisionError.
Proof.
  unfold load_configs.
  destruct (for_each _ _ self) as [s|y] eqn:Hf; cbn; [discriminate|].
  intros [= <-]. eapply for_each_raise; [|exact Hf]. apply _load_file_raise.
Qed.

(** With every total positive, the report of a cycle divides by no zero. *)
Lemma cycle_raise fs session m (x : exn) :
  totals_positive (domain_stats m) ->
  cycle fs session m = Raise x -> x <> ZeroDivisionError.
Proof.
  intros Hpos. unfold cycle. fold (values (config_loader m)).
  destruct (refresh fs (config_loader m)) as [cl|y] eqn:Hr; cbn.
  - fold (values cl). destruct (values cl) as [|e0 l] eqn:Hv; [discriminate|].
    rewrite <- Hv.
    destruct (probe_all_returns session (values cl) (sink m) (requests m))
      as (rs & k' & log' & -> & _).
    cbn.
    destruct (report_totals_positive
                (map_to_list (record_all (zip (values cl) rs) (endpoints cl)
                                (clean_domains (values cl) (domain_stats m))).2))
      as [rep ->].
    + intros d s Hin. apply elem_of_map_to_list in Hin. revert d s Hin.
      now apply record_all_totals_positive, clean_domains_totals_positive.
    + discriminate.
  - intros [= <-]. eapply refresh_raise; eauto.
Qed.

Lemma monitor_loop_totals_positive (turns : list (FS * Session)) :
  forall m,
    totals_positive (domain_stats m) ->
    (forall x, monitor_loop turns m = Raise x -> x <> ZeroDivisionError) /\
    (forall st m', monitor_loop turns m = Ok (st, m') ->
                   totals_positive (domain_stats m')).
Proof.
  induction turns as [|[fs session] rest IH]; intros m Hpos; cbn [monitor_loop].
  - split; [discriminate|]. now intros st m' [= <- <-].
  - destruct (cycle fs session m) as [[st1 m1]|y] eqn:Hc; cbn.
    + pose proof (cycle_totals_positive _ _ _ _ _ Hpos Hc) as Hpos1.
      destruct st1.
      * now apply IH.
      * split; [discriminate|]. now intros st m' [= <- <-].
    + split; [|discriminate]. intros x [= <-]. eapply cycle_raise; eauto.
Qed.

End Cycle.

(** The example of the specification: B is removed from the file, and the
    next cycle leaves no entry for the domain of B. *)
Example spec_example_prune :
  domain_stats monitor_one_cycle !! "svc2.example.com" = Some (mkStats 0 1) /\
  domain_stats (monitor_of (cycle conf_only_A session_A_up monitor_one_cycle))
    !! "svc2.example.com" = None /\
  domain_stats (monitor_of (cycle conf_only_A session_A_up monitor_one_cycle))
    !! "svc1.example.com" = Some (mkStats 2 2).
Proof. vm_compute. repeat split; reflexivity. Qed.

(** C7, as stated, fails at the turn that stops the loop. After one cycle
    the statistics hold an entry for the domains of A and of B. The
    configuration file is deleted; the next turn refreshes, finds no
    endpoint and leaves the loop before [clean_domains] is reached: no
    domain has a live endpoint, and both entries are still there. *)
Lemma stopping_turn_keeps_domains :
  domain_stats monitor_one_cycle !! "svc1.example.com" = Some (mkStats 1 1) /\
  cycle conf_none session_A_up monitor_one_cycle = Ok (Stopped, monitor_stopped) /\
  endpoints (config_loader monitor_stopped) = ∅ /\
  (forall d, ~ live (config_loader monitor_stopped) d) /\
  domain_stats monitor_stopped !! "svc1.example.com" = Some (mkStats 1 1) /\
  domain_stats monitor_stopped !! "svc2.example.com" = Some (mkStats 0 1).
Proof.
  assert (Hempty : endpoints (config_loader monitor_stopped) = ∅)
    by (vm_compute; reflexivity).
  split; [vm_compute; reflexivity|]. split; [vm_compute; reflexivity|].
  split; [exact Hempty|]. split.
  - intros d (n & e & Hn & _). rewrite Hempty in Hn. discriminate.
  - split; vm_compute; reflexivity.
Qed.

(** C7, amended. A turn stops the loop exactly when its refresh leaves no
    endpoint, and then the domain statistics stay as they were: nothing is
    pruned. In every other turn the results are recorded on the statistics
    pruned by [clean_domains] with the endpoints of this turn's refresh. A
    domain of none of these endpoints has no entry after the pruning and
    none after the cycle, whatever it had before. A domain of one of them
    keeps its entry through the pruning, and after the cycle it has an
    entry whose counters are those from before with this cycle's results
    added: [up] did not fall and [total] grew. *)
Theorem cycle_prunes_domains
    (fs : FS) (session : Session) (m m' : Monitor) (cl : ConfigLoader)
    (st : LoopStatus) :
  refresh fs (config_loader m) = Ok cl ->
  cycle fs session m = Ok (st, m') ->
  (st = Stopped <-> endpoints cl = ∅) /\
  (st = Stopped -> domain_stats m' = domain_stats m) /\
  (st = Running ->
   (exists rs,
      length rs = length (values cl) /\
      domain_stats m' =
        (record_all (zip (values cl) rs) (endpoints cl)
                    (clean_domains (values cl) (domain_stats m))).2) /\
   forall d,
     (~ live cl d ->
      clean_domains (values cl) (domain_stats m) !! d = None /\
      domain_stats m' !! d = None) /\
     (live cl d ->
      clean_domains (values cl) (domain_stats m) !! d = domain_stats m !! d /\
      exists s', domain_stats m' !! d = Some s' /\
                 forall s, domain_stats m !! d = Some s ->
                           up s <= up s' /\ total s < total s')).
Proof.
  intros Href Hc.
  apply cycle_cases in Hc
    as (cl' & Href' & [(Hv & -> & ->)|(Hv & -> & rs & k' & log' & _ & Hlen & Hds & _)]);
    assert (cl' = cl) as -> by congruence.
  { split; [|split].
    - split; [intros _; now apply values_empty|reflexivity].
    - reflexivity.
    - discriminate. }
  split; [|split; [discriminate|]].
  { split; [discriminate|]. intros He. apply values_empty in He. contradiction. }
  intros _. split; [eauto|]. intros d. rewrite Hds.
  pose proof (record_all_domain_stats (zip (values cl) rs) (endpoints cl)
                (clean_domains (values cl) (domain_stats m)) d) as [Hsome Hnone].
  rewrite fst_zip in Hsome, Hnone by lia.
  rewrite lookup_clean_domains in *. rewrite live_values.
  destruct (decide (d ∈ domain <$> values cl)) as [Hin|Hout].
  - split; [contradiction|]. intros _. split; [reflexivity|].
    destruct (domain_stats m !! d) as [s|] eqn:Hd.
    + destruct (Hsome s eq_refl) as (s' & Hs' & Hu & _ & Ht).
      exists s'. split; [assumption|]. intros s0 [= <-]. auto.
    + destruct (Hnone eq_refl) as (s' & Hs' & _). exists s'.
      split; [assumption|]. discriminate.
  - split; [|contradiction]. intros _. split; [reflexivity|]. now apply Hnone.
Qed.

Lemma cycle_prunes_domains_witness :
  domain_stats (monitor_of (cycle conf_only_A session_A_up monitor_one_cycle))
    !! "svc2.example.com" = None.
Proof.
  refine (proj2 (proj1 (proj2 (proj2 (proj2 (cycle_prunes_domains
            conf_only_A session_A_up monitor_one_cycle
            (monitor_of (cycle conf_only_A session_A_up monitor_one_cycle))
            (loader_of (refresh conf_only_A (config_loader monitor_one_cycle)))
            Running _ _)) eq_refl) "svc2.example.com") _)).
  - vm_compute. reflexivity.
  - vm_compute. reflexivity.
  - rewrite live_values. intros Hlive.
    apply (bool_decide_pack _) in Hlive. vm_compute in Hlive. exact Hlive.
Defined.

(** C8. When the refresh of a turn leaves no endpoint, the loop returns at
    once with the status [Stopped] and without an exception: the log of
    requests, the metrics and the domain statistics are those from before
    the turn, and the turns that would follow play no part. *)
Theorem empty_refresh_stops
    (fs : FS) (session : Session) (rest : list (FS * Session))
    (m : Monitor) (cl : ConfigLoader) :
  refresh fs (config_loader m) = Ok cl ->
  endpoints cl = ∅ ->
  monitor_loop ((fs, session) :: rest) m = Ok (Stopped, stopped_monitor m cl) /\
  requests (stopped_monitor m cl) = requests m /\
  sink (stopped_monitor m cl) = sink m /\
  domain_stats (stopped_monitor m cl) = domain_stats m.
Proof.
  intros Href Hempty. split; [|now repeat split].
  cbn [monitor_loop]. unfold cycle. rewrite Href. cbn.
  rewrite Hempty, map_to_list_empty. reflexivity.
Qed.

Lemma empty_refresh_stops_witness :
  monitor_loop [(conf_none, session_A_up); (conf_v1, session_A_up)] monitor_one_cycle
    = Ok (Stopped,
          stopped_monitor monitor_one_cycle
            (loader_of (refresh conf_none (config_loader monitor_one_cycle)))) /\
  requests (stopped_monitor monitor_one_cycle
              (loader_of (refresh conf_none (config_loader monitor_one_cycle))))
    = requests monitor_one_cycle.
Proof.
  destruct (empty_refresh_stops conf_none session_A_up [(conf_v1, session_A_up)]
              monitor_one_cycle
              (loader_of (refresh conf_none (config_loader monitor_one_cycle))))
    as (Hloop & Hreq & _).
  - vm_compute. reflexivity.
  - vm_compute. reflexivity.
  - split; [exact Hloop|exact Hreq].
Defined.

(** The example of the specification: with an empty configuration directory
    the start loads no endpoint and the first turn stops the loop without a
    request. *)
Example spec_example_empty_directory :
  match monitor_endpoints "conf" conf_none [(conf_none, session_A_up)] with
  | Ok (st, m) => st = Stopped /\ requests m = [] /\ endpoints (config_loader m) = ∅
  | Raise _ => False
  end.
Proof. vm_compute. repeat split; reflexivity. Qed.

(** C10. Whatever the file systems and the transports of a run are, every
    entry of the domain statistics of the monitor it reaches has a total of
    one at least, the report over these entries returns, and the run never
    raises a division by zero. *)
Theorem domain_totals_positive
    (p : string) (fs0 : FS) (turns : list (FS * Session)) :
  monitor_endpoints p fs0 turns <> Raise ZeroDivisionError /\
  forall st m,
    monitor_endpoints p fs0 turns = Ok (st, m) ->
    totals_positive (domain_stats m) /\
    exists rep, report (map_to_list (domain_stats m)) = Ok rep.
Proof.
  unfold monitor_endpoints, ConfigLoader_init.
  destruct (load_configs fs0 _) as [cl|x] eqn:Hinit; cbn.
  - set (m0 := {| config_loader := cl; domain_stats := ∅;
                  sink := Sink_empty; requests := [] |}).
    assert (Hpos0 : totals_positive (domain_stats m0)).
    { intros d s H. cbn in H. rewrite lookup_empty in H. discriminate. }
    destruct (monitor_loop_totals_positive turns m0 Hpos0) as [Hraise Hok].
    split.
    + intros H. now apply Hraise in H.
    + intros st m Hrun. pose proof (Hok _ _ Hrun) as Hpos. split; [exact Hpos|].
      apply report_totals_positive. intros d s Hin.
      apply elem_of_map_to_list in Hin. eauto.
  - split; [|discriminate]. intros [= ->].
    now apply load_configs_raise in Hinit.
Qed.

Lemma domain_totals_positive_witness :
  totals_positive (domain_stats monitor_one_cycle) /\
  exists rep, report (map_to_list (domain_stats monitor_one_cycle)) = Ok rep.
Proof.
  apply (proj2 (domain_totals_positive "conf" conf_v1 [(conf_v1, session_A_up)])
               Running monitor_one_cycle).
  vm_compute. reflexivity.
Defined.

(** * Further properties *)

(** ** Counters and availability *)

Section Counters.

Lemma nearest_even_bounds (n d r : Z) :
  0 < d -> 0 <= n <= 100 * d -> nearest_even n d r -> 0 <= r <= 100.
Proof.
  intros Hd Hn H.
  assert (Hle : 2 * Z.abs (n - r * d) <= d) by (destruct H as [?|[? _]]; lia).
  split; nia.
Qed.

Lemma availability_of_bounds (s : Stats) :
  counters_ok s -> 0 <= availability_of s <= 100.
Proof.
  unfold counters_ok, availability_of. intros Hs.
  destruct (Z.ltb_spec 0 (total s)) as [Ht|_]; [|lia].
  destruct (py_round_truediv (100 * up s) (total s) Ht ltac:(lia)) as (k & Hk & ->).
  apply rne_twice_bounds; [assumption| |lia].
  apply Z.pow_pos_nonneg; lia.
Qed.

Lemma availability_of_all_up (s : Stats) :
  0 < total s -> up s = total s -> availability_of s = 100.
Proof.
  unfold availability_of. intros Ht Hup.
  destruct (Z.ltb_spec 0 (total s)) as [_|]; [|lia].
  destruct (py_round_truediv (100 * up s) (total s) Ht ltac:(lia)) as (k & Hk & ->).
  assert (HP : 0 < 2 ^ k) by (apply Z.pow_pos_nonneg; lia).
  rewrite Hup.
  replace (100 * total s * 2 ^ k) with (100 * 2 ^ k * total s) by ring.
  rewrite rne_exact by assumption. now apply rne_exact.
Qed.

Lemma availability_of_none_up (s : Stats) :
  up s = 0 -> availability_of s = 0.
Proof.
  unfold availability_of. intros Hup.
  destruct (Z.ltb_spec 0 (total s)) as [Ht|_]; [|reflexivity].
  destruct (py_round_truediv (100 * up s) (total s) Ht ltac:(lia)) as (k & Hk & ->).
  assert (HP : 0 < 2 ^ k) by (apply Z.pow_pos_nonneg; lia).
  rewrite Hup.
  replace (100 * 0 * 2 ^ k) with (0 * total s) by ring.
  rewrite rne_exact by assumption.
  replace 0 with (0 * 2 ^ k) at 1 by ring. now apply rne_exact.
Qed.

Lemma Stats_update_ok (s : Stats) (r : Result) :
  counters_ok s -> counters_ok (Stats_update s r).
Proof. unfold counters_ok, Stats_update. destruct r; cbn; lia. Qed.

End Counters.

(** X1. With counters in order (0 <= up <= total) the availability of an
    endpoint is a percentage: between 0 and 100. It is 100 when all probes
    were UP and there was one at least, and 0 when none was UP. *)
Theorem availability_percentage_bounds (e : EndpointConfig) :
  counters_ok (stats e) ->
  0 <= availability_percentage e <= 100 /\
  (0 < total (stats e) -> up (stats e) = total (stats e) ->
   availability_percentage e = 100) /\
  (up (stats e) = 0 -> availability_percentage e = 0).
Proof.
  intros Hok. split; [now apply availability_of_bounds|]. split.
  - intros Ht Hup. now apply availability_of_all_up.
  - intros Hup. now apply availability_of_none_up.
Qed.

Lemma availability_percentage_bounds_witness :
  0 <= availability_percentage (with_counts (endpoint_of decl_A "a.yaml") 199 200) <= 100.
Proof.
  refine (proj1 (availability_percentage_bounds
                   (with_counts (endpoint_of decl_A "a.yaml") 199 200) _)).
  unfold counters_ok. cbn. lia.
Defined.

(** ** What every run keeps *)

Section RunInvariant.

Implicit Types (self : ConfigLoader) (fs : FS) (fp : string).

Lemma for_each_invariant (P : ConfigLoader -> Prop)
    (body : ConfigLoader -> string -> res ConfigLoader) :
  (forall self fp self', P self -> body self fp = Ok self' -> P self') ->
  forall (fps : list string) self self',
    P self -> for_each body fps self = Ok self' -> P self'.
Proof.
  intros Hbody fps. induction fps as [|fp rest IH]; intros self self' HP.
  - now intros [= <-].
  - cbn [for_each]. destruct (body self fp) as [s|x] eqn:Hb; cbn; [|discriminate].
    apply IH. eapply Hbody; eauto.
Qed.

Lemma remove_gone_invariant (P : ConfigLoader -> Prop) (gone : string -> bool) :
  (forall self fp, P self -> P (_remove_file_endpoints self fp)) ->
  forall self, P self -> P (remove_gone gone self).
Proof.
  intros Hrm self. unfold remove_gone.
  generalize (elements (dom (file_endpoints self))). intros l. revert self.
  induction l as [|fp l IH]; intros self HP; [assumption|].
  cbn [foldl]. apply IH. destruct (gone fp); auto.
Qed.

Lemma endpoints_ok_del_names (names : gset string) (eps : gmap string EndpointConfig) :
  endpoints_ok eps -> endpoints_ok (del_names names eps).
Proof.
  intros Hok n e. rewrite lookup_del_names.
  destruct (decide (n ∈ names)); [discriminate|apply Hok].
Qed.

Lemma endpoints_ok_remove self fp :
  endpoints_ok (endpoints self) ->
  endpoints_ok (endpoints (_remove_file_endpoints self fp)).
Proof.
  intros Hok. unfold _remove_file_endpoints.
  destruct (file_endpoints self !! fp); [|assumption].
  now apply endpoints_ok_del_names.
Qed.

Lemma endpoints_ok_load_decls fp (config_data : list Decl) :
  forall (eps : gmap string EndpointConfig) (cur : gset string) eps' cur',
    endpoints_ok eps ->
    load_decls fp config_data eps cur = Ok (eps', cur') ->
    endpoints_ok eps'.
Proof.
  induction config_data as [|ep rest IH]; intros eps cur eps' cur' Hok.
  - now intros [= <- <-].
  - cbn [load_decls].
    destruct (EndpointConfig_init ep fp) as [e|x] eqn:He; cbn; [|discriminate].
    apply IH. intros n e'. rewrite lookup_insert.
    destruct (decide (name e = n)) as [<-|_]; [|apply Hok].
    intros [= <-]. split; [reflexivity|].
    apply EndpointConfig_init_ok in He as (_ & _ & _ & _ & _ & _ & ->).
    unfold counters_ok. cbn. lia.
Qed.

Lemma endpoints_ok_load_file fs self fp self' :
  endpoints_ok (endpoints self) -> _load_file fs self fp = Ok self' ->
  endpoints_ok (endpoints self').
Proof.
  intros Hok Hload.
  apply _load_file_cases in Hload
    as [(t & _ & _ & ->)|[(-> & _)|(t & cd & eps & _ & _ & Hl & ->)]].
  - assumption.
  - now apply endpoints_ok_remove.
  - pose proof (endpoints_ok_load_decls _ _ _ _ _ _ Hok Hl) as Hok'.
    unfold reloaded. cbn [endpoints].
    destruct (file_endpoints self !! fp); [|assumption].
    now apply endpoints_ok_del_names.
Qed.

Lemma endpoints_ok_refresh_file fs self fp self' :
  endpoints_ok (endpoints self) -> refresh_file fs self fp = Ok self' ->
  endpoints_ok (endpoints self').
Proof.
  intros Hok. unfold refresh_file.
  destruct (os.exists_ fs fp); [|now intros [= <-]].
  destruct (os.getmtime fs fp) as [t|x]; cbn; [|discriminate].
  destruct (decide _); [now intros [= <-]|].
  now apply endpoints_ok_load_file.
Qed.

Lemma endpoints_ok_refresh fs self self' :
  endpoints_ok (endpoints self) -> refresh fs self = Ok self' ->
  endpoints_ok (endpoints self').
Proof.
  intros Hok. unfold refresh.
  destruct (for_each _ _ self) as [s|x] eqn:Hfor; cbn; [|discriminate].
  intros [= <-].
  apply (remove_gone_invariant (fun s => endpoints_ok (endpoints s)));
    [intros; now apply endpoints_ok_remove|].
  eapply (for_each_invariant (fun s => endpoints_ok (endpoints s))); eauto.
  intros ? ? ?. apply endpoints_ok_refresh_file.
Qed.

Lemma endpoints_ok_load_configs fs self self' :
  endpoints_ok (endpoints self) -> load_configs fs self = Ok self' ->
  endpoints_ok (endpoints self').
Proof.
  intros Hok. unfold load_configs.
  destruct (for_each _ _ self) as [s|x] eqn:Hfor; cbn; [|discriminate].
  intros [= <-].
  apply (remove_gone_invariant (fun s => endpoints_ok (endpoints s)));
    [intros; now apply endpoints_ok_remove|].
  eapply (for_each_invariant (fun s => endpoints_ok (endpoints s))); eauto.
  intros ? ? ?. apply endpoints_ok_load_file.
Qed.

Lemma record_all_ok (prs : list (EndpointConfig * Result)) :
  forall (eps : gmap string EndpointConfig) (ds : gmap string Stats),
    endpoints_ok eps -> domains_ok ds ->
    (forall e r, (e, r) ∈ prs -> counters_ok (stats e)) ->
    endpoints_ok (record_all prs eps ds).1 /\ domains_ok (record_all prs eps ds).2.
Proof.
  induction prs as [|[e r] rest IH]; intros eps ds Hok Hds Hprs; [now split|].
  cbn [record_all]. apply IH.
  - intros n e'. rewrite lookup_insert.
    destruct (decide (name e = n)) as [<-|_]; [|apply Hok].
    intros [= <-]. split; [reflexivity|]. cbn.
    apply Stats_update_ok. apply (Hprs e r). now left.
  - intros d s. rewrite record_domain_lookup.
    destruct (decide (domain e = d)) as [_|_]; [|apply Hds].
    intros [= <-]. apply Stats_update_ok.
    destruct (ds !! domain e) as [s0|] eqn:H0; cbn.
    + now apply Hds in H0.
    + unfold counters_ok. cbn. lia.
  - intros e' r' Hin. apply (Hprs e' r'). now right.
Qed.

Lemma domains_ok_clean (eps : list EndpointConfig) (ds : gmap string Stats) :
  domains_ok ds -> domains_ok (clean_domains eps ds).
Proof.
  intros Hok d s. rewrite lookup_clean_domains.
  destruct (decide _); [apply Hok|discriminate].
Qed.

Lemma monitor_ok_cycle fs (session : Session) (m m' : Monitor) (st : LoopStatus) :
  monitor_ok m -> cycle fs session m = Ok (st, m') -> monitor_ok m'.
Proof.
  intros [Hok Hds]. unfold cycle, monitor_ok.
  destruct (refresh fs (config_loader m)) as [cl|x] eqn:Hr; cbn; [|discriminate].
  pose proof (endpoints_ok_refresh _ _ _ Hok Hr) as Hcl.
  destruct ((map_to_list (endpoints cl)).*2) as [|e0 l] eqn:Heps.
  { intros [= <- <-]. now split. }
  rewrite <- Heps.
  destruct (probe_all _ _ _ _) as [p|x]; cbn; [|discriminate].
  destruct (report _) as [rep|x]; cbn; [|discriminate].
  intros [= <- <-]. cbn [config_loader endpoints domain_stats].
  apply record_all_ok; [assumption|now apply domains_ok_clean|].
  intros e r Hin. apply elem_of_zip_l in Hin.
  apply list_elem_of_fmap in Hin as ([k e'] & -> & Hin).
  apply elem_of_map_to_list in Hin. now apply Hcl in Hin.
Qed.

Lemma monitor_ok_loop (turns : list (FS * Session)) :
  forall m st m',
    monitor_ok m -> monitor_loop turns m = Ok (st, m') -> monitor_ok m'.
Proof.
  induction turns as [|[fs session] rest IH]; intros m st m' Hok; cbn [monitor_loop].
  - now intros [= <- <-].
  - destruct (cycle fs session m) as [[st1 m1]|x] eqn:Hc; cbn; [|discriminate].
    pose proof (monitor_ok_cycle _ _ _ _ _ Hok Hc) as Hok1.
    destruct st1; [now apply IH|now intros [= <- <-]].
Qed.

Lemma monitor_ok_run (p : string) (fs0 : FS) (turns : list (FS * Session))
    (st : LoopStatus) (m : Monitor) :
  monitor_endpoints p fs0 turns = Ok (st, m) -> monitor_ok m.
Proof.
  unfold monitor_endpoints, ConfigLoader_init.
  destruct (load_configs fs0 _) as [cl|x] eqn:Hinit; cbn; [|discriminate].
  apply monitor_ok_loop. split; cbn.
  - eapply endpoints_ok_load_configs; [|exact Hinit].
    intros n e H. cbn in H. rewrite lookup_empty in H. discriminate.
  - intros d s H. rewrite lookup_empty in H. discriminate.
Qed.

Lemma run_totals_positive (p : string) (fs0 : FS) (turns : list (FS * Session))
    (st : LoopStatus) (m : Monitor) :
  monitor_endpoints p fs0 turns = Ok (st, m) -> totals_positive (domain_stats m).
Proof.
  unfold monitor_endpoints, ConfigLoader_init.
  destruct (load_configs fs0 _) as [cl|x]; cbn; [|discriminate].
  apply monitor_loop_totals_positive.
  intros d s H. cbn in H. rewrite lookup_empty in H. discriminate.
Qed.

End RunInvariant.

(** X2. In every run, each endpoint of the mapping is stored under its own
    name: the key of an entry is the name of its endpoint. *)
Theorem endpoints_keyed_by_name
    (p : string) (fs0 : FS) (turns : list (FS * Session))
    (st : LoopStatus) (m : Monitor) :
  monitor_endpoints p fs0 turns = Ok (st, m) ->
  forall n e, endpoints (config_loader m) !! n = Some e -> name e = n.
Proof.
  intros Hrun n e He. apply monitor_ok_run in Hrun as [Hok _].
  now apply Hok in He.
Qed.

Lemma endpoints_keyed_by_name_witness :
  name (with_counts (endpoint_of decl_A "conf/a.yaml") 1 1) = "A".
Proof.
  apply (endpoints_keyed_by_name "conf" conf_v1 [(conf_v1, session_A_up)] Running
           monitor_one_cycle).
  - vm_compute. reflexivity.
  - vm_compute. reflexivity.
Defined.

(** X3. In every run the counters of every endpoint and of every domain
    are in order, 0 <= up <= total, and so every availability the monitor
    computes, for an endpoint or for a domain, is between 0 and 100. *)
Theorem run_counters_in_order
    (p : string) (fs0 : FS) (turns : list (FS * Session))
    (st : LoopStatus) (m : Monitor) :
  monitor_endpoints p fs0 turns = Ok (st, m) ->
  (forall n e, endpoints (config_loader m) !! n = Some e ->
               0 <= up (stats e) <= total (stats e) /\
               0 <= availability_percentage e <= 100) /\
  (forall d s, domain_stats m !! d = Some s ->
               0 <= up s <= total s /\
               exists a, domain_availability s = Ok a /\ 0 <= a <= 100).
Proof.
  intros Hrun.
  pose proof (run_totals_positive _ _ _ _ _ Hrun) as Hpos.
  apply monitor_ok_run in Hrun as [Hok Hds]. split.
  - intros n e He. apply Hok in He as [_ Hc]. split; [exact Hc|].
    now apply availability_of_bounds.
  - intros d s Hs. pose proof (Hds _ _ Hs) as Hc. split; [exact Hc|].
    apply Hpos in Hs. unfold domain_availability.
    destruct (Z.eqb_spec (total s) 0) as [?|_]; [lia|].
    eexists. split; [reflexivity|].
    pose proof (availability_of_bounds s Hc) as Hb. unfold availability_of in Hb.
    destruct (Z.ltb_spec 0 (total s)); [exact Hb|lia].
Qed.

Lemma run_counters_in_order_witness :
  0 <= up (mkStats 0 1) <= total (mkStats 0 1) /\
  exists a, domain_availability (mkStats 0 1) = Ok a /\ 0 <= a <= 100.
Proof.
  refine (proj2 (run_counters_in_order "conf" conf_v1 [(conf_v1, session_A_up)]
                   Running monitor_one_cycle _) "svc2.example.com" (mkStats 0 1) _).
  - vm_compute. reflexivity.
  - vm_compute. reflexivity.
Defined.

(** ** Probes and metrics *)

Section Probes.

Implicit Types (session : Session) (e : EndpointConfig) (k : Sink).

(** The result of a probe does not depend on the metrics it starts from. *)
Lemma check_health_result session e k :
  exists k', (check_health session e response_time_threshold k).2
             = Ok (probe_result session e, k').
Proof.
  unfold probe_result, check_health, check_health_try. cbn [fst snd].
  destruct (session _) as [status el|x]; [|eauto].
  destruct (_ && _); eauto.
Qed.

Lemma probe_all_results session (eps : list EndpointConfig) :
  forall k (log : list Request) rs k' log',
    probe_all session eps k log = Ok (rs, k', log') ->
    rs = probe_result session <$> eps /\
    log' = (log ++ ((fun e => session_get (url e) 1) <$> eps))%list.
Proof.
  induction eps as [|e rest IH]; intros k log rs k' log'; cbn [probe_all].
  - intros [= <- <- <-]. cbn. now rewrite app_nil_r.
  - destruct (check_health_result session e k) as (k1 & Hk1).
    rewrite Hk1. cbn [mbind res_bind snd fst].
    destruct (probe_all session rest k1 _) as [[[rs1 k2] log2]|x] eqn:Hrest;
      cbn; [|discriminate].
    intros [= <- <- <-]. apply IH in Hrest as [-> ->]. split; [reflexivity|].
    cbn. now rewrite <- app_assoc.
Qed.

End Probes.

(** X4. What one probe does to the metrics. The gauge of the endpoint is
    set to 1 for UP and to 0 for DOWN; exactly one status-code counter
    grows, by one: the one of the endpoint under the decimal status code of
    the response, or under [error] when the transport raised; and one
    response time is observed for a response, none for an exception. *)
Theorem check_health_metrics
    (session : Session) (e : EndpointConfig) (threshold : Q) (k : Sink) :
  exists r k',
    (check_health session e threshold k).2 = Ok (r, k') /\
    STATUS k' = <[name e := if Result_eqb r UP then 1 else 0]> (STATUS k) /\
    (forall n c,
       counter k' n c =
       counter k n c +
       if decide ((name e, probe_label session e) = (n, c)) then 1 else 0) /\
    RESPONSE_TIME k' =
      (RESPONSE_TIME k ++
       match session (session_get (url e) 1) with
       | Response _ t => [(name e, t)]
       | Fails _ => []
       end)%list.
Proof.
  assert (Hinc : forall k0 lbl n c,
             counter (inc (name e) lbl k0) n c =
             counter k0 n c + if decide ((name e, lbl) = (n, c)) then 1 else 0).
  { intros k0 lbl n c. destruct (decide ((name e, lbl) = (n, c))) as [[= <- <-]|Hne].
    - apply counter_inc_same.
    - rewrite counter_inc_other by assumption. lia. }
  unfold check_health, check_health_try, probe_label. cbn [fst snd].
  destruct (session (session_get (url e) 1)) as [status el|x].
  - destruct (_ && _).
    + eexists UP, _. split; [reflexivity|]. split; [reflexivity|].
      split; [|reflexivity]. intros n c. rewrite counter_set_status, Hinc.
      reflexivity.
    + eexists DOWN, _. split; [reflexivity|]. split; [reflexivity|].
      split; [|reflexivity]. intros n c. rewrite counter_set_status, Hinc.
      reflexivity.
  - eexists DOWN, _. split; [reflexivity|]. split; [reflexivity|].
    split; [|cbn; now rewrite app_nil_r]. intros n c. rewrite Hinc.
    reflexivity.
Qed.

(** X5. The probes of a cycle issue one request for each endpoint, in the
    order of the endpoints, each a GET of the url of its endpoint with a
    timeout of one second, and give back one result for each endpoint: the
    result of its own probe. *)
Theorem probe_all_one_request_each
    (session : Session) (eps : list EndpointConfig)
    (k k' : Sink) (log log' : list Request) (rs : list Result) :
  probe_all session eps k log = Ok (rs, k', log') ->
  rs = probe_result session <$> eps /\
  log' = (log ++ ((fun e => session_get (url e) 1) <$> eps))%list /\
  length log' = (length log + length eps)%nat.
Proof.
  intros H. apply probe_all_results in H as [-> ->].
  repeat split. rewrite length_app, length_fmap. reflexivity.
Qed.

Lemma probe_all_one_request_each_witness :
  [UP; DOWN] = probe_result session_A_up <$>
                 [endpoint_of decl_A "a.yaml"; endpoint_of decl_B "a.yaml"].
Proof.
  refine (proj1 (probe_all_one_request_each session_A_up
                   [endpoint_of decl_A "a.yaml"; endpoint_of decl_B "a.yaml"]
                   Sink_empty _ [] _ [UP; DOWN] _)).
  vm_compute. reflexivity.
Defined.

(** ** What a cycle records *)

Section Recording.

Implicit Types (fs : FS) (session : Session) (m : Monitor).

(** The loader a probing cycle leaves: the refreshed loader with the
    results recorded in its endpoints. *)
Lemma cycle_running_loader fs session m (m' : Monitor) :
  cycle fs session m = Ok (Running, m') ->
  exists cl,
    refresh fs (config_loader m) = Ok cl /\
    values cl <> [] /\
    config_loader m' =
      set_endpoints cl
        (record_all (zip (values cl) (probe_result session <$> values cl))
                    (endpoints cl)
                    (clean_domains (values cl) (domain_stats m))).1 /\
    domain_stats m' =
      (record_all (zip (values cl) (probe_result session <$> values cl))
                  (endpoints cl)
                  (clean_domains (values cl) (domain_stats m))).2 /\
    requests m' = (requests m ++ ((fun e => session_get (url e) 1) <$> values cl))%list.
Proof.
  unfold cycle. fold (values (config_loader m)).
  destruct (refresh fs (config_loader m)) as [cl|x]; cbn; [|discriminate].
  fold (values cl). intros Hc. exists cl. split; [reflexivity|].
  destruct (values cl) as [|e0 l] eqn:Hv; [discriminate|].
  rewrite <- Hv in *.
  destruct (probe_all session (values cl) (sink m) (requests m))
    as [[[rs k'] log']|x] eqn:Hp; cbn in Hc; [|discriminate].
  apply probe_all_results in Hp as [-> ->].
  destruct (report _) as [rep|x]; cbn in Hc; [|discriminate].
  injection Hc as <-. split; [rewrite Hv; discriminate|]. now repeat split.
Qed.

Lemma zip_fmap_self {A B : Type} (f : A -> B) (l : list A) :
  zip l (f <$> l) = (fun x => (x, f x)) <$> l.
Proof. induction l as [|x l IH]; cbn; [reflexivity|now rewrite IH]. Qed.

Lemma record_all_lookup (f : EndpointConfig -> Result) (l : list EndpointConfig) :
  forall (eps : gmap string EndpointConfig) (ds : gmap string Stats) (n : string),
    NoDup (name <$> l) ->
    (forall e, e ∈ l -> name e = n ->
               (record_all (zip l (f <$> l)) eps ds).1 !! n
               = Some (update_stats e (f e))) /\
    (n ∉ name <$> l -> (record_all (zip l (f <$> l)) eps ds).1 !! n = eps !! n).
Proof.
  induction l as [|e0 rest IH]; intros eps ds n Hnd.
  - split; [intros e He; inversion He|reflexivity].
  - cbn [fmap list_fmap zip zip_with record_all].
    cbn in Hnd. apply NoDup_cons in Hnd as [Hfresh Hnd].
    destruct (IH (<[name e0 := update_stats e0 (f e0)]> eps)
                 (record_domain (domain e0) (f e0) ds) n Hnd) as [IHin IHout].
    split.
    + intros e He Hn. apply elem_of_cons in He as [->|He].
      * subst n. rewrite IHout by assumption. apply lookup_insert_eq.
      * now apply IHin.
    + intros Hn. apply not_elem_of_cons in Hn as [Hne Hn].
      rewrite IHout by assumption. now apply lookup_insert_ne.
Qed.

Lemma names_of_values (cl : ConfigLoader) :
  keys_named (endpoints cl) ->
  name <$> values cl = (map_to_list (endpoints cl)).*1.
Proof.
  intros Hk. unfold values.
  assert (H : forall ke, ke ∈ map_to_list (endpoints cl) -> name ke.2 = ke.1).
  { intros [k e] Hin. apply elem_of_map_to_list in Hin. cbn. now apply Hk. }
  induction (map_to_list (endpoints cl)) as [|[k e] l IH]; [reflexivity|].
  cbn. f_equal.
  - apply (H (k, e)). now left.
  - apply IH. intros ke Hin. apply H. now right.
Qed.

Lemma record_all_domain_counters (prs : list (EndpointConfig * Result)) :
  forall (eps : gmap string EndpointConfig) (ds : gmap string Stats) (d : string),
    total (domain_counters (record_all prs eps ds).2 d)
      = total (domain_counters ds d) + probes_of d prs /\
    up (domain_counters (record_all prs eps ds).2 d)
      = up (domain_counters ds d) + ups_of d prs.
Proof.
  induction prs as [|[e r] rest IH]; intros eps ds d.
  - unfold probes_of, ups_of. cbn. lia.
  - cbn [record_all].
    destruct (IH (<[name e := update_stats e r]> eps)
                 (record_domain (domain e) r ds) d) as [-> ->].
    unfold probes_of, ups_of, domain_counters. cbn [List.filter fst snd].
    rewrite record_domain_lookup.
    destruct (decide (domain e = d)) as [->|Hne].
    + rewrite bool_decide_eq_true_2 by reflexivity. cbn [andb default].
      destruct r; cbn [Result_eqb length]; unfold id, Stats_update;
        cbn [up total Result_eqb]; lia.
    + rewrite bool_decide_eq_false_2 by assumption. cbn [andb]. lia.
Qed.

Lemma keys_named_remove (self : ConfigLoader) (fp : string) :
  keys_named (endpoints self) ->
  keys_named (endpoints (_remove_file_endpoints self fp)).
Proof.
  intros Hk n e. unfold _remove_file_endpoints.
  destruct (file_endpoints self !! fp); [|apply Hk].
  cbn. rewrite lookup_del_names. destruct (decide _); [discriminate|apply Hk].
Qed.

Lemma keys_named_load_file fs (self self' : ConfigLoader) (fp : string) :
  keys_named (endpoints self) -> _load_file fs self fp = Ok self' ->
  keys_named (endpoints self').
Proof.
  intros Hk Hload.
  apply _load_file_cases in Hload
    as [(t & _ & _ & ->)|[(-> & _)|(t & cd & eps & _ & _ & Hl & ->)]].
  - assumption.
  - now apply keys_named_remove.
  - apply load_decls_spec in Hl as (_ & Hin & Hout).
    assert (Heps : keys_named eps).
    { intros n e He. destruct (decide (n ∈ decl_names cd)) as [Hn|Hn].
      - destruct (Hin n Hn) as (ep & e0 & _ & _ & Hname & He0). congruence.
      - rewrite Hout in He by assumption. now apply Hk. }
    intros n e. unfold reloaded. cbn [endpoints].
    destruct (file_endpoints self !! fp); [|apply Heps].
    rewrite lookup_del_names. destruct (decide _); [discriminate|apply Heps].
Qed.

Lemma keys_named_refresh fs (self self' : ConfigLoader) :
  keys_named (endpoints self) -> refresh fs self = Ok self' ->
  keys_named (endpoints self').
Proof.
  intros Hk. unfold refresh.
  destruct (for_each _ _ self) as [s|x] eqn:Hfor; cbn; [|discriminate].
  intros [= <-].
  apply (remove_gone_invariant (fun s => keys_named (endpoints s)));
    [intros; now apply keys_named_remove|].
  eapply (for_each_invariant (fun s => keys_named (endpoints s))); eauto.
  clear. intros self fp self' Hk. unfold refresh_file.
  destruct (os.exists_ fs fp); [|now intros [= <-]].
  destruct (os.getmtime fs fp) as [t|x]; cbn; [|discriminate].
  destruct (decide _); [now intros [= <-]|].
  now apply keys_named_load_file.
Qed.

Lemma monitor_loop_stopped (turns : list (FS * Session)) :
  forall m m',
    monitor_loop turns m = Ok (Stopped, m') -> endpoints (config_loader m') = ∅.
Proof.
  induction turns as [|[fs session] rest IH]; intros m m'; cbn [monitor_loop];
    [discriminate|].
  destruct (cycle fs session m) as [[st1 m1]|x] eqn:Hc; cbn; [|discriminate].
  destruct st1; [apply IH|].
  intros [= <-].
  apply cycle_cases in Hc as (cl & _ & [(Hv & _ & ->)|(_ & [=] & _)]).
  cbn. now apply values_empty.
Qed.

End Recording.

(** X6. A probing cycle records for every endpoint the result of its own
    probe, once: in a loader whose endpoints are stored under their names
    (as they are in every run), the endpoints after the cycle are those the
    refresh left, each with its total one higher and its up one higher
    exactly when its probe was UP; no endpoint is added or removed, and the
    tracking of files and modification times is that of the refresh. *)
Theorem cycle_records_each_endpoint
    (fs : FS) (session : Session) (m m' : Monitor) (cl : ConfigLoader) :
  keys_named (endpoints (config_loader m)) ->
  refresh fs (config_loader m) = Ok cl ->
  cycle fs session m = Ok (Running, m') ->
  (forall n,
     endpoints (config_loader m') !! n =
     (fun e => update_stats e (probe_result session e)) <$> endpoints cl !! n) /\
  file_endpoints (config_loader m') = file_endpoints cl /\
  mod_times (config_loader m') = mod_times cl.
Proof.
  intros Hk Href Hc.
  apply cycle_running_loader in Hc as (cl' & Href' & _ & -> & _).
  assert (cl' = cl) as -> by congruence.
  split; [|now split]. intros n. cbn [set_endpoints endpoints].
  pose proof (keys_named_refresh _ _ _ Hk Href) as Hkcl.
  pose proof (record_all_lookup (probe_result session) (values cl) (endpoints cl)
                (clean_domains (values cl) (domain_stats m)) n) as [Hin Hout].
  { rewrite names_of_values by assumption. apply NoDup_fst_map_to_list. }
  destruct (endpoints cl !! n) as [e|] eqn:He; cbn.
  - apply Hin; [|now apply Hkcl]. apply elem_of_values. eauto.
  - rewrite Hout; [reflexivity|]. intros Hn.
    apply list_elem_of_fmap in Hn as (e & -> & Hv).
    apply elem_of_values in Hv as (k & Hk').
    rewrite <- (Hkcl _ _ Hk') in Hk'. congruence.
Qed.

Lemma cycle_records_each_endpoint_witness :
  endpoints (config_loader (monitor_of (cycle conf_v1 session_A_up monitor_one_cycle))) !! "B" =
  (fun e => update_stats e (probe_result session_A_up e))
    <$> endpoints (loader_of (refresh conf_v1 (config_loader monitor_one_cycle))) !! "B".
Proof.
  refine (proj1 (cycle_records_each_endpoint conf_v1 session_A_up monitor_one_cycle
                   (monitor_of (cycle conf_v1 session_A_up monitor_one_cycle))
                   (loader_of (refresh conf_v1 (config_loader monitor_one_cycle)))
                   _ _ _) "B").
  - intros n e He.
    refine (proj1 (proj1 (monitor_ok_run "conf" conf_v1 [(conf_v1, session_A_up)]
                            Running monitor_one_cycle _) n e He)).
    vm_compute. reflexivity.
  - vm_compute. reflexivity.
  - vm_compute. reflexivity.
Defined.

(** X7. A probing cycle adds to the counters of every active domain the
    results of all the endpoints of that domain: its total grows by the
    number of endpoints the refresh left in the domain, which is one at
    least, and its up by the number of those whose probe was UP. The
    counters it adds to are those from before the cycle (zero when the
    domain had no entry). *)
Theorem cycle_aggregates_domain
    (fs : FS) (session : Session) (m m' : Monitor) (cl : ConfigLoader) (d : string) :
  refresh fs (config_loader m) = Ok cl ->
  cycle fs session m = Ok (Running, m') ->
  live cl d ->
  total (domain_counters (domain_stats m') d)
    = total (domain_counters (domain_stats m) d)
      + probes_of d ((fun e => (e, probe_result session e)) <$> values cl) /\
  up (domain_counters (domain_stats m') d)
    = up (domain_counters (domain_stats m) d)
      + ups_of d ((fun e => (e, probe_result session e)) <$> values cl) /\
  1 <= probes_of d ((fun e => (e, probe_result session e)) <$> values cl).
Proof.
  intros Href Hc Hlive.
  apply cycle_running_loader in Hc as (cl' & Href' & _ & _ & -> & _).
  assert (cl' = cl) as -> by congruence.
  rewrite zip_fmap_self.
  destruct (record_all_domain_counters
              ((fun e => (e, probe_result session e)) <$> values cl)
              (endpoints cl) (clean_domains (values cl) (domain_stats m)) d)
    as [-> ->].
  assert (Hkeep : domain_counters (clean_domains (values cl) (domain_stats m)) d
                  = domain_counters (domain_stats m) d).
  { unfold domain_counters. rewrite lookup_clean_domains.
    apply live_values in Hlive. now destruct (decide _). }
  rewrite Hkeep. split; [reflexivity|]. split; [reflexivity|].
  destruct Hlive as (n & e & He & Hd).
  assert (Hin : In (e, probe_result session e)
                   (List.filter (fun pr => bool_decide (domain pr.1 = d))
                      ((fun e => (e, probe_result session e)) <$> values cl))).
  { apply filter_In. split.
    - apply list_elem_of_In, list_elem_of_fmap. exists e. split; [reflexivity|].
      apply elem_of_values. eauto.
    - now apply bool_decide_eq_true. }
  unfold probes_of.
  destruct (List.filter _ _) as [|x l]; [inversion Hin|]. cbn [length]. lia.
Qed.

Lemma cycle_aggregates_domain_witness :
  total (domain_counters
           (domain_stats (monitor_of (cycle conf_v1 session_A_up monitor_one_cycle)))
           "svc1.example.com")
  = total (domain_counters (domain_stats monitor_one_cycle) "svc1.example.com")
    + probes_of "svc1.example.com"
        ((fun e => (e, probe_result session_A_up e))
           <$> values (loader_of (refresh conf_v1 (config_loader monitor_one_cycle)))).
Proof.
  refine (proj1 (cycle_aggregates_domain conf_v1 session_A_up monitor_one_cycle
                   (monitor_of (cycle conf_v1 session_A_up monitor_one_cycle))
                   (loader_of (refresh conf_v1 (config_loader monitor_one_cycle)))
                   "svc1.example.com" _ _ _)).
  - vm_compute. reflexivity.
  - vm_compute. reflexivity.
  - exists "A", (with_counts (endpoint_of decl_A "conf/a.yaml") 1 1).
    split; vm_compute; reflexivity.
Defined.

(** X8. The loop stops only when no endpoint is left: whenever a run ends
    with the status [Stopped], the endpoint mapping of its loader is
    empty. *)
Theorem loop_stops_only_when_empty
    (p : string) (fs0 : FS) (turns : list (FS * Session)) (m : Monitor) :
  monitor_endpoints p fs0 turns = Ok (Stopped, m) ->
  endpoints (config_loader m) = ∅.
Proof.
  unfold monitor_endpoints.
  destruct (ConfigLoader_init fs0 p) as [cl|x]; cbn; [|discriminate].
  apply monitor_loop_stopped.
Qed.

Lemma loop_stops_only_when_empty_witness :
  endpoints (config_loader
               (monitor_of (monitor_endpoints "conf" conf_v1
                              [(conf_v1, session_A_up); (conf_none, session_A_up)]))) = ∅.
Proof.
  apply (loop_stops_only_when_empty "conf" conf_v1
           [(conf_v1, session_A_up); (conf_none, session_A_up)]).
  vm_compute. reflexivity.
Defined.

(** ** The effect of loading one file *)

Section LoadEffects.

Implicit Types (self : ConfigLoader) (fs : FS) (fp n : string).

(** The endpoints after the names of a file were dropped. *)
Lemma _remove_file_endpoints_lookup self fp n :
  (attributed self n fp -> endpoints (_remove_file_endpoints self fp) !! n = None) /\
  (~ attributed self n fp ->
   endpoints (_remove_file_endpoints self fp) !! n = endpoints self !! n).
Proof.
  split.
  - intros (names & Hnames & Hn). eapply _remove_file_endpoints_own; eauto.
  - intros Hna. apply _remove_file_endpoints_other.
    intros names Hnames Hn. apply Hna. exists names. auto.
Qed.

(** What happens to the records of the files: only those of [fp] change. *)
Lemma _remove_file_endpoints_frame self fp :
  path (_remove_file_endpoints self fp) = path self /\
  file_endpoints (_remove_file_endpoints self fp) = delete fp (file_endpoints self) /\
  (forall fp', fp' <> fp ->
     mod_times (_remove_file_endpoints self fp) !! fp' = mod_times self !! fp') /\
  (is_Some (file_endpoints self !! fp) ->
   mod_times (_remove_file_endpoints self fp) !! fp = None).
Proof.
  unfold _remove_file_endpoints.
  destruct (file_endpoints self !! fp) as [names|] eqn:Hfp; cbn.
  - repeat split.
    + intros fp' Hne. now apply lookup_delete_ne.
    + intros _. apply lookup_delete_eq.
  - repeat split.
    + symmetry. now apply delete_id.
    + intros [x Hx]. discriminate.
Qed.

Lemma _load_file_frame fs self fp self' :
  _load_file fs self fp = Ok self' ->
  path self' = path self /\
  forall fp', fp' <> fp ->
    file_endpoints self' !! fp' = file_endpoints self !! fp' /\
    mod_times self' !! fp' = mod_times self !! fp'.
Proof.
  intros Hload.
  apply _load_file_cases in Hload
    as [(t & _ & _ & ->)|[(-> & _)|(t & cd & eps & _ & _ & _ & ->)]].
  - now split.
  - destruct (_remove_file_endpoints_frame self fp) as (Hp & Hfe & Hmt & _).
    split; [assumption|]. intros fp' Hne. rewrite Hfe. split.
    + now apply lookup_delete_ne.
    + now apply Hmt.
  - split; [reflexivity|]. intros fp' Hne. cbn.
    now rewrite !lookup_insert_ne by congruence.
Qed.

Lemma refresh_file_frame fs self fp self' :
  refresh_file fs self fp = Ok self' ->
  path self' = path self /\
  (fs !! fp = None -> self' = self) /\
  forall fp', fp' <> fp ->
    file_endpoints self' !! fp' = file_endpoints self !! fp' /\
    mod_times self' !! fp' = mod_times self !! fp'.
Proof.
  unfold refresh_file, os.exists_, os.getmtime.
  destruct (fs !! fp) as [node|] eqn:Hfs.
  - assert (Hstep : (if decide (mod_times self !! fp
                                = Some match node with Dir t _ | File t _ => t end)
                     then Ok self else _load_file fs self fp) = Ok self' ->
                    path self' = path self /\
                    (Some node = None -> self' = self) /\
                    forall fp', fp' <> fp ->
                      file_endpoints self' !! fp' = file_endpoints self !! fp' /\
                      mod_times self' !! fp' = mod_times self !! fp').
    { destruct (decide _).
      - intros [= <-]. repeat split.
      - intros Hload. apply _load_file_frame in Hload as [Hp Hfr].
        split; [assumption|]. split; [discriminate|assumption]. }
    destruct node; cbn; exact Hstep.
  - intros [= <-]. repeat split.
Qed.

Lemma EndpointConfig_init_bad (ep : Decl) fp :
  d_name ep = None \/ d_url ep = None \/ d_unknown ep = true ->
  EndpointConfig_init ep fp = Raise TypeError.
Proof.
  unfold EndpointConfig_init. intros [H|[H|H]]; rewrite H.
  - now destruct (d_unknown ep).
  - destruct (d_unknown ep); [reflexivity|]. now destruct (d_name ep).
  - reflexivity.
Qed.

Lemma load_decls_bad fp (config_data : list Decl) (ep : Decl) :
  ep ∈ config_data ->
  d_name ep = None \/ d_url ep = None \/ d_unknown ep = true ->
  forall (eps : gmap string EndpointConfig) (cur : gset string),
    exists x, load_decls fp config_data eps cur = Raise x.
Proof.
  intros Hin Hbad. induction config_data as [|ep0 rest IH]; [inversion Hin|].
  intros eps cur. cbn [load_decls].
  apply elem_of_cons in Hin as [<-|Hin].
  - rewrite EndpointConfig_init_bad by assumption. cbn. eauto.
  - destruct (EndpointConfig_init ep0 fp) as [e|x]; cbn; [|eauto].
    now apply IH.
Qed.

Lemma _load_file_bad fs self fp (t : Z) (config_data : list Decl) (ep : Decl) :
  fs !! fp = Some (File t (Parsed config_data)) ->
  mod_times self !! fp <> Some t ->
  ep ∈ config_data ->
  d_name ep = None \/ d_url ep = None \/ d_unknown ep = true ->
  exists x, _load_file fs self fp = Raise x /\ (x = TypeError \/ x = ValueError).
Proof.
  intros Hfs Ht Hin Hbad.
  unfold _load_file, _load_file_try, os.getmtime, safe_load. rewrite Hfs. cbn.
  destruct (decide _); [contradiction|]. cbn.
  destruct (load_decls_bad fp config_data ep Hin Hbad (endpoints self) ∅) as [x Hx].
  rewrite Hx. cbn.
  destruct (load_decls_raise _ _ _ _ _ Hx) as [->| ->]; eauto.
Qed.

Lemma for_each_refresh_bad fs fp (t : Z) (config_data : list Decl) (ep : Decl) :
  fs !! fp = Some (File t (Parsed config_data)) ->
  ep ∈ config_data ->
  d_name ep = None \/ d_url ep = None \/ d_unknown ep = true ->
  forall (fps : list string) self,
    fp ∈ fps -> mod_times self !! fp <> Some t ->
    exists x, for_each (refresh_file fs) fps self = Raise x.
Proof.
  intros Hfs Hin Hbad fps.
  induction fps as [|f rest IH]; intros self Hfp Ht; [inversion Hfp|].
  cbn [for_each].
  destruct (decide (f = fp)) as [->|Hne].
  - destruct (_load_file_bad fs self fp t config_data ep Hfs Ht Hin Hbad)
      as (x & Hx & _).
    unfold refresh_file, os.exists_, os.getmtime. rewrite Hfs. cbn.
    destruct (decide _); [contradiction|]. rewrite Hx. cbn. eauto.
  - destruct (refresh_file fs self f) as [s|x] eqn:Hs; cbn; [|eauto].
    apply IH.
    + apply elem_of_cons in Hfp as [?|?]; [congruence|assumption].
    + apply refresh_file_frame in Hs as (_ & _ & Hfr).
      destruct (Hfr fp (not_eq_sym Hne)) as [_ ->]. assumption.
Qed.

End LoadEffects.

(** X9. One bad declaration aborts the whole refresh. When a source whose
    modification time is not the recorded one holds a declaration without a
    name, without a url or with an unknown key, [_load_file] raises a
    [TypeError] or a [ValueError] for it, which its handler does not catch,
    and every refresh that goes through this source raises: it returns no
    loader, whatever the other sources hold. *)
Theorem bad_declaration_aborts_refresh
    (fs : FS) (self : ConfigLoader) (fp : string) (t : Z)
    (config_data : list Decl) (ep : Decl) :
  fs !! fp = Some (File t (Parsed config_data)) ->
  mod_times self !! fp <> Some t ->
  ep ∈ config_data ->
  d_name ep = None \/ d_url ep = None \/ d_unknown ep = true ->
  (exists x, _load_file fs self fp = Raise x /\ (x = TypeError \/ x = ValueError)) /\
  (fp ∈ sources fs (path self) -> exists x, refresh fs self = Raise x).
Proof.
  intros Hfs Ht Hin Hbad. split; [eapply _load_file_bad; eauto|].
  intros Hsrc. unfold refresh.
  destruct (for_each_refresh_bad fs fp t config_data ep Hfs Hin Hbad
              (sources fs (path self)) self Hsrc Ht) as [x ->].
  cbn. eauto.
Qed.

Lemma bad_declaration_aborts_refresh_witness :
  exists x, refresh conf_missing_name loader_v1 = Raise x.
Proof.
  refine (proj2 (bad_declaration_aborts_refresh conf_missing_name loader_v1
                   "conf/a.yaml" 20 [decl_A; decl_no_name] decl_no_name _ _ _ _) _).
  - reflexivity.
  - vm_compute. discriminate.
  - right. left.
  - left. reflexivity.
  - refine (bool_decide_unpack _ _). vm_compute. exact I.
Defined.

(** X10. What a successful reload of a modified source does. The source is
    recorded with exactly the names it declares now and with its new
    modification time; the records of every other source stay as they are.
    An endpoint whose name the source no longer declares is deleted when the
    name was recorded for this source, and is left untouched otherwise. *)
Theorem reload_drops_removed_names
    (fs : FS) (self self' : ConfigLoader) (fp : string) (t : Z)
    (config_data : list Decl) :
  fs !! fp = Some (File t (Parsed config_data)) ->
  mod_times self !! fp <> Some t ->
  _load_file fs self fp = Ok self' ->
  file_endpoints self' = <[fp := decl_names config_data]> (file_endpoints self) /\
  mod_times self' = <[fp := t]> (mod_times self) /\
  forall n, n ∉ decl_names config_data ->
    (attributed self n fp -> endpoints self' !! n = None) /\
    (~ attributed self n fp -> endpoints self' !! n = endpoints self !! n).
Proof.
  intros Hfs Ht Hload.
  apply _load_file_cases in Hload
    as [(t' & Hm & Ht' & _)|[(_ & [Hnone|(t' & Hmal)])|(t' & cd & eps & Hfs' & _ & Hl & ->)]].
  - unfold os.getmtime in Hm. rewrite Hfs in Hm. congruence.
  - congruence.
  - congruence.
  - assert (cd = config_data) as -> by congruence.
    assert (t' = t) as -> by congruence.
    split; [reflexivity|]. split; [reflexivity|].
    apply load_decls_spec in Hl as (_ & _ & Hout).
    intros n Hn. unfold reloaded. cbn [endpoints]. split.
    + intros (old & Hold & Hin). rewrite Hold, lookup_del_names.
      destruct (decide (n ∈ old ∖ decl_names config_data)); [reflexivity|set_solver].
    + intros Hna.
      destruct (file_endpoints self !! fp) as [old|] eqn:Hold; [|now apply Hout].
      rewrite lookup_del_names.
      destruct (decide (n ∈ old ∖ decl_names config_data)) as [Hd|_]; [|now apply Hout].
      exfalso. apply Hna. exists old. split; [exact Hold|set_solver].
Qed.

Lemma reload_drops_removed_names_witness :
  endpoints (loader_of (_load_file conf_only_A loader_v1 "conf/a.yaml")) !! "B" = None.
Proof.
  refine (proj1 (proj2 (proj2 (reload_drops_removed_names conf_only_A loader_v1
                   (loader_of (_load_file conf_only_A loader_v1 "conf/a.yaml"))
                   "conf/a.yaml" 20 [decl_A] _ _ _)) "B" _) _).
  - reflexivity.
  - vm_compute. discriminate.
  - vm_compute. reflexivity.
  - intros H. apply (bool_decide_pack _) in H. vm_compute in H. exact H.
  - exists {["A"; "B"]}. split; [vm_compute; reflexivity|set_solver].
Defined.

(** X11. The recovery of [_load_file] is local. When the source is gone,
    or does not parse and its modification time is not the recorded one,
    the call returns; the source is no longer recorded, and had it been
    recorded, its modification time is forgotten, so that a later refresh
    reads it again; the records of every other source stay as they are;
    and exactly the endpoints whose names were recorded for the source are
    deleted. *)
Theorem load_failure_recovery_is_local
    (fs : FS) (self : ConfigLoader) (fp : string) :
  (fs !! fp = None \/
   exists t, fs !! fp = Some (File t Malformed) /\ mod_times self !! fp <> Some t) ->
  exists self',
    _load_file fs self fp = Ok self' /\
    file_endpoints self' = delete fp (file_endpoints self) /\
    (is_Some (file_endpoints self !! fp) -> mod_times self' !! fp = None) /\
    (forall fp', fp' <> fp -> mod_times self' !! fp' = mod_times self !! fp') /\
    forall n,
      (attributed self n fp -> endpoints self' !! n = None) /\
      (~ attributed self n fp -> endpoints self' !! n = endpoints self !! n).
Proof.
  intros Hfail. exists (_remove_file_endpoints self fp).
  split; [now apply _load_file_recovers|].
  destruct (_remove_file_endpoints_frame self fp) as (_ & Hfe & Hmt & Hmt').
  split; [assumption|]. split; [assumption|]. split; [assumption|].
  intros n. apply _remove_file_endpoints_lookup.
Qed.

Lemma load_failure_recovery_is_local_witness :
  exists self',
    _load_file (conf_dir 20 Malformed) loader_v1 "conf/a.yaml" = Ok self' /\
    file_endpoints self' = delete "conf/a.yaml" (file_endpoints loader_v1).
Proof.
  destruct (load_failure_recovery_is_local (conf_dir 20 Malformed) loader_v1 "conf/a.yaml")
    as (self' & Hload & Hfe & _).
  - right. exists 20. split; [reflexivity|]. vm_compute. discriminate.
  - exists self'. split; [exact Hload|exact Hfe].
Defined.

(** ** The effect of a refresh *)

Section RefreshEffects.

Implicit Types (self : ConfigLoader) (fs : FS) (fp n : string).

Lemma attributed_remove self f n fp :
  attributed (_remove_file_endpoints self f) n fp <-> fp <> f /\ attributed self n fp.
Proof.
  unfold attributed.
  destruct (_remove_file_endpoints_frame self f) as (_ & -> & _). split.
  - intros (N & HN & Hn). apply lookup_delete_Some in HN as [Hne HN]. split; eauto.
  - intros (Hne & N & HN & Hn). exists N. split; [|assumption].
    apply lookup_delete_Some. auto.
Qed.

(** The loop of a refresh leaves alone the records of a file that is not
    among the sources, or that is gone. *)
Lemma for_each_refresh_frame fs (fps : list string) :
  forall self s,
    for_each (refresh_file fs) fps self = Ok s ->
    path s = path self /\
    forall fp, fp ∉ fps \/ fs !! fp = None ->
      file_endpoints s !! fp = file_endpoints self !! fp /\
      mod_times s !! fp = mod_times self !! fp.
Proof.
  induction fps as [|f rest IH]; intros self s; cbn [for_each].
  - intros [= <-]. now split.
  - destruct (refresh_file fs self f) as [s1|x] eqn:Hs1; cbn; [|discriminate].
    intros Hrest. apply IH in Hrest as [Hp Hfr].
    apply refresh_file_frame in Hs1 as (Hp1 & Hgone & Hfr1).
    split; [congruence|]. intros fp Hfp.
    destruct (Hfr fp) as [-> ->].
    { destruct Hfp as [Hfp|Hfp]; [left|now right].
      intros Hin. apply Hfp. now right. }
    destruct (decide (fp = f)) as [->|Hne].
    + destruct Hfp as [Hfp|Hfp]; [exfalso; apply Hfp; now left|].
      now rewrite (Hgone Hfp).
    + now apply Hfr1.
Qed.

(** The removal loop, over any list of files. *)
Lemma remove_loop_spec (gone : string -> bool) (l : list string) :
  forall self,
    let s := foldl (fun s fp => if gone fp then _remove_file_endpoints s fp else s)
                   self l in
    path s = path self /\
    (forall fp, fp ∈ l -> gone fp = true -> file_endpoints s !! fp = None) /\
    (forall fp, fp ∈ l -> gone fp = true -> is_Some (file_endpoints self !! fp) ->
                mod_times s !! fp = None) /\
    (forall fp, gone fp = false ->
                file_endpoints s !! fp = file_endpoints self !! fp /\
                mod_times s !! fp = mod_times self !! fp) /\
    (forall fp, file_endpoints self !! fp = None -> file_endpoints s !! fp = None) /\
    (forall fp, mod_times self !! fp = None -> mod_times s !! fp = None) /\
    (forall n, endpoints self !! n = None -> endpoints s !! n = None) /\
    (forall fp n, fp ∈ l -> gone fp = true -> attributed self n fp ->
                  endpoints s !! n = None) /\
    (forall n, (forall fp, fp ∈ l -> gone fp = true -> ~ attributed self n fp) ->
               endpoints s !! n = endpoints self !! n).
Proof.
  induction l as [|f l IH]; intros self; cbn [foldl].
  - split; [reflexivity|].
    split; [intros fp Hin; inversion Hin|].
    split; [intros fp Hin; inversion Hin|].
    split; [now split|].
    split; [auto|]. split; [auto|]. split; [auto|].
    split; [intros fp n Hin; inversion Hin|reflexivity].
  - set (s1 := if gone f then _remove_file_endpoints self f else self).
    specialize (IH s1). cbv zeta in IH.
    destruct IH as (Hp & Hfe & Hmt & Hkeep & Hfen & Hmtn & Hepn & Hdel & Hsame).
    assert (Hp1 : path s1 = path self).
    { unfold s1. destruct (gone f); [|reflexivity].
      apply _remove_file_endpoints_frame. }
    assert (Hfe1 : forall fp, fp <> f \/ gone f = false ->
                     file_endpoints s1 !! fp = file_endpoints self !! fp /\
                     mod_times s1 !! fp = mod_times self !! fp).
    { intros fp Hfp. unfold s1. destruct (gone f) eqn:Hg; [|now split].
      destruct Hfp as [Hne|?]; [|discriminate].
      destruct (_remove_file_endpoints_frame self f) as (_ & -> & Hm & _).
      split; [now apply lookup_delete_ne|now apply Hm]. }
    assert (Hfe1n : forall fp, file_endpoints self !! fp = None ->
                               file_endpoints s1 !! fp = None).
    { intros fp Hn. unfold s1. destruct (gone f); [|assumption].
      destruct (_remove_file_endpoints_frame self f) as (_ & -> & _).
      apply lookup_delete_None. now right. }
    assert (Hmt1n : forall fp, mod_times self !! fp = None ->
                               mod_times s1 !! fp = None).
    { intros fp Hn. unfold s1. destruct (gone f); [|assumption].
      unfold _remove_file_endpoints. destruct (file_endpoints self !! f); [|assumption].
      cbn. apply lookup_delete_None. now right. }
    assert (Hgone1 : gone f = true ->
                     file_endpoints s1 !! f = None /\
                     (is_Some (file_endpoints self !! f) -> mod_times s1 !! f = None)).
    { intros Hg. unfold s1. rewrite Hg.
      destruct (_remove_file_endpoints_frame self f) as (_ & -> & _ & Hm).
      split; [apply lookup_delete_eq|assumption]. }
    assert (Hattr1 : forall n fp, attributed s1 n fp -> attributed self n fp).
    { intros n fp. unfold s1. destruct (gone f); [|auto].
      intros H. now apply attributed_remove in H as [_ ?]. }
    assert (Hep1 : forall n, (gone f = true -> ~ attributed self n f) ->
                             endpoints s1 !! n = endpoints self !! n).
    { intros n Hn. unfold s1. destruct (gone f); [|reflexivity].
      apply _remove_file_endpoints_lookup. auto. }
    assert (Hep1n : forall n, endpoints self !! n = None -> endpoints s1 !! n = None).
    { intros n Hn. unfold s1. destruct (gone f); [|assumption].
      unfold _remove_file_endpoints. destruct (file_endpoints self !! f); [|assumption].
      cbn. rewrite lookup_del_names. now destruct (decide _). }
    split; [congruence|].
    split.
    { intros fp Hin Hg. apply elem_of_cons in Hin as [->|Hin]; [|now apply Hfe].
      apply Hfen. now apply Hgone1. }
    split.
    { intros fp Hin Hg Htr. apply elem_of_cons in Hin as [->|Hin].
      - apply Hmtn. now apply Hgone1.
      - destruct (decide (fp = f)) as [->|Hne].
        + apply Hmtn. now apply Hgone1.
        + apply Hmt; [assumption|assumption|].
          destruct (Hfe1 fp) as [-> _]; auto. }
    split.
    { intros fp Hg. destruct (Hkeep fp Hg) as [-> ->].
      apply Hfe1. destruct (decide (fp = f)) as [->|?]; auto. }
    split; [auto|]. split; [auto|]. split; [auto|].
    split.
    { intros fp n Hin Hg Ha.
      destruct (decide (fp = f)) as [->|Hne].
      - apply Hepn. unfold s1. rewrite Hg. now apply _remove_file_endpoints_lookup.
      - apply elem_of_cons in Hin as [?|Hin]; [contradiction|].
        apply (Hdel fp n Hin Hg). unfold s1.
        destruct (gone f); [|assumption]. apply attributed_remove. auto. }
    intros n Hn. rewrite Hsame.
    + apply Hep1. intros Hg. apply Hn; [now left|assumption].
    + intros fp Hin Hg Ha. apply (Hn fp); [now right|assumption|auto].
Qed.

End RefreshEffects.

Section RefreshTwice.

Implicit Types (self : ConfigLoader) (fs : FS) (fp n : string).

Lemma refresh_gone_true fs (srcs : list string) fp :
  fp ∉ srcs \/ fs !! fp = None -> refresh_gone fs srcs fp = true.
Proof.
  unfold refresh_gone, in_list, os.exists_. intros [Hn| ->].
  - now rewrite bool_decide_eq_false_2.
  - apply orb_true_r.
Qed.

Lemma refresh_gone_false fs (srcs : list string) fp :
  refresh_gone fs srcs fp = false -> fp ∈ srcs /\ is_Some (fs !! fp).
Proof.
  unfold refresh_gone, in_list, os.exists_. intros H.
  apply orb_false_iff in H as [H1 H2].
  apply negb_false_iff in H1, H2. apply bool_decide_eq_true in H1.
  split; [assumption|]. destruct (fs !! fp); [eauto|discriminate].
Qed.

Lemma quiet_same fs self (s : ConfigLoader) fp :
  file_endpoints s !! fp = file_endpoints self !! fp ->
  mod_times s !! fp = mod_times self !! fp ->
  quiet fs self fp -> quiet fs s fp.
Proof. unfold quiet. intros -> ->. auto. Qed.

Lemma refresh_file_quiet fs self fp (s : ConfigLoader) :
  refresh_file fs self fp = Ok s -> quiet fs s fp.
Proof.
  unfold refresh_file, os.exists_, os.getmtime, quiet.
  destruct (fs !! fp) as [node|] eqn:Hfs; [|auto].
  assert (Hstep : forall t,
             os.getmtime fs fp = Ok t ->
             (if decide (mod_times self !! fp = Some t)
              then Ok self else _load_file fs self fp) = Ok s ->
             mod_times s !! fp = Some t \/
             ((exists t', fs !! fp = Some (File t' Malformed)) /\
              file_endpoints s !! fp = None)).
  { intros t Hm. destruct (decide _) as [Ht|Ht].
    - intros [= <-]. now left.
    - intros Hload.
      apply _load_file_cases in Hload
        as [(t' & Hm' & Ht' & ->)|[(-> & [Hnone|Hmal])|(t' & cd & eps & Hfs' & _ & _ & ->)]].
      + left. congruence.
      + congruence.
      + right. split; [assumption|].
        destruct (_remove_file_endpoints_frame self fp) as (_ & -> & _).
        apply lookup_delete_eq.
      + left. cbn. rewrite lookup_insert_eq.
        unfold os.getmtime in Hm. rewrite Hfs' in Hm. congruence. }
  destruct node as [t names|t c]; cbn; intros Hs.
  - destruct (Hstep t) as [?|[(t' & Hmal) _]]; try assumption.
    + unfold os.getmtime. now rewrite Hfs.
    + congruence.
  - destruct (Hstep t) as [?|[(t' & Hmal) ?]]; try assumption.
    + unfold os.getmtime. now rewrite Hfs.
    + now left.
    + right. split; [congruence|assumption].
Qed.

Lemma quiet_refresh_file fs self fp :
  quiet fs self fp -> refresh_file fs self fp = Ok self.
Proof.
  unfold quiet, refresh_file, os.exists_, os.getmtime.
  destruct (fs !! fp) as [[t names|t c]|] eqn:Hfs; cbn; [| |reflexivity].
  - intros Ht. now destruct (decide _).
  - intros Hq. destruct (decide _) as [|Hne]; [reflexivity|].
    destruct Hq as [?|[-> Hnone]]; [contradiction|].
    rewrite _load_file_recovers by (right; eauto).
    unfold _remove_file_endpoints. now rewrite Hnone.
Qed.

Lemma for_each_quiet fs (fps : list string) :
  forall self s,
    for_each (refresh_file fs) fps self = Ok s ->
    forall fp, fp ∈ fps -> quiet fs s fp.
Proof.
  induction fps as [|f rest IH]; intros self s; cbn [for_each].
  - intros _ fp Hin. inversion Hin.
  - destruct (refresh_file fs self f) as [s1|x] eqn:Hs1; cbn; [|discriminate].
    intros Hrest fp Hin.
    destruct (decide (fp ∈ rest)) as [Hr|Hr]; [eapply IH; eauto|].
    apply elem_of_cons in Hin as [->|?]; [|contradiction].
    apply refresh_file_quiet in Hs1.
    apply for_each_refresh_frame in Hrest as [_ Hfr].
    destruct (Hfr f (or_introl Hr)) as [Hfe Hmt].
    eapply quiet_same; eauto.
Qed.

Lemma for_each_quiet_id fs (fps : list string) self :
  (forall fp, fp ∈ fps -> quiet fs self fp) ->
  for_each (refresh_file fs) fps self = Ok self.
Proof.
  induction fps as [|f rest IH]; intros Hq; [reflexivity|].
  cbn [for_each]. rewrite quiet_refresh_file by (apply Hq; now left).
  cbn. apply IH. intros fp Hin. apply Hq. now right.
Qed.

Lemma remove_loop_id (gone : string -> bool) (l : list string) self :
  (forall fp, fp ∈ l -> gone fp = false) ->
  foldl (fun s fp => if gone fp then _remove_file_endpoints s fp else s) self l = self.
Proof.
  induction l as [|f l IH]; intros Hg; [reflexivity|].
  cbn [foldl]. rewrite (Hg f) by now left. apply IH.
  intros fp Hin. apply Hg. now right.
Qed.

(** After a refresh, a second refresh on the same file system finds every
    source quiet and no recorded file to remove. *)
Lemma refresh_settles fs self (s : ConfigLoader) :
  refresh fs self = Ok s ->
  path s = path self /\
  (forall fp, fp ∈ sources fs (path self) -> quiet fs s fp) /\
  (forall fp, is_Some (file_endpoints s !! fp) ->
              refresh_gone fs (sources fs (path self)) fp = false).
Proof.
  unfold refresh. fold (refresh_gone fs (sources fs (path self))).
  destruct (for_each _ _ self) as [s1|x] eqn:Hfor; cbn; [|discriminate].
  intros [= <-]. unfold remove_gone.
  pose proof (remove_loop_spec (refresh_gone fs (sources fs (path self)))
                (elements (dom (file_endpoints s1))) s1) as Hspec.
  cbv zeta in Hspec.
  destruct Hspec as (Hp & Hfe & _ & Hkeep & Hfen & _).
  pose proof (for_each_refresh_frame _ _ _ _ Hfor) as [Hp1 _].
  split; [congruence|]. split.
  - intros fp Hin.
    destruct (refresh_gone fs (sources fs (path self)) fp) eqn:Hg.
    + unfold refresh_gone in Hg. apply orb_true_iff in Hg as [Hg|Hg].
      * apply negb_true_iff, bool_decide_eq_false in Hg. contradiction.
      * unfold quiet. unfold os.exists_ in Hg.
        destruct (fs !! fp); [discriminate|exact I].
    + destruct (Hkeep fp Hg) as [Hfe' Hmt'].
      eapply quiet_same; eauto. eapply for_each_quiet; eauto.
  - intros fp [names Hnames].
    destruct (refresh_gone fs (sources fs (path self)) fp) eqn:Hg; [|reflexivity].
    exfalso.
    destruct (file_endpoints s1 !! fp) as [names1|] eqn:H1.
    + rewrite Hfe in Hnames; [discriminate| |assumption].
      apply elem_of_elements, elem_of_dom. eauto.
    + rewrite (Hfen fp H1) in Hnames. discriminate.
Qed.

End RefreshTwice.

(** X12. A refresh after a source was deleted (it is no longer among the
    sources, or no longer exists) drops the source: nothing is recorded for
    it any more, its modification time is forgotten, and every endpoint
    whose name was recorded for it is deleted. *)
Theorem refresh_removes_deleted_source
    (fs : FS) (self s : ConfigLoader) (fp : string) :
  refresh fs self = Ok s ->
  fp ∉ sources fs (path self) \/ fs !! fp = None ->
  file_endpoints s !! fp = None /\
  (is_Some (file_endpoints self !! fp) -> mod_times s !! fp = None) /\
  forall n, attributed self n fp -> endpoints s !! n = None.
Proof.
  intros Href Hdel. unfold refresh in Href.
  fold (refresh_gone fs (sources fs (path self))) in Href.
  destruct (for_each _ _ self) as [s1|x] eqn:Hfor; cbn in Href; [|discriminate].
  injection Href as <-. unfold remove_gone.
  pose proof (remove_loop_spec (refresh_gone fs (sources fs (path self)))
                (elements (dom (file_endpoints s1))) s1) as Hspec.
  cbv zeta in Hspec.
  destruct Hspec as (_ & Hfe & Hmt & _ & Hfen & _ & _ & Hdrop & _).
  apply for_each_refresh_frame in Hfor as [_ Hfr].
  destruct (Hfr fp Hdel) as [Hsame _].
  pose proof (refresh_gone_true fs (sources fs (path self)) fp Hdel) as Hg.
  assert (Hin : is_Some (file_endpoints self !! fp) ->
                fp ∈ elements (dom (file_endpoints s1))).
  { intros Hs. apply elem_of_elements, elem_of_dom. now rewrite Hsame. }
  split; [|split].
  - destruct (file_endpoints self !! fp) as [names|] eqn:Hf.
    + apply Hfe; [apply Hin; eauto|assumption].
    + apply Hfen. now rewrite Hsame.
  - intros Hs. apply Hmt; [now apply Hin|assumption|now rewrite Hsame].
  - intros n (names & Hnames & Hn).
    apply (Hdrop fp n); [apply Hin; eauto|assumption|].
    exists names. split; [now rewrite Hsame|assumption].
Qed.

Lemma refresh_removes_deleted_source_witness :
  endpoints (loader_of (refresh conf_none loader_v1)) !! "A" = None.
Proof.
  refine (proj2 (proj2 (refresh_removes_deleted_source conf_none loader_v1
                          (loader_of (refresh conf_none loader_v1)) "conf/a.yaml" _ _))
                "A" _).
  - vm_compute. reflexivity.
  - right. reflexivity.
  - exists {["A"; "B"]}. split; [vm_compute; reflexivity|set_solver].
Defined.

(** X13. A refresh is idempotent on an unchanged file system: once a
    refresh has returned, another refresh on the same file system returns
    the loader as it is. It does so whatever the endpoint mapping holds by
    then, so it touches no endpoint and resets no statistics. *)
Theorem refresh_twice
    (fs : FS) (self s : ConfigLoader) :
  refresh fs self = Ok s ->
  refresh fs s = Ok s /\
  forall eps, refresh fs (set_endpoints s eps) = Ok (set_endpoints s eps).
Proof.
  intros Href. apply refresh_settles in Href as (Hp & Hq & Hg).
  assert (Hall : forall eps, refresh fs (set_endpoints s eps) = Ok (set_endpoints s eps)).
  { intros eps. unfold refresh. cbn [path set_endpoints]. rewrite Hp.
    rewrite for_each_quiet_id.
    - cbn. f_equal. unfold remove_gone.
      fold (refresh_gone fs (sources fs (path self))).
      apply remove_loop_id. intros fp Hin.
      apply elem_of_elements, elem_of_dom in Hin. now apply Hg.
    - intros fp Hin. apply (quiet_same fs s); [reflexivity|reflexivity|auto]. }
  split; [|exact Hall].
  specialize (Hall (endpoints s)). now destruct s.
Qed.

Lemma refresh_twice_witness :
  refresh conf_touched (loader_of (refresh conf_touched loader_two_cycles))
  = Ok (loader_of (refresh conf_touched loader_two_cycles)).
Proof.
  refine (proj1 (refresh_twice conf_touched loader_two_cycles
                   (loader_of (refresh conf_touched loader_two_cycles)) _)).
  vm_compute. reflexivity.
Defined.

(** ** Declarations of one file *)

Section Declarations.

Lemma load_decls_app fp (l1 l2 : list Decl) :
  forall (eps : gmap string EndpointConfig) (cur : gset string),
    load_decls fp (l1 ++ l2) eps cur =
    r ← load_decls fp l1 eps cur; load_decls fp l2 r.1 r.2.
Proof.
  induction l1 as [|ep l1 IH]; intros eps cur; [reflexivity|].
  cbn [app load_decls].
  destruct (EndpointConfig_init ep fp) as [e|x]; cbn; [apply IH|reflexivity].
Qed.

End Declarations.

(** X14. Within one file the last declaration of a name wins: after a
    successful reload, the endpoint stored under a name is the one built
    from the last declaration of that name in the file. *)
Theorem last_declaration_wins
    (fs : FS) (self self' : ConfigLoader) (fp : string) (t : Z)
    (l1 l2 : list Decl) (ep : Decl) (n : string) :
  fs !! fp = Some (File t (Parsed (l1 ++ ep :: l2))) ->
  mod_times self !! fp <> Some t ->
  _load_file fs self fp = Ok self' ->
  d_name ep = Some n ->
  n ∉ decl_names l2 ->
  exists e, EndpointConfig_init ep fp = Ok e /\ endpoints self' !! n = Some e.
Proof.
  intros Hfs Ht Hload Hname Hlast.
  apply _load_file_cases in Hload
    as [(t' & Hm & Ht' & _)|[(_ & [Hnone|(t' & Hmal)])|(t' & cd & eps & Hfs' & _ & Hl & ->)]].
  - unfold os.getmtime in Hm. rewrite Hfs in Hm. congruence.
  - congruence.
  - congruence.
  - assert (cd = (l1 ++ ep :: l2)%list) as -> by congruence.
    rewrite load_decls_app in Hl.
    destruct (load_decls fp l1 (endpoints self) ∅) as [[eps1 cur1]|x]; cbn in Hl;
      [|discriminate].
    destruct (EndpointConfig_init ep fp) as [e|x] eqn:He; cbn in Hl; [|discriminate].
    exists e. split; [reflexivity|].
    pose proof (EndpointConfig_init_ok _ _ _ He) as (Hn & _).
    assert (name e = n) as Hen by congruence.
    apply load_decls_spec in Hl as (_ & _ & Hout).
    assert (Heps : eps !! n = Some e).
    { rewrite Hout by assumption. rewrite Hen. apply lookup_insert_eq. }
    unfold reloaded. cbn [endpoints].
    destruct (file_endpoints self !! fp) as [old|]; [|assumption].
    rewrite lookup_del_names.
    destruct (decide (n ∈ old ∖ decl_names (l1 ++ ep :: l2))) as [Hd|_]; [|assumption].
    exfalso. apply elem_of_difference in Hd as [_ Hd]. apply Hd.
    apply elem_of_decl_names. exists ep. split; [|assumption].
    apply elem_of_app. right. now left.
Qed.

Lemma last_declaration_wins_witness :
  exists e,
    EndpointConfig_init decl_A' "conf/a.yaml" = Ok e /\
    endpoints (loader_of (_load_file (conf_dir 20 (Parsed [decl_A; decl_A'])) loader_v1
                            "conf/a.yaml")) !! "A" = Some e.
Proof.
  apply (last_declaration_wins (conf_dir 20 (Parsed [decl_A; decl_A'])) loader_v1 _
           "conf/a.yaml" 20 [decl_A] [] decl_A' "A").
  - reflexivity.
  - vm_compute. discriminate.
  - vm_compute. reflexivity.
  - reflexivity.
  - intros H. apply (bool_decide_pack _) in H. vm_compute in H. exact H.
Defined.

(** ** Paths and urls *)

Section Strings.

Lemma string_length_app (a b : string) :
  String.length (a ++ b) = (String.length a + String.length b)%nat.
Proof. induction a as [|c a IH]; simpl; [reflexivity|now f_equal]. Qed.

Lemma substring_app_skip (a b : string) (k m : nat) :
  substring (String.length a + k) m (a ++ b) = substring k m b.
Proof. induction a as [|c a IH]; simpl; [reflexivity|apply IH]. Qed.

Lemma endswith_app (a b suf : string) :
  Str.endswith b suf = true -> Str.endswith (a ++ b) suf = true.
Proof.
  unfold Str.endswith. intros H. apply andb_true_iff in H as [Hle Heq].
  apply Nat.leb_le in Hle. rewrite string_length_app.
  apply andb_true_iff. split; [apply Nat.leb_le; lia|].
  replace (String.length a + String.length b - String.length suf)%nat
    with (String.length a + (String.length b - String.length suf))%nat by lia.
  now rewrite substring_app_skip.
Qed.

Lemma is_yaml_join (p f : string) : is_yaml f = true -> is_yaml (os.join p f) = true.
Proof.
  unfold is_yaml, os.join. intros H.
  destruct (Str.startswith f "/"); [assumption|].
  destruct (_ || _); [now apply endswith_app|].
  apply endswith_app. now apply (endswith_app "/").
Qed.

Lemma contains_app (cs : list ascii) (a b : string) :
  Str.contains cs (a ++ b) = Str.contains cs a || Str.contains cs b.
Proof.
  induction a as [|c a IH]; simpl; [reflexivity|].
  rewrite IH. now rewrite orb_assoc.
Qed.

Lemma before_app (cs : list ascii) (a b : string) :
  free_of cs a -> Str.before cs (a ++ b) = a ++ Str.before cs b.
Proof.
  unfold free_of. induction a as [|c a IH]; simpl; [reflexivity|].
  intros H. apply orb_false_iff in H as [Hc Ha]. rewrite Hc. now rewrite IH.
Qed.

Lemma after_app (cs : list ascii) (a b : string) :
  free_of cs a -> Str.after cs (a ++ b) = Str.after cs b.
Proof.
  unfold free_of. induction a as [|c a IH]; simpl; [reflexivity|].
  intros H. apply orb_false_iff in H as [Hc Ha]. rewrite Hc. now apply IH.
Qed.

Lemma before_free (cs : list ascii) (s : string) : Str.before cs s = s <-> free_of cs s.
Proof.
  unfold free_of. induction s as [|c s IH]; cbn; [easy|].
  destruct (Str.mem c cs); cbn; [easy|].
  rewrite <- IH. split; [now intros [= ->]|congruence].
Qed.

Lemma free_of_subset (cs cs' : list ascii) (s : string) :
  (forall c, Str.mem c cs' = true -> Str.mem c cs = true) ->
  free_of cs s -> free_of cs' s.
Proof.
  unfold free_of. intros Hsub. induction s as [|c s IH]; cbn; [reflexivity|].
  intros H. apply orb_false_iff in H as [Hc Hs]. apply orb_false_iff. split; [|auto].
  destruct (Str.mem c cs') eqn:E; [|reflexivity]. apply Hsub in E. congruence.
Qed.

Lemma contains_before_same (cs : list ascii) (s : string) :
  free_of cs (Str.before cs s).
Proof.
  unfold free_of. induction s as [|c s IH]; cbn; [reflexivity|].
  destruct (Str.mem c cs) eqn:E; cbn; [reflexivity|]. now rewrite E.
Qed.

Lemma contains_before_other (cs cs' : list ascii) (s : string) :
  free_of cs s -> free_of cs (Str.before cs' s).
Proof.
  unfold free_of. induction s as [|c s IH]; cbn; [reflexivity|].
  intros H. apply orb_false_iff in H as [Hc Hs].
  destruct (Str.mem c cs'); cbn; [reflexivity|]. rewrite Hc. auto.
Qed.

Lemma free_of_app (cs cs' : list ascii) (s : string) :
  free_of cs s -> free_of cs' s -> free_of (cs ++ cs') s.
Proof.
  unfold free_of. induction s as [|c s IH]; cbn; [reflexivity|].
  intros H H'. apply orb_false_iff in H as [Hc Hs], H' as [Hc' Hs'].
  rewrite (IH Hs Hs'), orb_false_r.
  clear -Hc Hc'. induction cs as [|d cs IHc]; cbn in *; [assumption|].
  apply orb_false_iff in Hc as [-> Hc]. cbn. auto.
Qed.

Lemma scheme_char_not_colon (c : ascii) :
  Url.scheme_char c = true -> Str.mem c [":"%char] = false.
Proof.
  destruct c as [[] [] [] [] [] [] [] []]; vm_compute; congruence.
Qed.

Lemma scheme_free_of_colon (s : string) :
  Url.all_scheme_chars s = true -> free_of [":"%char] s.
Proof.
  unfold free_of. induction s as [|c s IH]; cbn -[Url.scheme_char]; [reflexivity|].
  intros H. apply andb_true_iff in H as [Hc Hs].
  apply scheme_char_not_colon in Hc. cbn in Hc. rewrite orb_false_r in Hc.
  rewrite Hc. cbn. auto.
Qed.

Lemma append_cons (c : ascii) (a b : string) : String c a ++ b = String c (a ++ b).
Proof. reflexivity. Qed.

Lemma string_app_nil_r (s : string) : s ++ "" = s.
Proof.
  induction s as [|c s IH]; [reflexivity|]. now rewrite append_cons, IH.
Qed.

Lemma strip_scheme_app (c : ascii) (sch rest : string) :
  Url.is_alpha c = true -> Url.all_scheme_chars (String c sch) = true ->
  Url.strip_scheme (String c sch ++ String ":" rest) = rest.
Proof.
  intros Ha Hs.
  pose proof (scheme_free_of_colon _ Hs) as Hfree.
  assert (Hafter : Str.after [":"%char] (String c sch ++ String ":" rest) = Some rest).
  { rewrite after_app by assumption. reflexivity. }
  assert (Hbefore : Str.before [":"%char] (String c sch ++ String ":" rest)
                    = String c sch).
  { rewrite before_app by assumption.
    change (Str.before [":"%char] (String ":" rest)) with "".
    apply string_app_nil_r. }
  remember (String c sch ++ String ":" rest) as u eqn:Hu.
  unfold Url.strip_scheme.
  rewrite append_cons in Hu.
  destruct u as [|c0 u0]; [discriminate|].
  injection Hu as <- _.
  rewrite Hafter, Hbefore, Ha, Hs. reflexivity.
Qed.

Lemma netloc_authority (u a : string) :
  Url.strip_scheme (Url.clean u) = String "/" (String "/" a) ->
  Str.contains ["["%char] (Str.before ["/"; "?"; "#"]%char a) = false ->
  Str.contains ["]"%char] (Str.before ["/"; "?"; "#"]%char a) = false ->
  Url.netloc u = Ok (Str.before ["/"; "?"; "#"]%char a).
Proof.
  unfold Url.netloc. intros -> Hopen Hclose.
  assert (Hpre : Str.startswith (String "/" (String "/" a)) "//" = true)
    by (destruct a; reflexivity).
  rewrite Hpre. cbv zeta. cbn [Str.drop]. rewrite Hopen, Hclose. reflexivity.
Qed.

Lemma upper_char_not_lower (c : ascii) :
  Str.is_upper_target
    (if Str.is_upper_target c then ascii_of_nat (nat_of_ascii c - 32) else c) = false.
Proof. destruct c as [[] [] [] [] [] [] [] []]; vm_compute; reflexivity. Qed.

Lemma upper_no_lower (s : string) : no_lower (Str.upper s) = true.
Proof.
  induction s as [|c s IH]; [reflexivity|].
  cbn [Str.upper no_lower]. now rewrite upper_char_not_lower, IH.
Qed.

Lemma upper_fixed (s : string) : no_lower s = true -> Str.upper s = s.
Proof.
  induction s as [|c s IH]; [reflexivity|].
  cbn [Str.upper no_lower]. intros H. apply andb_true_iff in H as [Hc Hs].
  apply negb_true_iff in Hc. now rewrite Hc, IH.
Qed.

End Strings.

(** X15. Only configuration files are sources: every path a load or a
    refresh goes through ends in [.yaml], and it is either the configured
    path itself or the configured directory joined with a name of its
    listing that ends in [.yaml]. *)
Theorem sources_are_yaml (fs : FS) (p fp : string) :
  fp ∈ sources fs p ->
  is_yaml fp = true /\
  ((os.isfile fs p = true /\ fp = p) \/
   (os.isdir fs p = true /\
    exists f, f ∈ os.listdir fs p /\ is_yaml f = true /\ fp = os.join p f)).
Proof.
  unfold sources. destruct (os.isdir fs p) eqn:Hd.
  - intros Hin. apply list_elem_of_fmap in Hin as (f & -> & Hf).
    apply list_elem_of_In, filter_In in Hf as [Hf Hy].
    split; [now apply is_yaml_join|]. right. split; [reflexivity|].
    exists f. split; [now apply list_elem_of_In|]. now split.
  - destruct (os.isfile fs p) eqn:Hf; cbn [andb].
    + destruct (is_yaml p) eqn:Hy; [|intros Hin; inversion Hin].
      intros Hin. apply list_elem_of_singleton in Hin as ->.
      split; [assumption|]. left. now split.
    + intros Hin. inversion Hin.
Qed.

Lemma sources_are_yaml_witness : is_yaml "conf/a.yaml" = true.
Proof.
  refine (proj1 (sources_are_yaml conf_v1 "conf" "conf/a.yaml" _)).
  refine (bool_decide_unpack _ _). vm_compute. exact I.
Defined.

Section Authority.

Lemma free_of_sublist (cs' cs : list ascii) (s : string) :
  free_of cs s -> forallb (fun c => Str.mem c cs) cs' = true -> free_of cs' s.
Proof.
  intros Hfree Hall. eapply free_of_subset; [|exact Hfree].
  intros d Hd. rewrite forallb_forall in Hall.
  induction cs' as [|d' cs' IH]; [discriminate|]. cbn in Hd.
  apply orb_true_iff in Hd as [Hd|Hd].
  - apply Ascii.eqb_eq in Hd as ->. apply Hall. now left.
  - apply IH; [|assumption]. intros x Hx. apply Hall. now right.
Qed.

Lemma all_free (p : ascii -> bool) (cs : list ascii) (s : string) :
  (forall c, p c = true -> Str.mem c cs = false) ->
  Str.all p s = true -> free_of cs s.
Proof.
  unfold free_of. intros Hp. induction s as [|c s IH]; cbn; [reflexivity|].
  intros H. apply andb_true_iff in H as [Hc Hs]. rewrite (Hp c Hc). cbn. auto.
Qed.

Lemma host_char_plain (c : ascii) : host_char c = true -> Str.mem c special = false.
Proof. destruct c as [[] [] [] [] [] [] [] []]; vm_compute; congruence. Qed.

Lemma digit_plain (c : ascii) : Url.is_digit c = true -> Str.mem c special = false.
Proof. destruct c as [[] [] [] [] [] [] [] []]; vm_compute; congruence. Qed.

Lemma scheme_char_safe (c : ascii) :
  Url.scheme_char c = true -> Str.mem c Url.unsafe = false.
Proof. destruct c as [[] [] [] [] [] [] [] []]; vm_compute; congruence. Qed.

Lemma alpha_not_blank (c : ascii) :
  Url.is_alpha c = true -> (nat_of_ascii c <=? 32)%nat = false.
Proof. destruct c as [[] [] [] [] [] [] [] []]; vm_compute; congruence. Qed.

Lemma all_scheme_chars_all (s : string) :
  Url.all_scheme_chars s = Str.all Url.scheme_char s.
Proof. induction s as [|c s IH]; cbn -[Url.scheme_char]; congruence. Qed.

Lemma remove_app (cs : list ascii) (a b : string) :
  Str.remove cs (a ++ b) = Str.remove cs a ++ Str.remove cs b.
Proof.
  induction a as [|c a IH]; [reflexivity|].
  rewrite append_cons. cbn [Str.remove].
  destruct (Str.mem c cs); [assumption|]. now rewrite append_cons, IH.
Qed.

Lemma remove_free (cs : list ascii) (a : string) :
  free_of cs a -> Str.remove cs a = a.
Proof.
  unfold free_of. induction a as [|c a IH]; [reflexivity|]. cbn.
  intros H. apply orb_false_iff in H as [Hc Ha]. rewrite Hc. now rewrite IH.
Qed.

(** Cleaning a url that starts with a scheme and a plain host leaves both
    as they are. *)
Lemma clean_scheme_host (c : ascii) (sch h tail : string) :
  Url.is_alpha c = true ->
  Url.all_scheme_chars (String c sch) = true ->
  Str.all host_char h = true ->
  Url.clean (String c sch ++ "://" ++ h ++ tail)
  = String c sch ++ String ":" (String "/" (String "/" (h ++ Str.remove Url.unsafe tail))).
Proof.
  intros Ha Hs Hh. unfold Url.clean.
  rewrite append_cons. cbn [Str.lstrip_c0]. rewrite (alpha_not_blank c Ha).
  rewrite <- append_cons. rewrite !remove_app.
  rewrite (remove_free Url.unsafe (String c sch)).
  - rewrite (remove_free Url.unsafe h); [reflexivity|].
    apply (free_of_sublist Url.unsafe special); [|reflexivity].
    eapply all_free; [exact host_char_plain|assumption].
  - rewrite all_scheme_chars_all in Hs.
    eapply all_free; [exact scheme_char_safe|assumption].
Qed.

Lemma netloc_scheme_host (c : ascii) (sch h tail : string) :
  Url.is_alpha c = true ->
  Url.all_scheme_chars (String c sch) = true ->
  Str.all host_char h = true ->
  let n := Str.before ["/"; "?"; "#"]%char (h ++ Str.remove Url.unsafe tail) in
  Str.contains ["["%char] n = false ->
  Str.contains ["]"%char] n = false ->
  Url.netloc (String c sch ++ "://" ++ h ++ tail) = Ok n.
Proof.
  intros Ha Hs Hh n Hopen Hclose. apply netloc_authority; [|assumption..].
  rewrite clean_scheme_host by assumption.
  exact (strip_scheme_app c sch _ Ha Hs).
Qed.

End Authority.

(** X16. For a url of the usual shape, a scheme, [://], a host name made
    of letters, digits, hyphens and dots, then optionally a colon and a
    port made of digits, then a slash and anything, the domain is the host
    name, which is the host component of the url: the port is stripped. *)
Theorem get_domain_strips_port (c : ascii) (sch h port rest : string) :
  Url.is_alpha c = true ->
  Url.all_scheme_chars (String c sch) = true ->
  Str.all host_char h = true ->
  Str.all Url.is_digit port = true ->
  get_domain (String c sch ++ "://" ++ h ++ ":" ++ port ++ "/" ++ rest) = Ok h /\
  get_domain (String c sch ++ "://" ++ h ++ "/" ++ rest) = Ok h /\
  Url.host (String c sch ++ "://" ++ h ++ ":" ++ port ++ "/" ++ rest) = Ok h /\
  Url.host (String c sch ++ "://" ++ h ++ "/" ++ rest) = Ok h.
Proof.
  intros Ha Hs Hh Hport.
  assert (Hhs : free_of special h)
    by (eapply all_free; [exact host_char_plain|assumption]).
  assert (Hps : free_of special port)
    by (eapply all_free; [exact digit_plain|assumption]).
  assert (Hcut : forall a b : string,
             free_of special a ->
             Str.before ["/"; "?"; "#"]%char (a ++ String "/" b) = a).
  { intros a b Hfree.
    rewrite before_app by (apply (free_of_sublist _ special); [assumption|reflexivity]).
    change (Str.before ["/"; "?"; "#"]%char (String "/" b)) with "".
    apply string_app_nil_r. }
  assert (Hnet1 : Url.netloc (String c sch ++ "://" ++ h ++ ":" ++ port ++ "/" ++ rest)
                  = Ok (h ++ String ":" port)).
  { assert (Hn : Str.before ["/"; "?"; "#"]%char
                    (h ++ Str.remove Url.unsafe (":" ++ port ++ "/" ++ rest))
                  = h ++ String ":" port).
    { change (":" ++ port ++ "/" ++ rest) with (String ":" (port ++ String "/" rest)).
      cbn [Str.remove]. change (Str.mem ":" Url.unsafe) with false.
      cbn iota. rewrite remove_app.
      rewrite (remove_free Url.unsafe port)
        by (apply (free_of_sublist _ special); [assumption|reflexivity]).
      change (Str.remove Url.unsafe (String "/" rest))
        with (String "/" (Str.remove Url.unsafe rest)).
      rewrite before_app
        by (apply (free_of_sublist _ special); [assumption|reflexivity]).
      change (Str.before ["/"; "?"; "#"]%char
                (String ":" (port ++ String "/" (Str.remove Url.unsafe rest))))
        with (String ":" (Str.before ["/"; "?"; "#"]%char
                            (port ++ String "/" (Str.remove Url.unsafe rest)))).
      now rewrite Hcut by assumption. }
    rewrite <- Hn.
    apply (netloc_scheme_host c sch h (":" ++ port ++ "/" ++ rest)); try assumption;
      rewrite Hn, contains_app.
    - rewrite (free_of_sublist ["["%char] special h) by (assumption || reflexivity).
      change (Str.contains ["["%char] (String ":" port))
        with (Str.contains ["["%char] port).
      now rewrite (free_of_sublist ["["%char] special port)
        by (assumption || reflexivity).
    - rewrite (free_of_sublist ["]"%char] special h) by (assumption || reflexivity).
      change (Str.contains ["]"%char] (String ":" port))
        with (Str.contains ["]"%char] port).
      now rewrite (free_of_sublist ["]"%char] special port)
        by (assumption || reflexivity). }
  assert (Hnet2 : Url.netloc (String c sch ++ "://" ++ h ++ "/" ++ rest) = Ok h).
  { assert (Hn : Str.before ["/"; "?"; "#"]%char
                    (h ++ Str.remove Url.unsafe ("/" ++ rest)) = h).
    { change (Str.remove Url.unsafe ("/" ++ rest))
        with (String "/" (Str.remove Url.unsafe rest)).
      now rewrite Hcut by assumption. }
    rewrite <- Hn at 2.
    apply (netloc_scheme_host c sch h ("/" ++ rest)); try assumption; rewrite Hn.
    - apply (free_of_sublist ["["%char] special h); [assumption|reflexivity].
    - apply (free_of_sublist ["]"%char] special h); [assumption|reflexivity]. }
  assert (Hd1 : get_domain (String c sch ++ "://" ++ h ++ ":" ++ port ++ "/" ++ rest)
                = Ok h).
  { unfold get_domain. rewrite Hnet1. cbn [mbind res_bind]. f_equal.
    rewrite before_app
      by (apply (free_of_sublist _ special); [assumption|reflexivity]).
    change (Str.before [":"%char] (String ":" port)) with "".
    apply string_app_nil_r. }
  assert (Hd2 : get_domain (String c sch ++ "://" ++ h ++ "/" ++ rest) = Ok h).
  { unfold get_domain. rewrite Hnet2. cbn [mbind res_bind]. f_equal.
    apply before_free. apply (free_of_sublist _ special); [assumption|reflexivity]. }
  split; [exact Hd1|]. split; [exact Hd2|]. split.
  - rewrite <- Hd1. symmetry. eapply get_domain_plain_host; [exact Hnet1| |].
    + unfold free_of in *. rewrite contains_app.
      rewrite (free_of_sublist ["@"%char] special h) by (assumption || reflexivity).
      change (Str.contains ["@"%char] (String ":" port))
        with (Str.contains ["@"%char] port).
      now rewrite (free_of_sublist ["@"%char] special port)
        by (assumption || reflexivity).
    + unfold free_of in *. rewrite contains_app.
      rewrite (free_of_sublist ["["%char] special h) by (assumption || reflexivity).
      change (Str.contains ["["%char] (String ":" port))
        with (Str.contains ["["%char] port).
      now rewrite (free_of_sublist ["["%char] special port)
        by (assumption || reflexivity).
  - rewrite <- Hd2. symmetry. eapply get_domain_plain_host; [exact Hnet2| |].
    + apply (free_of_sublist ["@"%char] special h); [assumption|reflexivity].
    + apply (free_of_sublist ["["%char] special h); [assumption|reflexivity].
Qed.

Lemma get_domain_strips_port_witness :
  get_domain ("https" ++ "://" ++ "svc1.example.com" ++ ":" ++ "8443" ++ "/" ++ "health")
  = Ok "svc1.example.com".
Proof.
  refine (proj1 (get_domain_strips_port "h" "ttps" "svc1.example.com" "8443" "health"
                   _ _ _ _)); reflexivity.
Defined.

(** X17. Whatever the url is, a domain that [get_domain] returns holds no
    colon, no slash, no question mark and no hash sign: no port and
    nothing of the path, the query or the fragment is left in it. *)
Theorem get_domain_no_separator (u d : string) :
  get_domain u = Ok d -> free_of [":"; "/"; "?"; "#"]%char d.
Proof.
  unfold get_domain.
  destruct (Url.netloc u) as [n|x] eqn:Hn; cbn; [|discriminate].
  intros [= <-]. apply netloc_ok in Hn as [->|[a ->]]; [reflexivity|].
  apply (free_of_app [":"%char] ["/"; "?"; "#"]%char).
  - apply contains_before_same.
  - apply contains_before_other, contains_before_same.
Qed.

Lemma get_domain_no_separator_witness :
  free_of [":"; "/"; "?"; "#"]%char "user".
Proof.
  apply (get_domain_no_separator "http://user:pw@example.com:8080/health?x=1#top").
  reflexivity.
Defined.

(** X18. The method of every endpoint the constructor builds is in upper
    case: it holds no lower-case letter, converting it again changes
    nothing, and it is GET when the declaration gives no method. *)
Theorem method_is_upper_case (ep : Decl) (fp : string) (e : EndpointConfig) :
  EndpointConfig_init ep fp = Ok e ->
  no_lower (method e) = true /\
  Str.upper (method e) = method e /\
  (d_method ep = None -> method e = "GET").
Proof.
  intros He. apply EndpointConfig_init_ok in He as (_ & _ & Hm & _).
  rewrite Hm. split; [apply upper_no_lower|]. split.
  - apply upper_fixed, upper_no_lower.
  - intros ->. reflexivity.
Qed.

Lemma method_is_upper_case_witness :
  no_lower (method (endpoint_of decl_post "conf/a.yaml")) = true.
Proof.
  refine (proj1 (method_is_upper_case decl_post "conf/a.yaml" _ _)).
  reflexivity.
Defined.
